(** * Celestia node UI: namespace codec, RPC transport and encrypted record store

    A shallow embedding of the JavaScript sources of the control panel:
    - [Common]    : utils/common.js (namespace helpers of the modular build);
    - [Websocket] : services/websocket.js (connection life cycle, pending
                    requests, reconnect back-off);
    - [Database]  : components/database/database.js (token, encryption,
                    schema validation, record listing over blob.GetAll);
    - [Index]     : index.js (the single-file build: Buffer based namespace
                    helpers, local position index, record store).
    Browser builtins (atob, btoa, parseInt, localStorage) and the [buffer]
    package are modelled in [JS] after their standards.  [Store] is the
    monad of the stateful code (local storage, the outside world, thrown
    errors); [SchemaSpec] states schema conformance independently of the
    validator; [Aead] is the contract assumed of WebCrypto's AES-GCM and
    PBKDF2, and [Offline] a small executable platform that satisfies it.
    Further down: [Words] (the readable random namespaces), [Testnet] (a
    second executable platform, with a node that keeps blobs), [Forms]
    (the submit handlers of the Database tab), [Trace] (observations on
    transport runs), [Example] (two small databases), [Theme]
    (utils/theme.js) and [Tables]. *)

From Stdlib Require Import ZArith NArith Lia ZifyNat ZifyN List Sorted Ascii String Bool.
From stdpp Require Import base option list gmap strings pretty.

Local Open Scope N_scope.

(** ** Platform primitives *)
Module JS.

(** A byte is an [ascii] (8 bits); a Uint8Array is a [list ascii]; a JS
    "binary string" (all code units below 256) is the same list.  Text
    strings are [string]s holding the UTF-8 encoding of the text. *)
Abbreviation byte := ascii.
Abbreviation bytes := (list ascii).

Definition code (c : ascii) : N := N_of_ascii c.
Definition chr (n : N) : ascii := ascii_of_N n.

Definition TextEncoder_encode (s : string) : bytes := list_ascii_of_string s.
Definition TextDecoder_decode (b : bytes) : string := string_of_list_ascii b.

(** new Uint8Array(n) *)
Definition Uint8Array_new (n : nat) : bytes := replicate n zero.

(** typedArray.set(src, offset): copies [src] over the positions starting
    at [offset]; a source that does not fit raises a RangeError. *)
Definition Uint8Array_set (dst src : bytes) (offset : nat) : option bytes :=
  if decide (offset + length src ≤ length dst)%nat
  then Some (take offset dst ++ src ++ drop (offset + length src) dst)
  else None.

(** array.slice(a, b) for 0 <= a <= b *)
Definition slice {A} (l : list A) (a b : nat) : list A := take (b - a) (drop a l).

(** *** Base64 (RFC 4648 alphabet) *)
Definition b64_alphabet : list ascii :=
  list_ascii_of_string
    "ABCDEFGHIJKLMNOPQRSTUVWXYZabcdefghijklmnopqrstuvwxyz0123456789+/".

Definition pad_char : ascii := "="%char.

Definition sextet_char (n : N) : ascii := nth (N.to_nat n) b64_alphabet pad_char.

Fixpoint index_of (c : ascii) (l : list ascii) : option N :=
  match l with
  | [] => None
  | x :: r => if Ascii.eqb c x then Some 0 else N.succ <$> index_of c r
  end.

Definition char_sextet (c : ascii) : option N := index_of c b64_alphabet.

(** The 6-bit groups of a byte sequence, most significant bits first; a
    trailing partial group is completed with zero bits. *)
Fixpoint sextets (l : bytes) : list N :=
  match l with
  | a :: b :: c :: rest =>
      code a / 4 :: (code a mod 4) * 16 + code b / 16
      :: (code b mod 16) * 4 + code c / 64 :: code c mod 64 :: sextets rest
  | [a; b] => [code a / 4; (code a mod 4) * 16 + code b / 16; (code b mod 16) * 4]
  | [a] => [code a / 4; (code a mod 4) * 16]
  | [] => []
  end.

(** The characters of the encoding, before the padding. *)
Definition b64chars (l : bytes) : list ascii := map sextet_char (sextets l).

Definition padding (n : nat) : list ascii :=
  match (n mod 3)%nat with
  | 1%nat => [pad_char; pad_char]
  | 2%nat => [pad_char]
  | _ => []
  end.

(** Base64 text of a byte sequence, with padding: what [btoa] yields on a
    binary string and [Buffer#toString('base64')] on a buffer. *)
Definition base64_encode (l : bytes) : string :=
  string_of_list_ascii (b64chars l ++ padding (length l)).

(** Bytes of a sequence of 6-bit groups; the bits of a trailing partial
    group that do not fill a byte are dropped. *)
Fixpoint unsextets (l : list N) : bytes :=
  match l with
  | a :: b :: c :: d :: rest =>
      chr (a * 4 + b / 16) :: chr ((b mod 16) * 16 + c / 4)
      :: chr ((c mod 4) * 64 + d) :: unsextets rest
  | [a; b; c] => [chr (a * 4 + b / 16); chr ((b mod 16) * 16 + c / 4)]
  | [a; b] => [chr (a * 4 + b / 16)]
  | _ => []
  end.

Definition is_ascii_whitespace (c : ascii) : bool :=
  match code c with
  | 9 | 10 | 12 | 13 | 32 => true
  | _ => false
  end.

(** Removes one or two trailing '=' (forgiving-base64 decode, step 2). *)
Definition strip_padding (l : list ascii) : list ascii :=
  match rev l with
  | p :: q :: r =>
      if Ascii.eqb p pad_char
      then if Ascii.eqb q pad_char then rev r else rev (q :: r)
      else l
  | [p] => if Ascii.eqb p pad_char then [] else l
  | [] => l
  end.

(** window.atob: forgiving-base64 decode; [None] is the
    InvalidCharacterError exception. *)
Definition atob (s : string) : option bytes :=
  let data := List.filter (λ c, negb (is_ascii_whitespace c)) (list_ascii_of_string s) in
  let data := if (length data mod 4 =? 0)%nat then strip_padding data else data in
  if (length data mod 4 =? 1)%nat then None
  else unsextets <$> mapM char_sextet data.

(** window.btoa on a sequence of code units; code units above 255 raise
    InvalidCharacterError. *)
Definition btoa_units (l : list N) : option string :=
  if forallb (λ u, u <? 256) l then Some (base64_encode (map chr l)) else None.

(** window.btoa on a binary string (no exception possible). *)
Definition btoa (l : bytes) : string := base64_encode l.

(** *** Hexadecimal *)
Definition hex_digit (upper : bool) (n : N) : ascii :=
  if n <? 10 then chr (48 + n) else chr ((if upper then 55 else 87) + n).

(** byte.toString(16) padded to two digits *)
Definition hex_byte (upper : bool) (b : ascii) : list ascii :=
  [hex_digit upper (code b / 16); hex_digit upper (code b mod 16)].

Definition hex_of_bytes (upper : bool) (l : bytes) : string :=
  string_of_list_ascii (concat (map (hex_byte upper) l)).

Definition digit_value (c : ascii) : option N :=
  let n := code c in
  if (48 <=? n) && (n <=? 57) then Some (n - 48)
  else if (65 <=? n) && (n <=? 90) then Some (n - 55)
  else if (97 <=? n) && (n <=? 122) then Some (n - 87)
  else None.

(** The value of the longest prefix of digits below [radix]; [None] when
    the prefix is empty. *)
Fixpoint digits_prefix (radix : N) (acc : option N) (l : list ascii) : option N :=
  match l with
  | [] => acc
  | c :: r =>
      match digit_value c with
      | Some d =>
          if d <? radix then digits_prefix radix (Some (default 0 acc * radix + d)) r
          else acc
      | None => acc
      end
  end.

Definition is_js_whitespace (c : ascii) : bool :=
  match code c with
  | 9 | 10 | 11 | 12 | 13 | 32 => true
  | _ => false
  end.

Fixpoint skip_whitespace (l : list ascii) : list ascii :=
  match l with
  | c :: r => if is_js_whitespace c then skip_whitespace r else l
  | [] => []
  end.

(** parseInt(s, radix) for radix 10 or 16: leading white space, an
    optional sign, for radix 16 an optional 0x prefix, then the longest
    run of digits; [None] is NaN. *)
Definition parseInt (radix : N) (s : list ascii) : option Z :=
  let l := skip_whitespace s in
  let '(neg, l) :=
    match l with
    | "-"%char :: r => (true, r)
    | "+"%char :: r => (false, r)
    | _ => (false, l)
    end in
  let l :=
    if radix =? 16 then
      match l with
      | "0"%char :: "x"%char :: r => r
      | "0"%char :: "X"%char :: r => r
      | _ => l
      end
    else l in
  (λ n, if neg : bool then (- Z.of_N n)%Z else Z.of_N n) <$> digits_prefix radix None l.

Definition parseInt16 (s : list ascii) : option Z := parseInt 16 s.

(** String.fromCharCode(x): the code unit ToUint16(x); NaN gives 0. *)
Definition fromCharCode (x : option Z) : N :=
  match x with
  | Some z => Z.to_N (z mod 65536)
  | None => 0
  end.

(** Successive chunks of two characters: s.substr(i, 2) for i = 0, 2, ... *)
Fixpoint pairs (l : list ascii) : list (list ascii) :=
  match l with
  | a :: b :: r => [a; b] :: pairs r
  | [a] => [[a]]
  | [] => []
  end.

(** s.toUpperCase(), on ASCII letters (the strings it is applied to hold
    hex digits only). *)
Definition upper_char (c : ascii) : ascii :=
  if (97 <=? code c) && (code c <=? 122) then chr (code c - 32) else c.

Definition toUpperCase (s : string) : string :=
  string_of_list_ascii (map upper_char (list_ascii_of_string s)).

(** s.includes(t) *)
Fixpoint includes (s t : string) : bool :=
  String.prefix t s ||
  match s with
  | EmptyString => false
  | String _ r => includes r t
  end.

(** *** Truthiness and localStorage *)
Definition truthy (s : option string) : bool :=
  match s with
  | Some s => negb (String.eqb s "")
  | None => false
  end.

(** localStorage: a finite map from keys to string values. *)
Abbreviation Storage := (gmap string string).

Definition getItem (st : Storage) (k : string) : option string := st !! k.
Definition setItem (st : Storage) (k v : string) : Storage := <[k := v]> st.
Definition removeItem (st : Storage) (k : string) : Storage := delete k st.

End JS.

Import JS.

(** ** The environment of the record store

    Everything the sources reach outside the page: the random source of
    window.crypto, the clock, the WebCrypto primitives, JSON text, and the
    node behind the RPC connection.  [World] is the state of that
    environment; every call may change it. *)
#[local] Set Warnings "-register-all".
Inductive JSON :=
  | JNull
  | JBool (b : bool)
  | JNum (n : Z)
  | JStr (s : string)
  | JArr (l : list JSON)
  | JObj (fields : list (string * JSON)).

(** A blob as handed back by the node: only its [data] property is read
    ([None] when the property is missing). *)
Record Blob := { blob_data : option string; blob_height : Z }.

(** The outcome of a call that may raise: a value or the message of the
    Error. *)
Inductive result (A : Type) :=
  | Ok (a : A)
  | Throw (message : string).
Arguments Ok {A} a.
Arguments Throw {A} message.

Class Platform := {
  World : Type;
  Key : Type;
  (** one byte of window.crypto.getRandomValues *)
  random_byte : World → ascii * World;
  (** new Date().toISOString() *)
  now_iso : World → string * World;
  (** importKey + deriveKey with PBKDF2: password, salt, iterations *)
  pbkdf2_key : bytes → bytes → N → Key;
  (** digest('SHA-256') + importKey('raw') *)
  sha256_key : bytes → Key;
  (** crypto.subtle.encrypt / decrypt with AES-GCM: key, iv, data;
      decryption raises ([None]) when the tag does not verify *)
  aes_gcm_encrypt : Key → bytes → bytes → bytes;
  aes_gcm_decrypt : Key → bytes → bytes → option bytes;
  JSON_stringify : JSON → string;
  JSON_parse : string → option JSON;
  (** the isConnected flag of the transport *)
  connected : World → bool;
  (** await sendRpcRequest(method, params): the response message, or the
      Error the promise is rejected with *)
  rpc : string → JSON → World → result JSON * World;
  (** records.sort((a, b) => new Date(b.created) - new Date(a.created)) *)
  sort_newest_first : list JSON → list JSON;
}.

(** *** JSON values as JavaScript sees them *)

(** v[name] on an object; [None] is undefined. *)
Definition field (name : string) (v : JSON) : option JSON :=
  match v with
  | JObj fields => (list_to_map fields : gmap string JSON) !! name
  | _ => None
  end.

(** Truthiness of a value that may be undefined. *)
Definition truthy_json (v : option JSON) : bool :=
  match v with
  | None | Some JNull => false
  | Some (JBool b) => b
  | Some (JNum n) => negb (n =? 0)%Z
  | Some (JStr s) => negb (String.eqb s "")
  | Some (JArr _) | Some (JObj _) => true
  end.

Fixpoint join (sep : string) (l : list string) : string :=
  match l with
  | [] => ""
  | [x] => x
  | x :: r => x +:+ sep +:+ join sep r
  end.

(** String(v) *)
Fixpoint JS_String (v : JSON) : string :=
  match v with
  | JNull => "null"
  | JBool true => "true"
  | JBool false => "false"
  | JNum n => pretty n
  | JStr s => s
  | JArr l => join "," (map (λ x, match x with JNull => "" | _ => JS_String x end) l)
  | JObj _ => "[object Object]"
  end.

Definition is_null (v : JSON) : bool :=
  match v with JNull => true | _ => false end.

(** v === s for a string literal s, and v === undefined *)
Definition is_str (s : string) (v : option JSON) : bool :=
  match v with Some (JStr t) => String.eqb t s | _ => false end.

Definition is_undefined (v : option JSON) : bool :=
  match v with None => true | _ => false end.

(** v.length === 0 *)
Definition length_is_zero (v : option JSON) : bool :=
  match v with
  | Some (JArr []) => true
  | Some (JStr s) => String.eqb s ""
  | Some (JObj _ as o) => match field "length" o with Some (JNum 0) => true | _ => false end
  | _ => false
  end.

(** typeof v *)
Definition typeof (v : JSON) : string :=
  match v with
  | JBool _ => "boolean"
  | JNum _ => "number"
  | JStr _ => "string"
  | JNull | JArr _ | JObj _ => "object"
  end.

(** Array.isArray(v) *)
Definition isArray (v : JSON) : bool :=
  match v with JArr _ => true | _ => false end.

(** The values a for...of loop visits; [None] is the TypeError of a value
    that is not iterable. *)
Definition iterate (v : JSON) : option (list JSON) :=
  match v with
  | JArr l => Some l
  | JStr s => Some (map (λ c, JStr (String c "")) (list_ascii_of_string s))
  | _ => None
  end.

Definition JS_String_opt (v : option JSON) : string :=
  match v with
  | Some v => JS_String v
  | None => "undefined"
  end.

(** crypto.getRandomValues(new Uint8Array(n)) *)
Fixpoint getRandomValues `{Platform} (n : nat) (w : World) : bytes * World :=
  match n with
  | O => ([], w)
  | S n => let '(b, w) := random_byte w in
           let '(r, w) := getRandomValues n w in (b :: r, w)
  end.

(** ** Sequencing of the record store

    An operation of the record store runs against localStorage and the
    world; it returns a value or raises, and in both cases leaves the
    storage and the world it has reached. *)
Module Store.
Section monad.
Context `{Platform}.

Record Session := { storage : Storage; world : World }.

Definition M (A : Type) : Type := Session → result A * Session.

Definition ret {A} (a : A) : M A := λ s, (Ok a, s).
Definition throw {A} (message : string) : M A := λ s, (Throw message, s).

Definition bind {A B} (m : M A) (k : A → M B) : M B :=
  λ s, match m s with
       | (Ok a, s) => k a s
       | (Throw e, s) => (Throw e, s)
       end.

(** try { m } catch (error) { handler(error.message) } *)
Definition try_catch {A} (m : M A) (handler : string → M A) : M A :=
  λ s, match m s with
       | (Ok a, s) => (Ok a, s)
       | (Throw e, s) => handler e s
       end.

Definition localStorage_getItem (k : string) : M (option string) :=
  λ s, (Ok (getItem (storage s) k), s).

Definition localStorage_setItem (k v : string) : M unit :=
  λ s, (Ok (), {| storage := setItem (storage s) k v; world := world s |}).

Definition localStorage_removeItem (k : string) : M unit :=
  λ s, (Ok (), {| storage := removeItem (storage s) k; world := world s |}).

(** A call into the environment that cannot raise. *)
Definition ask {A} (f : World → A * World) : M A :=
  λ s, let '(a, w) := f (world s) in (Ok a, {| storage := storage s; world := w |}).

(** A call into the environment that may raise. *)
Definition call {A} (f : World → result A * World) : M A :=
  λ s, let '(r, w) := f (world s) in (r, {| storage := storage s; world := w |}).

(** A value of a builtin that raises on [None]. *)
Definition or_throw {A} (message : string) (o : option A) : M A :=
  match o with
  | Some a => ret a
  | None => throw message
  end.

(** [m] keeps every storage property [P] it starts from, whether it
    returns or raises. *)
Definition preserves {A} (P : Storage → Prop) (m : M A) : Prop :=
  ∀ s, P (storage s) → P (storage (m s).2).

End monad.

(** The value stored under one key. *)
Definition holds (k v : string) (st : Storage) : Prop := getItem st k = Some v.

Declare Scope store_scope.
Notation "'let*' x := m 'in' k" :=
  (bind m (λ x, k)) (at level 10, x pattern, m at level 100, k at level 200) : store_scope.
Notation "m ;; k" := (bind m (λ _, k)) (at level 100, k at level 200, right associativity) : store_scope.

End Store.

(** ** utils/common.js *)
Module Common.

(** RESERVED_NAMESPACES, in declaration order. *)
Definition RESERVED_NAMESPACES : list (string * string) :=
  [ ("TRANSACTION_NAMESPACE",
     "0000000000000000000000000000000000000000000000000000000001");
    ("INTERMEDIATE_STATE_ROOT_NAMESPACE",
     "0000000000000000000000000000000000000000000000000000000002");
    ("PAY_FOR_BLOB_NAMESPACE",
     "0000000000000000000000000000000000000000000000000000000004");
    ("PRIMARY_RESERVED_PADDING_NAMESPACE",
     "00000000000000000000000000000000000000000000000000000000FF");
    ("TAIL_PADDING_NAMESPACE",
     "FFFFFFFFFFFFFFFFFFFFFFFFFFFFFFFFFFFFFFFFFFFFFFFFFFFFFFFFFFFE");
    ("SECONDARY_RESERVED_PADDING_NAMESPACE",
     "FFFFFFFFFFFFFFFFFFFFFFFFFFFFFFFFFFFFFFFFFFFFFFFFFFFFFFFD") ]%string.

(** base64.replace(/=/g, '') *)
Definition cleanBase64 (base64 : string) : string :=
  string_of_list_ascii
    (List.filter (λ c, negb (Ascii.eqb c pad_char)) (list_ascii_of_string base64)).

Definition base64ToHex (base64 : string) : string :=
  match atob (cleanBase64 base64) with
  | Some binaryString => toUpperCase (hex_of_bytes false binaryString)
  | None => ""
  end.

(** hex.replace(/^0x/, '') *)
Definition strip_0x (l : list ascii) : list ascii :=
  match l with
  | "0"%char :: "x"%char :: r => r
  | _ => l
  end.

Definition hexToBase64 (hex : string) : string :=
  let hexString := strip_0x (list_ascii_of_string hex) in
  let binaryString := map (λ p, fromCharCode (parseInt16 p)) (pairs hexString) in
  default ""%string (btoa_units binaryString).

Definition isReservedNamespace (base64Namespace : string) : bool :=
  let hexNamespace := base64ToHex base64Namespace in
  existsb (λ reservedNamespace, String.eqb hexNamespace reservedNamespace)
          (RESERVED_NAMESPACES.*2).

Definition isValidBase64 (str : string) : bool :=
  match atob str with
  | Some b => String.eqb (btoa b) str
  | None => false
  end.

(** The error messages of validateNamespace, by the rule they report. *)
Inductive NamespaceError :=
  | InvalidBase64Encoding
  | MustBe29Bytes (got : nat)
  | InvalidVersion (version : option Z)
  | ReservedNamespace.

Record Validation := { isValid : bool; error : option NamespaceError }.

Definition validateNamespace (base64Namespace : string) : Validation :=
  if negb (isValidBase64 base64Namespace) then
    {| isValid := false; error := Some InvalidBase64Encoding |}
  else
    let hexNamespace := base64ToHex base64Namespace in
    if negb (String.length hexNamespace =? 58)%nat then
      {| isValid := false;
         error := Some (MustBe29Bytes (String.length hexNamespace / 2)) |}
    else
      let version := parseInt16 (list_ascii_of_string (substring 0 2 hexNamespace)) in
      if negb (bool_decide (version = Some 0%Z)) && negb (bool_decide (version = Some 255%Z)) then
        {| isValid := false; error := Some (InvalidVersion version) |}
      else if isReservedNamespace base64Namespace then
        {| isValid := false; error := Some ReservedNamespace |}
      else {| isValid := true; error := None |}.

Record NamespaceInfo := { base64 : string; hex : string; plaintext : string }.

Definition createValidNamespace (input : string) : NamespaceInfo :=
  let inputBytes := TextEncoder_encode input in
  let namespaceBytes := Uint8Array_new 29 in
  let namespaceBytes := <[0%nat := chr 0]> namespaceBytes in
  let bytesToCopy := (length inputBytes `min` 28)%nat in
  let namespaceBytes :=
    foldl (λ ns i, <[S i := nth i inputBytes zero]> ns) namespaceBytes (seq 0 bytesToCopy) in
  {| base64 := btoa namespaceBytes;
     hex := toUpperCase (hex_of_bytes false namespaceBytes);
     plaintext := input |}.

End Common.

(** ** services/websocket.js (the same code opens index.js) *)
Module Websocket.
Local Open Scope nat_scope.

Definition maxReconnectAttempts : nat := 5.

(** A parsed inbound message: its [id] ([None] when absent), its [error]
    object with the optional [message], and the rest of the response. *)
Record Response := {
  resp_id : option nat;
  resp_error : option (option string);
  resp_result : JSON }.

Inductive Settlement :=
  | Resolved (response : Response)
  | Rejected (message : string).

(** A pending-request entry holds the resolve and reject functions of one
    promise; [promise] names that promise. *)
Record Callbacks := { promise : nat }.

(** What a handler does outside the connection state. *)
Inductive Effect :=
  | NewWebSocket                           (* new WebSocket(CELESTIA_NODE_URL) *)
  | SetTimeout_connect (delay : nat)       (* setTimeout(connectWebSocket, delay) *)
  | Send (id : nat) (method : string)      (* ws.send(JSON.stringify(payload)) *)
  | Settle (p : nat) (s : Settlement)      (* resolve or reject of promise p *)
  | StatusConnected                        (* connectionStatus: connected *)
  | StatusDisconnected                     (* connectionStatus: disconnected *)
  | AlertHidden                            (* nodeConnectionAlert hidden *)
  | AlertShown                             (* nodeConnectionAlert shown *)
  | UpdateAllNodeInfo.                     (* updateAllNodeInfo() *)

(** Which of the two DOM elements the page has. *)
Record Dom := { has_connectionStatus : bool; has_nodeConnectionAlert : bool }.

(** The module-level variables. *)
Record State := {
  ws : option unit;
  requestId : nat;
  pendingRequests : gmap nat Callbacks;
  isConnected : bool;
  reconnectAttempts : nat }.

Definition initial : State :=
  {| ws := None; requestId := 1; pendingRequests := ∅;
     isConnected := false; reconnectAttempts := 0 |}.

Definition when (b : bool) (e : Effect) : list Effect := if b then [e] else [].

(** connectWebSocket(); [constructed] tells whether the WebSocket
    constructor returned (otherwise it raised and the catch resets ws). *)
Definition connectWebSocket (constructed : bool) (s : State) : State * list Effect :=
  match ws s with
  | Some _ => (s, [])
  | None =>
      if constructed
      then ({| ws := Some (); requestId := requestId s;
               pendingRequests := pendingRequests s;
               isConnected := isConnected s;
               reconnectAttempts := reconnectAttempts s |}, [NewWebSocket])
      else (s, [])
  end.

Definition onopen (dom : Dom) (s : State) : State * list Effect :=
  ({| ws := ws s; requestId := requestId s;
      pendingRequests := pendingRequests s;
      isConnected := true; reconnectAttempts := 0 |},
   when (has_connectionStatus dom) StatusConnected
   ++ when (has_nodeConnectionAlert dom) AlertHidden).

(** ws.onmessage; [None] is a message that JSON.parse rejects. *)
Definition onmessage (event : option Response) (s : State) : State * list Effect :=
  match event with
  | None => (s, [])
  | Some response =>
      match resp_id response with
      | Some (S _ as id) =>
          match pendingRequests s !! id with
          | Some cb =>
              let outcome :=
                match resp_error response with
                | Some message =>
                    Rejected (if truthy message then default ""%string message
                              else "Unknown error"%string)
                | None => Resolved response
                end in
              ({| ws := ws s; requestId := requestId s;
                  pendingRequests := delete id (pendingRequests s);
                  isConnected := isConnected s;
                  reconnectAttempts := reconnectAttempts s |},
               [Settle (promise cb) outcome])
          | None => (s, [])
          end
      | _ => (s, [])
      end
  end.

Definition onerror (s : State) : State * list Effect :=
  ({| ws := ws s; requestId := requestId s;
      pendingRequests := pendingRequests s;
      isConnected := false; reconnectAttempts := reconnectAttempts s |}, []).

Definition onclose (dom : Dom) (s : State) : State * list Effect :=
  let s := {| ws := None; requestId := requestId s;
              pendingRequests := pendingRequests s;
              isConnected := false; reconnectAttempts := reconnectAttempts s |} in
  if (reconnectAttempts s <? maxReconnectAttempts)%nat then
    let attempts := S (reconnectAttempts s) in
    let delay := (1000 * attempts) `min` 5000 in
    ({| ws := ws s; requestId := requestId s;
        pendingRequests := pendingRequests s;
        isConnected := isConnected s; reconnectAttempts := attempts |},
     [SetTimeout_connect delay])
  else
    (s, when (has_connectionStatus dom) StatusDisconnected
        ++ when (has_nodeConnectionAlert dom) AlertShown
        ++ [UpdateAllNodeInfo]).

(** The part of sendRpcRequest after the wait for a connection: the id is
    taken, then the promise executor runs. *)
Definition dispatch (method : string) (s : State) : State * list Effect :=
  let id := requestId s in
  let s := {| ws := ws s; requestId := S id;
              pendingRequests := pendingRequests s;
              isConnected := isConnected s;
              reconnectAttempts := reconnectAttempts s |} in
  let failed (message : string) :=
    ({| ws := ws s; requestId := requestId s;
        pendingRequests := delete id (pendingRequests s);
        isConnected := isConnected s;
        reconnectAttempts := reconnectAttempts s |},
     [Settle id (Rejected message)]) in
  if negb (isConnected s) then failed "Not connected to Celestia node"%string
  else
    match ws s with
    | None => failed "TypeError"%string
    | Some _ =>
        ({| ws := ws s; requestId := requestId s;
            pendingRequests := <[id := {| promise := id |}]> (pendingRequests s);
            isConnected := isConnected s;
            reconnectAttempts := reconnectAttempts s |},
         [Send id method])
    end.

(** The first sentence of the timeout message (start-up instructions
    follow it in the source). *)
Definition connection_timeout : string :=
  "Connection timeout: Unable to connect to Celestia node."%string.

(** sendRpcRequest; when the call starts disconnected, [timed_out] tells
    whether the one second timer won the race.  The promise of a call
    that times out is named by the id it would have taken. *)
Definition sendRpcRequest (method : string) (timed_out : bool) (s : State)
  : State * list Effect :=
  if negb (isConnected s) && timed_out
  then (s, [Settle (requestId s) (Rejected connection_timeout)])
  else dispatch method s.

(** What can happen to the transport. *)
Inductive Event :=
  | Open
  | Message (event : option Response)
  | Error
  | Close
  | Connect (constructed : bool)           (* a timer or a caller runs connectWebSocket *)
  | Call (method : string) (timed_out : bool).

Definition step (dom : Dom) (ev : Event) (s : State) : State * list Effect :=
  match ev with
  | Open => onopen dom s
  | Message m => onmessage m s
  | Error => onerror s
  | Close => onclose dom s
  | Connect c => connectWebSocket c s
  | Call m t => sendRpcRequest m t s
  end.

Fixpoint run (dom : Dom) (evs : list Event) (s : State) : State * list Effect :=
  match evs with
  | [] => (s, [])
  | ev :: evs =>
      let '(s, e1) := step dom ev s in
      let '(s, e2) := run dom evs s in
      (s, e1 ++ e2)
  end.

(** The delays of the reconnect timers among some effects, in order. *)
Definition delays (effects : list Effect) : list nat :=
  omap (λ e, match e with SetTimeout_connect d => Some d | _ => None end) effects.


Definition is_open (ev : Event) : bool :=
  match ev with Open => true | _ => false end.

Definition is_close (ev : Event) : bool :=
  match ev with Close => true | _ => false end.

(** How many times the connection closed. *)
Definition closes (evs : list Event) : nat := length (List.filter is_close evs).

Definition is_report (e : Effect) : bool :=
  match e with UpdateAllNodeInfo => true | _ => false end.

(** The delay before reconnect attempt number [i]. *)
Definition backoff (i : nat) : nat := (1000 * i) `min` 5000.

End Websocket.

(** ** components/database/database.js *)
Module Database.
Section store.
Context `{Platform}.
Import Store.
Local Open Scope store_scope.
Local Open Scope string_scope.

Definition DB_NAMESPACE_KEY := "celestia_db_namespace".
Definition DB_TOKEN_KEY := "celestia_db_token".
Definition DB_SCHEMA_KEY := "celestia_db_schema".

Definition generateAuthToken : M string :=
  let* array := ask (getRandomValues 32) in
  ret (hex_of_bytes false array).

Definition getOrCreateAuthToken : M string :=
  let* token := localStorage_getItem DB_TOKEN_KEY in
  match token with
  | Some token =>
      if negb (String.eqb token "") then ret token
      else
        let* token := generateAuthToken in
        localStorage_setItem DB_TOKEN_KEY token ;;
        ret token
  | None =>
      let* token := generateAuthToken in
      localStorage_setItem DB_TOKEN_KEY token ;;
      ret token
  end.

(** The key both functions derive from the token. *)
Definition deriveKey (token : string) : Key :=
  pbkdf2_key (TextEncoder_encode token) (TextEncoder_encode "celestia-db-salt") 100000.

(** [result] is a fresh array of the two lengths, filled by two [set]
    calls: the iv followed by the ciphertext. *)
Definition encryptData (data : JSON) (token : string) : M string :=
  let jsonString := JSON_stringify data in
  let key := deriveKey token in
  let* iv := ask (getRandomValues 12) in
  let encryptedContent := aes_gcm_encrypt key iv (TextEncoder_encode jsonString) in
  let result := (iv ++ encryptedContent)%list in
  ret (btoa result).

Definition decryptData (encryptedBase64 token : string) : M JSON :=
  let* encryptedData := or_throw "InvalidCharacterError" (atob encryptedBase64) in
  let iv := slice encryptedData 0 12 in
  let ciphertext := drop 12 encryptedData in
  let key := deriveKey token in
  let* decryptedContent := or_throw "OperationError" (aes_gcm_decrypt key iv ciphertext) in
  let jsonString := TextDecoder_decode decryptedContent in
  or_throw "SyntaxError" (JSON_parse jsonString).

(** The token is deliberately kept ("Don't remove the token, as it's
    needed to decrypt existing data"); updateDatabaseInfoPanel then only
    rewrites the DOM, the namespace being gone. *)
Definition clearDatabaseCache : M unit :=
  localStorage_removeItem DB_NAMESPACE_KEY ;;
  localStorage_removeItem DB_SCHEMA_KEY.

(** /^[0-9A-Fa-f]+$/.test(s) *)
Definition is_hex_text (s : string) : bool :=
  negb (String.eqb s "") &&
  forallb (λ c, bool_decide (is_Some (digits_prefix 16 None [c]))) (list_ascii_of_string s).

Definition namespaceHex_of (namespace : string) : string :=
  if is_hex_text namespace then toUpperCase namespace else Common.base64ToHex namespace.

Record Submission := {
  sub_height : option JSON;
  sub_hash : option JSON;
  sub_namespace : string;
  sub_namespaceHex : string }.

(** Submits one wrapped blob; [after] runs once the node has accepted it. *)
Definition submit (namespace : string) (wrapped : JSON) (after : M unit) : M Submission :=
  let namespaceHex := namespaceHex_of namespace in
  let params :=
    JArr [JArr [JObj [("namespace", JStr namespaceHex);
                      ("data", JStr (btoa (list_ascii_of_string (JSON_stringify wrapped))));
                      ("share_version", JNum 0)]];
          JObj []] in
  let* response := call (rpc "blob.Submit" params) in
  if is_null response then throw "TypeError"
  else if truthy_json (field "result" response) then
    after ;;
    ret {| sub_height := field "result" response ≫= field "height";
           sub_hash := field "result" response ≫= field "txhash";
           sub_namespace := namespace;
           sub_namespaceHex := namespaceHex |}
  else throw "Invalid response from node".

Definition initializeDatabase (namespace : string) (schema : JSON) : M Submission :=
  let* token := getOrCreateAuthToken in
  let* encryptedSchema := encryptData schema token in
  let* created := ask now_iso in
  let metadata := JObj [("type", JStr "celestia-db"); ("version", JStr "1.0.0");
                        ("created", JStr created); ("schema", JStr encryptedSchema)] in
  submit namespace metadata
    (localStorage_setItem DB_NAMESPACE_KEY namespace ;;
     localStorage_setItem DB_SCHEMA_KEY (JSON_stringify schema)).

Definition addDatabaseRecord (data : JSON) : M Submission :=
  let* namespace := localStorage_getItem DB_NAMESPACE_KEY in
  let* token := getOrCreateAuthToken in
  if negb (truthy namespace) then throw "Database not initialized"
  else
    let* encryptedData := encryptData data token in
    let* created := ask now_iso in
    let record := JObj [("type", JStr "celestia-db-record"); ("version", JStr "1.0.0");
                        ("created", JStr created); ("data", JStr encryptedData)] in
    submit (default "" namespace) record (ret ()).

(** *** Schema validation *)

Inductive ValidationError :=
  | FieldRequired (name : string)
  | MustBeString (name : string)
  | MustBeNumber (name : string)
  | MustBeBoolean (name : string)
  | MustBeObject (name : string)
  | MustBeArray (name : string)
  | ErrorValidating.               (* the catch clause *)

Record Validation := { isValid : bool; error : option ValidationError }.

(** The properties a for...in loop visits, with their values: those of an
    object, in its order; nothing for a missing or primitive value.
    (Schemas are objects; arrays and strings used as schemas are out of
    the model.) *)
Definition for_in (v : option JSON) : list (string * JSON) :=
  match v with
  | Some (JObj fields) => fields
  | _ => []
  end.

(** The body of the loop for one declared field: [Some] is the error it
    returns, [None] lets the loop go on. *)
Definition check_field (data : JSON) (name : string) (fieldSchema : JSON)
  : option ValidationError :=
  if is_null fieldSchema || is_null data then Some ErrorValidating
  else
    let value := field name data in
    if truthy_json (field "required" fieldSchema)
       && (is_undefined value || from_option is_null false value)
    then Some (FieldRequired name)
    else
      match value with
      | None => None
      | Some value =>
          if truthy_json (field "type" fieldSchema) then
            let valueType := typeof value in
            let declared := field "type" fieldSchema in
            if is_str "string" declared && negb (String.eqb valueType "string")
            then Some (MustBeString name)
            else if is_str "number" declared && negb (String.eqb valueType "number")
            then Some (MustBeNumber name)
            else if is_str "boolean" declared && negb (String.eqb valueType "boolean")
            then Some (MustBeBoolean name)
            else if is_str "object" declared
                    && (negb (String.eqb valueType "object") || isArray value)
            then Some (MustBeObject name)
            else if is_str "array" declared && negb (isArray value)
            then Some (MustBeArray name)
            else None
          else None
      end.

Fixpoint check_fields (data : JSON) (fields : list (string * JSON)) : option ValidationError :=
  match fields with
  | [] => None
  | (name, fieldSchema) :: rest =>
      match check_field data name fieldSchema with
      | Some e => Some e
      | None => check_fields data rest
      end
  end.

Definition validateDataAgainstSchema (data schema : JSON) : Validation :=
  if is_null schema then {| isValid := false; error := Some ErrorValidating |}
  else
    match check_fields data (for_in (field "fields" schema)) with
    | Some e => {| isValid := false; error := Some e |}
    | None => {| isValid := true; error := None |}
    end.

(** *** Reading back *)

(** The first blob whose decoded text is an object of type celestia-db;
    a blob that does not decode or parse is passed over. *)
Fixpoint find_metadata (blobs : list JSON) : option JSON :=
  match blobs with
  | [] => None
  | blob :: rest =>
      let parsed :=
        if is_null blob then None
        else
          b ← atob (JS_String_opt (field "data" blob));
          data ← JSON_parse (string_of_list_ascii b);
          if is_null data then None
          else if is_str "celestia-db" (field "type" data) then Some data
          else None in
      match parsed with
      | Some data => Some data
      | None => find_metadata rest
      end
  end.

Definition retrieveDatabaseSchema : M JSON :=
  let* cachedSchema := localStorage_getItem DB_SCHEMA_KEY in
  if truthy cachedSchema then or_throw "SyntaxError" (JSON_parse (default "" cachedSchema))
  else
    let* namespace := localStorage_getItem DB_NAMESPACE_KEY in
    if negb (truthy namespace) then throw "Database not initialized"
    else
      let namespaceHex := namespaceHex_of (default "" namespace) in
      let* response :=
        call (rpc "blob.GetAll" (JArr [JNum 0; JStr namespaceHex; JObj [("prove", JBool false)]])) in
      if is_null response then throw "TypeError"
      else
        let blobs := field "result" response ≫= field "blobs" in
        if negb (truthy_json (field "result" response)) || negb (truthy_json blobs)
           || length_is_zero blobs
        then throw "No database metadata found"
        else
          match blobs ≫= iterate with
          | None => throw "TypeError"
          | Some blobs =>
              match find_metadata blobs with
              | None => throw "No database metadata found"
              | Some metadata =>
                  let* token := getOrCreateAuthToken in
                  let* schema := decryptData (JS_String_opt (field "schema" metadata)) token in
                  localStorage_setItem DB_SCHEMA_KEY (JSON_stringify schema) ;;
                  ret schema
              end
          end.

(** One turn of the loop of retrieveDatabaseRecords: [Some] is the record
    pushed, [None] a blob that is passed over (a metadata blob, a blob of
    another type, or one whose processing raised). *)
Definition processBlob (token : string) (blob : JSON) : M (option JSON) :=
  try_catch
    (if is_null blob then throw "TypeError" else
     let* b := or_throw "InvalidCharacterError" (atob (JS_String_opt (field "data" blob))) in
     let* blobData := or_throw "SyntaxError" (JSON_parse (string_of_list_ascii b)) in
     if is_null blobData then throw "TypeError"
     else if is_str "celestia-db" (field "type" blobData) then ret None
     else if is_str "celestia-db-record" (field "type" blobData) then
       let* decryptedData := decryptData (JS_String_opt (field "data" blobData)) token in
       ret (Some (JObj ([("data", decryptedData)]
                        ++ from_option (λ c, [("created", c)]) [] (field "created" blobData)
                        ++ from_option (λ h, [("height", h)]) [] (field "height" blob))%list))
     else ret None)
    (λ _, ret None).

Fixpoint processBlobs (token : string) (blobs : list JSON) : M (list JSON) :=
  match blobs with
  | [] => ret []
  | blob :: rest =>
      let* r := processBlob token blob in
      let* records := processBlobs token rest in
      ret (from_option (λ x, [x]) [] r ++ records)%list
  end.

Definition retrieveDatabaseRecords : M (list JSON) :=
  let* namespace := localStorage_getItem DB_NAMESPACE_KEY in
  if negb (truthy namespace) then throw "Database not initialized"
  else
    let namespaceHex := namespaceHex_of (default "" namespace) in
    let* token := getOrCreateAuthToken in
    let* response :=
      call (rpc "blob.GetAll" (JArr [JNum 0; JStr namespaceHex; JObj [("prove", JBool false)]])) in
    if is_null response then throw "TypeError"
    else
      let blobs := field "result" response ≫= field "blobs" in
      if negb (truthy_json (field "result" response)) || negb (truthy_json blobs)
      then throw "Error retrieving database records"
      else
        match blobs ≫= iterate with
        | None => throw "TypeError"
        | Some blobs =>
            let* records := processBlobs token blobs in
            ret (sort_newest_first records)
        end.

End store.
End Database.

(** ** The schema rules as the specification words them

    A declared field is violated when it is required and absent or null,
    or when it is present and its runtime type does not match the declared
    one: "object" excludes arrays, "array" requires an array. *)
Module SchemaSpec.
Local Open Scope string_scope.

Inductive FieldType := TString | TNumber | TBoolean | TObject | TArray.




Definition matches (ty : FieldType) (v : JSON) : bool :=
  match ty with
  | TString => String.eqb (typeof v) "string"
  | TNumber => String.eqb (typeof v) "number"
  | TBoolean => String.eqb (typeof v) "boolean"
  | TObject => String.eqb (typeof v) "object" && negb (isArray v)
  | TArray => isArray v
  end.




End SchemaSpec.

(** ** index.js: namespace helpers and record store *)
Module Index.

Definition RESERVED_NAMESPACES : list (string * string) :=
  [ ("TRANSACTION_NAMESPACE",
     "0000000000000000000000000000000000000000000000000000000001");
    ("INTERMEDIATE_STATE_ROOT_NAMESPACE",
     "0000000000000000000000000000000000000000000000000000000002");
    ("PAY_FOR_BLOB_NAMESPACE",
     "0000000000000000000000000000000000000000000000000000000004");
    ("PRIMARY_RESERVED_PADDING_NAMESPACE",
     "00000000000000000000000000000000000000000000000000000000FF");
    ("TAIL_PADDING_NAMESPACE",
     "FFFFFFFFFFFFFFFFFFFFFFFFFFFFFFFFFFFFFFFFFFFFFFFFFFFFFFFFFFFE");
    ("PARITY_SHARE_NAMESPACE",
     "FFFFFFFFFFFFFFFFFFFFFFFFFFFFFFFFFFFFFFFFFFFFFFFFFFFFFFFFFFFFFFFF") ]%string.

(** *** The buffer package *)

(** The decoding table of base64-js: the RFC 4648 alphabet and the two
    URL-safe characters. *)
Definition url_char_sextet (c : ascii) : option N :=
  if Ascii.eqb c "-" then Some 62
  else if Ascii.eqb c "_" then Some 63
  else char_sextet c.

Fixpoint before_pad (l : list ascii) : list ascii :=
  match l with
  | c :: r => if Ascii.eqb c pad_char then [] else c :: before_pad r
  | [] => []
  end.

(** base64clean: the text before the first '=', without the characters
    outside the table; a remainder of fewer than two characters is
    dropped. *)
Definition base64clean (l : list ascii) : list ascii :=
  let str := List.filter (λ c, bool_decide (is_Some (url_char_sextet c))) (before_pad l) in
  if (length str <? 2)%nat then [] else str.

(** Buffer.from(s, 'base64'): never raises. *)
Definition Buffer_from_base64 (s : string) : bytes :=
  unsextets (omap url_char_sextet (base64clean (list_ascii_of_string s))).

(** hexWrite: stops at the first pair that parseInt cannot read; a value
    is stored modulo 256. *)
Fixpoint hexWrite (ps : list (list ascii)) : bytes :=
  match ps with
  | [] => []
  | p :: r =>
      match parseInt16 p with
      | None => []
      | Some z => chr (Z.to_N (z mod 256)) :: hexWrite r
      end
  end.

(** Buffer.from(s, 'hex') *)
Definition Buffer_from_hex (s : string) : bytes :=
  let l := list_ascii_of_string s in
  hexWrite (take (length l / 2) (pairs l)).

(** buf.toString('hex') and buf.toString('base64') *)
Definition Buffer_toString_hex (b : bytes) : string := hex_of_bytes false b.
Definition Buffer_toString_base64 (b : bytes) : string := base64_encode b.

(** *** Namespace helpers *)

Definition base64ToHex (base64 : string) : string :=
  let bytes := Buffer_from_base64 base64 in
  if (length bytes =? 29)%nat
  then Buffer_toString_hex (drop 19 bytes)
  else Buffer_toString_hex bytes.

Definition hexToBase64 (hex : string) : string :=
  Buffer_toString_base64 (Buffer_from_hex hex).

(** [input] is [Some s] for a string argument and [None] for any other
    value; [None] as a result is a RangeError of [set]. *)
Definition createValidNamespace `{Platform} (input : option string) (w : World)
  : option string * World :=
  let version := chr 0 in
  let '(id, w) :=
    match input with
    | Some input =>
        let hash := Uint8Array_new 10 in
        let inputBytes := TextEncoder_encode input in
        let startPos := Z.to_nat (Z.max 0 (10 - Z.of_nat (length inputBytes))) in
        (hash ← Uint8Array_set hash (slice inputBytes 0 10) startPos;
         Uint8Array_set (Uint8Array_new 28) hash 18, w)
    | None =>
        let '(randomPart, w) := getRandomValues 10 w in
        (Uint8Array_set (Uint8Array_new 28) randomPart 18, w)
    end in
  (id ← id;
   namespace ← Uint8Array_set (<[0%nat := version]> (Uint8Array_new 29)) id 1;
   Some (Buffer_toString_base64 namespace), w).

(** The 29 bytes createValidNamespace builds from the bytes of a string,
    in closed form: 19 zero bytes, then the first 10 bytes of the input
    with zero bytes in front of them when there are fewer. *)
Definition padded (inputBytes : bytes) : bytes :=
  (replicate 19 zero ++ replicate (10 - length inputBytes) zero ++ take 10 inputBytes)%list.

Definition isReservedNamespace (base64Namespace : string) : bool :=
  let bytes := Buffer_from_base64 base64Namespace in
  let hex := Buffer_toString_hex bytes in
  existsb (λ reserved, includes hex reserved) (RESERVED_NAMESPACES.*2).

Inductive NamespaceError :=
  | MustBeExactly29Bytes (got : nat)
  | MissingLeadingZeroBytes
  | UnsupportedVersion
  | ReservedNamespace.

Definition error_message (e : NamespaceError) : string :=
  match e with
  | MustBeExactly29Bytes got =>
      "Namespace must be exactly 29 bytes (got " +:+ pretty got +:+ ")"
  | MissingLeadingZeroBytes =>
      "Version 0 namespace must have 18 leading zero bytes in the ID"
  | UnsupportedVersion => "Only namespace versions 0 and 255 are supported"
  | ReservedNamespace =>
      "This is a reserved namespace and cannot be used for user data"
  end.

Record Validation := { valid : bool; error : option NamespaceError }.

Definition validateNamespace (base64Namespace : string) : Validation :=
  let bytes := Buffer_from_base64 base64Namespace in
  if negb (length bytes =? 29)%nat then
    {| valid := false; error := Some (MustBeExactly29Bytes (length bytes)) |}
  else
    let version := code (nth 0 bytes zero) in
    let failure :=
      if version =? 0 then
        if forallb (λ i, code (nth (i + 1) bytes zero) =? 0) (seq 0 18)
        then None else Some MissingLeadingZeroBytes
      else if negb (version =? 255) then Some UnsupportedVersion
      else None in
    match failure with
    | Some e => {| valid := false; error := Some e |}
    | None =>
        if isReservedNamespace base64Namespace then
          {| valid := false; error := Some ReservedNamespace |}
        else {| valid := true; error := None |}
    end.

Definition isValidBase64 (str : string) : bool :=
  match atob str with
  | Some b => String.eqb (btoa b) str
  | None => false
  end.

(** encodeToBase64 and decodeFromBase64: btoa and atob, with '' when
    they raise (btoa cannot raise on the texts modelled here). *)
Definition encodeToBase64 (text : string) : string := btoa (list_ascii_of_string text).

Definition decodeFromBase64 (base64 : string) : string :=
  match atob base64 with
  | Some b => string_of_list_ascii b
  | None => ""
  end.

(** *** Record store *)
Section store.
Context `{Platform}.
Import Store.
Local Open Scope store_scope.
Local Open Scope string_scope.

Definition DB_NAMESPACE_KEY := "celestia_db_namespace".
Definition DB_SCHEMA_HEIGHT_KEY := "celestia_db_schema_height".
Definition DB_RECORDS_KEY := "celestia_db_records".
Definition DB_AUTH_TOKEN_KEY := "celestia_db_auth_token".

Definition generateAuthToken : M string :=
  let* randomBuffer := ask (getRandomValues 32) in
  ret (btoa randomBuffer).

Definition getOrCreateAuthToken : M string :=
  let* token := localStorage_getItem DB_AUTH_TOKEN_KEY in
  match token with
  | Some token =>
      if negb (String.eqb token "") then ret token
      else
        let* token := generateAuthToken in
        localStorage_setItem DB_AUTH_TOKEN_KEY token ;;
        ret token
  | None =>
      let* token := generateAuthToken in
      localStorage_setItem DB_AUTH_TOKEN_KEY token ;;
      ret token
  end.

(** encryptedArray is a fresh array of the two lengths, filled by two
    [set] calls: the iv followed by the ciphertext. *)
Definition encryptData (data token : string) : M string :=
  let keyData := TextEncoder_encode token in
  let key := sha256_key keyData in
  let* iv := ask (getRandomValues 12) in
  let dataBuffer := TextEncoder_encode data in
  let encryptedBuffer := aes_gcm_encrypt key iv dataBuffer in
  let encryptedArray := (iv ++ encryptedBuffer)%list in
  ret (btoa encryptedArray).

Definition decryptData (encryptedBase64 token : string) : M string :=
  try_catch
    (let* encryptedArray := or_throw "InvalidCharacterError" (atob encryptedBase64) in
     let iv := slice encryptedArray 0 12 in
     let encryptedData := drop 12 encryptedArray in
     let keyData := TextEncoder_encode token in
     let key := sha256_key keyData in
     let* decryptedBuffer := or_throw "OperationError" (aes_gcm_decrypt key iv encryptedData) in
     ret (TextDecoder_decode decryptedBuffer))
    (λ _, throw "Failed to decrypt data. The authentication token may have changed.").

(** The UI part of clearDatabaseCache (updateDatabaseInfoPanel and the
    table clean-up) reads localStorage and writes the DOM only. *)
Definition clearDatabaseCache : M unit :=
  localStorage_removeItem DB_NAMESPACE_KEY ;;
  localStorage_removeItem DB_SCHEMA_HEIGHT_KEY ;;
  localStorage_removeItem DB_RECORDS_KEY ;;
  localStorage_removeItem DB_AUTH_TOKEN_KEY.

Record SubmitResult := {
  result_height : option JSON;
  result_namespaceHex : string;
  result_namespaceBase64 : string }.

Definition submitBlob (namespace data : string) : M SubmitResult :=
  if negb (isValidBase64 namespace) then
    throw "Invalid namespace format. Must be base64 encoded."
  else
    let namespaceValidation := validateNamespace namespace in
    if negb (valid namespaceValidation) then
      throw ("Invalid namespace: " +:+
             from_option error_message "undefined" (error namespaceValidation))
    else if negb (isValidBase64 data) then
      throw "Invalid data format. Must be base64 encoded."
    else
      let blob := JObj [("namespace", JStr namespace); ("data", JStr data);
                        ("share_version", JNum 0)] in
      let* response := call (rpc "blob.Submit" (JArr [JArr [blob]; JObj []])) in
      if is_null response then throw "TypeError"
      else if truthy_json (field "error" response) then
        throw ("API Error: " +:+
               JS_String_opt (field "error" response ≫= field "message"))
      else
        ret {| result_height := field "result" response;
               result_namespaceHex := base64ToHex namespace;
               result_namespaceBase64 := namespace |}.

(** The blobs found in a result, whatever its shape. *)
Definition blobs_of (result : JSON) : list JSON :=
  match result with
  | JArr blobs => blobs
  | JObj fields =>
      match field "blobs" result with
      | Some (JArr blobs) => blobs
      | _ =>
          default [] (head (omap (λ kv, match kv.2 with
                                        | JArr blobs => Some blobs
                                        | _ => None
                                        end) fields))
      end
  | _ => []
  end.

(** The namespace retrieveBlob rebuilds from the hex text it is given:
    version 0, 18 zero bytes, then the bytes of the text; [None] is the
    RangeError of [set] when they do not fit. *)
Definition namespace_of_hex (namespaceHex : string) : option string :=
  let version := chr 0 in
  let namespaceArray := <[0%nat := version]> (Uint8Array_new 29) in
  let hexBytes := Buffer_from_hex namespaceHex in
  namespaceArray ← Uint8Array_set namespaceArray hexBytes 19;
  Some (Buffer_toString_base64 namespaceArray).

(** retrieveBlob: every error is caught and gives null ([None]). *)
Definition retrieveBlob (height : option JSON) (namespaceHex : string) : M (option JSON) :=
  try_catch
    (let* isConnected := ask (λ w, (connected w, w)) in
     if negb isConnected then throw "Connection timeout" else
     match parseInt 10 (list_ascii_of_string (JS_String_opt height)) with
     | None => throw "Invalid height. Must be a positive integer."
     | Some heightValue =>
         if (heightValue <=? 0)%Z then throw "Invalid height. Must be a positive integer."
         else
           let* namespaceBase64 := or_throw "RangeError" (namespace_of_hex namespaceHex) in
           let* response :=
             call (rpc "blob.GetAll" (JArr [JNum heightValue; JArr [JStr namespaceBase64]])) in
           if truthy_json (field "error" response) then ret None
           else
             match field "result" response with
             | Some result =>
                 if negb (truthy_json (Some result)) then ret None
                 else ret (head (blobs_of result))
             | None => ret None
             end
     end)
    (λ _, ret None).

Definition initializeDatabase (namespace schema : string) : M (string * option JSON) :=
  if String.eqb namespace "" then throw "Database namespace is required"
  else if String.eqb schema "" then throw "Database schema is required"
  else
    let* schemaObj :=
      or_throw "Invalid schema format. Please provide valid JSON." (JSON_parse schema) in
    let* createdAt := ask now_iso in
    let dbSchema := JObj [("schema", schemaObj); ("createdAt", JStr createdAt);
                          ("version", JStr "1.0")] in
    let* token := getOrCreateAuthToken in
    let schemaJson := JSON_stringify dbSchema in
    let* encryptedSchema := encryptData schemaJson token in
    let schemaBase64 := encodeToBase64 encryptedSchema in
    let* result := submitBlob namespace schemaBase64 in
    localStorage_setItem DB_NAMESPACE_KEY namespace ;;
    localStorage_setItem DB_SCHEMA_HEIGHT_KEY (JS_String_opt (result_height result)) ;;
    localStorage_setItem DB_RECORDS_KEY (JSON_stringify (JArr [])) ;;
    ret (namespace, result_height result).

(** localStorage.getItem(DB_RECORDS_KEY) || '[]' *)
Definition records_text (stored : option string) : string :=
  if truthy stored then default "" stored else "[]".

(** The object literal { height, timestamp }; a property whose value is
    undefined is left out, as JSON.stringify does. *)
Definition record_info (height : option JSON) (timestamp : string) : JSON :=
  JObj (from_option (λ h, [("height", h)]) [] height ++ [("timestamp", JStr timestamp)])%list.

Definition addDatabaseRecord (data : string) : M (option JSON * string) :=
  let* namespace := localStorage_getItem DB_NAMESPACE_KEY in
  let* schemaHeight := localStorage_getItem DB_SCHEMA_HEIGHT_KEY in
  if negb (truthy namespace) || negb (truthy schemaHeight) then
    throw "Database not initialized. Please initialize the database first."
  else
    let* dataObj :=
      or_throw "Invalid data format. Please provide valid JSON." (JSON_parse data) in
    let* createdAt := ask now_iso in
    let record := JObj [("data", dataObj); ("createdAt", JStr createdAt)] in
    let* token := getOrCreateAuthToken in
    let recordJson := JSON_stringify record in
    let* encryptedRecord := encryptData recordJson token in
    let recordBase64 := encodeToBase64 encryptedRecord in
    let* result := submitBlob (default "" namespace) recordBase64 in
    let* stored := localStorage_getItem DB_RECORDS_KEY in
    let* recordsList :=
      or_throw "SyntaxError" (JSON_parse (records_text stored)) in
    match recordsList with
    | JArr recordsList =>
        let* timestamp := ask now_iso in
        let recordsList := (recordsList ++ [record_info (result_height result) timestamp])%list in
        localStorage_setItem DB_RECORDS_KEY (JSON_stringify (JArr recordsList)) ;;
        let* timestamp := ask now_iso in
        ret (result_height result, timestamp)
    | _ => throw "TypeError"
    end.

Definition retrieveDatabaseSchema : M JSON :=
  let* namespace := localStorage_getItem DB_NAMESPACE_KEY in
  let* schemaHeight := localStorage_getItem DB_SCHEMA_HEIGHT_KEY in
  if negb (truthy namespace) || negb (truthy schemaHeight) then
    throw "Database not initialized"
  else
    let* token := getOrCreateAuthToken in
    let namespaceHex := base64ToHex (default "" namespace) in
    let* schemaBlob := retrieveBlob (JStr <$> schemaHeight) namespaceHex in
    if negb (truthy_json schemaBlob) || negb (truthy_json (schemaBlob ≫= field "data")) then
      throw "Failed to retrieve database schema"
    else
      let encryptedSchemaBase64 :=
        decodeFromBase64 (JS_String_opt (schemaBlob ≫= field "data")) in
      try_catch
        (let* schemaJson := decryptData encryptedSchemaBase64 token in
         or_throw "SyntaxError" (JSON_parse schemaJson))
        (λ _, throw "Failed to decrypt schema. The authentication token may have changed.").

(** A listed record: the object { ...record, height: recordInfo.height }. *)
Record ListedRecord := { record : JSON; height : option JSON }.

(** One turn of the loop of retrieveDatabaseRecords: [Some] is the record
    pushed, [None] an entry that is skipped.  (An entry that is null makes
    recordInfo.height raise; the inner catch skips it as well.) *)
Definition retrieveRecord (namespaceHex token : string) (recordInfo : JSON)
  : M (option ListedRecord) :=
  try_catch
    (match recordInfo with
     | JNull => throw "TypeError"
     | _ =>
         let* recordBlob := retrieveBlob (field "height" recordInfo) namespaceHex in
         if negb (truthy_json recordBlob) || negb (truthy_json (recordBlob ≫= field "data"))
         then ret None
         else
           let encryptedRecordBase64 :=
             decodeFromBase64 (JS_String_opt (recordBlob ≫= field "data")) in
           try_catch
             (let* recordJson := decryptData encryptedRecordBase64 token in
              let* record := or_throw "SyntaxError" (JSON_parse recordJson) in
              ret (Some {| record := record; height := field "height" recordInfo |}))
             (λ _, ret None)
     end)
    (λ _, ret None).

(** for (const recordInfo of recordsList) { ... records.push(...) ... } *)
Fixpoint retrieveRecords (namespaceHex token : string) (recordsList : list JSON)
  : M (list ListedRecord) :=
  match recordsList with
  | [] => ret []
  | recordInfo :: rest =>
      let* r := retrieveRecord namespaceHex token recordInfo in
      let* records := retrieveRecords namespaceHex token rest in
      ret (from_option (λ x, [x]) [] r ++ records)%list
  end.


(** The stored index as the function sees it. *)
Inductive IndexShape :=
  | Entries (l : list JSON)     (* an array, or a string read character by character *)
  | NoLength                    (* null: reading .length raises *)
  | NotIterable.                (* for...of raises *)

Definition index_shape (recordsList : JSON) : IndexShape :=
  match recordsList with
  | JNull => NoLength
  | JObj _ =>
      match field "length" recordsList with
      | Some (JNum 0) => Entries []
      | _ => NotIterable
      end
  | _ => from_option Entries NotIterable (iterate recordsList)
  end.

Definition retrieveDatabaseRecords : M (list ListedRecord) :=
  let* namespace := localStorage_getItem DB_NAMESPACE_KEY in
  let* stored := localStorage_getItem DB_RECORDS_KEY in
  let* recordsList :=
    or_throw "SyntaxError" (JSON_parse (records_text stored)) in
  if negb (truthy namespace) then throw "Database not initialized"
  else
    match index_shape recordsList with
    | NoLength => throw "TypeError"
    | Entries [] => ret []
    | Entries entries =>
        let* token := getOrCreateAuthToken in
        let namespaceHex := base64ToHex (default "" namespace) in
        retrieveRecords namespaceHex token entries
    | NotIterable =>
        let* token := getOrCreateAuthToken in
        throw "TypeError"
    end.

End store.

End Index.

(** ** What the record store expects of AES-GCM

    The contract of authenticated encryption, as the specification relies
    on it: decryption under the key of the same token gives the data back,
    and the tag does not verify under the key derived from another token. *)
Module Aead.
Section laws.
Context `{Platform}.

Definition correct : Prop :=
  ∀ key iv data, aes_gcm_decrypt key iv (aes_gcm_encrypt key iv data) = Some data.


End laws.
End Aead.

(** ** A small closed environment

    An environment in which everything can be computed: the node is never
    reachable, the random source counts, the cipher prefixes the message
    with a self-delimiting copy of the key, and JSON text is read for the
    three texts the examples store. *)
Module Offline.
Local Open Scope string_scope.

Definition seal (key : bytes) : bytes :=
  (concat (map (λ b, [chr 1; b]) key) ++ [chr 0])%list.

Fixpoint unseal (key sealed : bytes) : option bytes :=
  match key, sealed with
  | [], z :: rest => if Ascii.eqb z (chr 0) then Some rest else None
  | b :: key, o :: b' :: rest =>
      if Ascii.eqb o (chr 1) && Ascii.eqb b b' then unseal key rest else None
  | _, _ => None
  end.

Definition parse (text : string) : option JSON :=
  if String.eqb text "[]" then Some (JArr [])
  else if String.eqb text "{}" then Some (JObj [])
  else if String.eqb text "[1]" then Some (JArr [JObj [("height", JNum 1)]])
  else None.

Definition stringify (v : JSON) : string :=
  match v with
  | JArr [] => "[]"
  | JArr _ => "[1]"
  | _ => "{}"
  end.

Definition platform : Platform := {|
  World := nat;
  Key := bytes;
  random_byte w := (chr (N.of_nat w mod 256), S w);
  now_iso w := ("2025-01-01T00:00:00.000Z", w);
  pbkdf2_key password salt iterations := password;
  sha256_key data := data;
  aes_gcm_encrypt key iv data := (seal key ++ data)%list;
  aes_gcm_decrypt key iv data := unseal key data;
  JSON_stringify := stringify;
  JSON_parse := parse;
  connected w := false;
  rpc method params w := (Throw "Not connected to Celestia node", w);
  sort_newest_first records := records;
|}.

(** A namespace as createValidNamespace("ab") of index.js makes it. *)
Definition a_namespace : string := "AAAAAAAAAAAAAAAAAAAAAAAAAAAAAAAAAAAAYWI=".

Definition session (st : Storage) : @Store.Session platform :=
  @Store.Build_Session platform st 0%nat.

End Offline.

(** ** Readable random namespaces (utils/common.js and index.js)

    Both files hold the same two word lists.  The draws of Math.random
    are arguments: [i], [j] and [n] stand for the values of
    Math.floor(Math.random() * adjectives.length),
    Math.floor(Math.random() * nouns.length) and
    Math.floor(Math.random() * 1000). *)
Module Words.
Local Open Scope string_scope.

Definition adjectives : list string :=
  [ "red"; "blue"; "green"; "yellow"; "purple"; "orange"; "pink"; "black"; "white"; "gray";
    "tiny"; "small"; "big"; "huge"; "giant"; "fast"; "slow"; "bright"; "dark"; "shiny";
    "happy"; "sad"; "angry"; "calm"; "quiet"; "loud"; "brave"; "shy"; "clever"; "silly" ].

Definition nouns : list string :=
  [ "cat"; "dog"; "bird"; "fish"; "tiger"; "lion"; "bear"; "wolf"; "fox"; "rabbit";
    "tree"; "flower"; "river"; "mountain"; "ocean"; "desert"; "forest"; "cloud"; "star"; "moon";
    "book"; "pen"; "phone"; "computer"; "house"; "car"; "bike"; "boat"; "plane"; "rocket" ].

(** list[i]; an index past the end gives undefined, which a template
    literal prints as such. *)
Definition word (list : list string) (i : nat) : string := nth i list "undefined".

(** generateRandomNamespace of utils/common.js *)
Definition Common_generateRandomNamespace (i j : nat) : Common.NamespaceInfo :=
  let adjective := word adjectives i in
  let noun := word nouns j in
  let plaintext := adjective +:+ "-" +:+ noun in
  Common.createValidNamespace plaintext.

Record Generated := { plaintext : string; base64 : string; hex : string }.

(** generateRandomNamespace of index.js; [None] when createValidNamespace
    raises. *)
Definition Index_generateRandomNamespace `{Platform} (i j n : nat) (w : World)
  : option Generated :=
  let adjective := word adjectives i in
  let noun := word nouns j in
  let randomNum := n in
  let plaintext := adjective +:+ "-" +:+ noun +:+ "-" +:+ pretty randomNum in
  base64 ← (Index.createValidNamespace (Some plaintext) w).1;
  let hex := Index.base64ToHex base64 in
  Some {| plaintext := plaintext; base64 := base64; hex := hex |}.

End Words.

(** ** A closed environment with a node

    A second environment in which everything can be computed, this one
    with a node that is always reachable: it keeps the blobs it is sent,
    one per height, and hands them back.  JSON text is written and read
    for values without escapes, fractions or white space.  [modular]
    selects the answers database.js reads (a result object with height
    and txhash, all the blobs of the namespace at once); otherwise the
    answers are those index.js reads (the height itself, the blobs of one
    height). *)
Module Testnet.
Local Open Scope string_scope.

Definition quote : ascii := chr 34.

Fixpoint stringify (v : JSON) : string :=
  match v with
  | JNull => "null"
  | JBool true => "true"
  | JBool false => "false"
  | JNum n => pretty n
  | JStr s => String quote (s +:+ String quote "")
  | JArr l => "[" +:+ join "," (map stringify l) +:+ "]"
  | JObj fields =>
      "{" +:+ join "," (map (λ kv, String quote (kv.1 +:+ String quote (":" +:+ stringify kv.2)))
                           fields) +:+ "}"
  end.

Fixpoint span_text (l : list ascii) : list ascii * list ascii :=
  match l with
  | c :: r => if Ascii.eqb c quote then ([], l)
              else let '(a, b) := span_text r in (c :: a, b)
  | [] => ([], [])
  end.

Fixpoint span_digits (l : list ascii) : list ascii * list ascii :=
  match l with
  | c :: r => if (48 <=? code c)%N && (code c <=? 57)%N
              then let '(a, b) := span_digits r in (c :: a, b)
              else ([], l)
  | [] => ([], [])
  end.

Definition number (digits : list ascii) : Z :=
  foldl (λ n c, n * 10 + Z.of_N (code c - 48))%Z 0%Z digits.

(** A quoted text at the head of [l]. *)
Definition text (l : list ascii) : option (string * list ascii) :=
  match l with
  | c :: r =>
      if Ascii.eqb c quote then
        match span_text r with
        | (s, _ :: r) => Some (string_of_list_ascii s, r)
        | _ => None
        end
      else None
  | [] => None
  end.

Fixpoint value (fuel : nat) (l : list ascii) : option (JSON * list ascii) :=
  match fuel with
  | O => None
  | S fuel =>
      match l with
      | "n" :: "u" :: "l" :: "l" :: r => Some (JNull, r)
      | "t" :: "r" :: "u" :: "e" :: r => Some (JBool true, r)
      | "f" :: "a" :: "l" :: "s" :: "e" :: r => Some (JBool false, r)
      | "[" :: "]" :: r => Some (JArr [], r)
      | "[" :: r =>
          (fix elements (n : nat) (acc : list JSON) (l : list ascii) :=
             match n with
             | O => None
             | S n =>
                 match value fuel l with
                 | Some (v, "," :: r) => elements n (v :: acc) r
                 | Some (v, "]" :: r) => Some (JArr (rev (v :: acc)), r)
                 | _ => None
                 end
             end) fuel [] r
      | "{" :: "}" :: r => Some (JObj [], r)
      | "{" :: r =>
          (fix members (n : nat) (acc : list (string * JSON)) (l : list ascii) :=
             match n with
             | O => None
             | S n =>
                 match text l with
                 | Some (k, ":" :: r) =>
                     match value fuel r with
                     | Some (v, "," :: r) => members n ((k, v) :: acc) r
                     | Some (v, "}" :: r) => Some (JObj (rev ((k, v) :: acc)), r)
                     | _ => None
                     end
                 | _ => None
                 end
             end) fuel [] r
      | "-" :: r =>
          match span_digits r with
          | ([], _) => None
          | (digits, r) => Some (JNum (- number digits), r)
          end
      | _ =>
          match text l with
          | Some (s, r) => Some (JStr s, r)
          | None =>
              match span_digits l with
              | ([], _) => None
              | (digits, r) => Some (JNum (number digits), r)
              end
          end
      end%char
  end.

Definition parse (text : string) : option JSON :=
  match value (S (String.length text)) (list_ascii_of_string text) with
  | Some (v, []) => Some v
  | _ => None
  end.

Record Node := { counter : nat; chain : list JSON }.

Definition submit (modular : bool) (params : JSON) (w : Node) : result JSON * Node :=
  match params with
  | JArr (JArr (blob :: _) :: _) =>
      let chain := (chain w ++ [blob])%list in
      let height := JNum (Z.of_nat (length chain)) in
      (Ok (JObj [("result",
                  if modular then JObj [("height", height); ("txhash", JStr "TX")]
                  else height)]),
       {| counter := counter w; chain := chain |})
  | _ => (Throw "invalid params", w)
  end.

Definition getAll (modular : bool) (params : JSON) (w : Node) : result JSON * Node :=
  if modular then (Ok (JObj [("result", JObj [("blobs", JArr (chain w))])]), w)
  else
    match params with
    | JArr (JNum height :: _) =>
        (Ok (JObj [("result",
                    JArr (from_option (λ b, [b]) [] (chain w !! Nat.pred (Z.to_nat height))))]), w)
    | _ => (Throw "invalid params", w)
    end.

Definition platform (modular : bool) : Platform := {|
  World := Node;
  Key := bytes;
  random_byte w := (chr (N.of_nat (counter w) mod 256),
                    {| counter := S (counter w); chain := chain w |});
  now_iso w := ("2025-01-01T00:00:00.000Z", w);
  pbkdf2_key password salt iterations := password;
  sha256_key data := data;
  aes_gcm_encrypt key iv data := (Offline.seal key ++ data)%list;
  aes_gcm_decrypt key iv data := Offline.unseal key data;
  JSON_stringify := stringify;
  JSON_parse := parse;
  connected w := true;
  rpc method params w :=
    if String.eqb method "blob.Submit" then submit modular params w
    else if String.eqb method "blob.GetAll" then getAll modular params w
    else (Throw "method not found", w);
  sort_newest_first records := records;
|}.

Definition session (modular : bool) (st : Storage) : @Store.Session (platform modular) :=
  @Store.Build_Session (platform modular) st {| counter := 0; chain := [] |}.

End Testnet.

(** ** The forms of the Database tab (components/database/database.js)

    What the submit handlers and the display functions do to the record
    store.  The DOM is written, never read back, except for the presence
    of the elements a function returns early without; the text of a form
    field is an argument.  The page is assumed to hold the elements a
    handler dereferences without a test.  A display function that is
    called without await runs to its end where it is called. *)
Module Forms.
Section store.
Context `{Platform}.
Import Store.
Local Open Scope store_scope.
Local Open Scope string_scope.

(** The elements whose absence makes a display function return at once. *)
Record Dom := { has_recordsTable : bool; has_schemaContainer : bool }.



(** displayDatabaseSchema and displayDatabaseRecords: every error is
    caught and shown. *)
Definition displayDatabaseSchema (dom : Dom) : M unit :=
  if negb (has_schemaContainer dom) then ret ()
  else try_catch (Database.retrieveDatabaseSchema ;; ret ()) (λ _, ret ()).

Definition displayDatabaseRecords (dom : Dom) : M unit :=
  if negb (has_recordsTable dom) then ret ()
  else
    try_catch
      (let* namespace := localStorage_getItem Database.DB_NAMESPACE_KEY in
       if negb (truthy namespace) then throw "Database not initialized"
       else
         Database.retrieveDatabaseSchema ;;
         Database.retrieveDatabaseRecords ;;
         ret ())
      (λ _, ret ()).

Definition updateDatabaseInfoPanel (dom : Dom) : M unit :=
  let* namespace := localStorage_getItem Database.DB_NAMESPACE_KEY in
  if truthy namespace then displayDatabaseSchema dom ;; displayDatabaseRecords dom
  else ret ().

(** How a submit ends: the toast it shows. *)
Inductive InitOutcome :=
  | InvalidJSONSchema                              (* 'Invalid JSON schema' *)
  | InvalidNamespace (e : option Common.NamespaceError)   (* 'Invalid namespace: ...' *)
  | InitializationError (message : string)         (* 'Error: ' + error.message *)
  | Initialized.                                   (* 'Database initialized successfully' *)


(** The submit handler of initDbForm; [namespace] is the trimmed text of
    the namespace field. *)
Definition initDbForm_onsubmit (dom : Dom) (namespace schemaText : string) : M InitOutcome :=
  match JSON_parse schemaText with
  | None => ret InvalidJSONSchema
  | Some schema =>
      let validation := Common.validateNamespace namespace in
      if negb (Common.isValid validation) then ret (InvalidNamespace (Common.error validation))
      else
        try_catch
          (Database.initializeDatabase namespace schema ;;
           updateDatabaseInfoPanel dom ;;
           displayDatabaseSchema dom ;;
           ret Initialized)
          (λ message, ret (InitializationError message))
  end.


End store.
End Forms.

(** ** Observations on a trace of the transport *)
Module Trace.
Import Websocket.
Local Open Scope nat_scope.

(** The ids of the requests written to the socket, in order. *)
Definition sends (effects : list Effect) : list nat :=
  omap (λ e, match e with Send id _ => Some id | _ => None end) effects.

(** How many times the promise of request [p] is resolved or rejected. *)
Definition is_settle_of (p : nat) (e : Effect) : bool :=
  match e with Settle q _ => q =? p | _ => false end.

Definition settled (p : nat) (effects : list Effect) : nat :=
  length (List.filter (is_settle_of p) effects).

(** How many sockets are constructed. *)
Definition is_socket (e : Effect) : bool :=
  match e with NewWebSocket => true | _ => false end.

Definition sockets (effects : list Effect) : nat := length (List.filter is_socket effects).

(** 1 when no socket is held. *)
Definition free (s : State) : nat := match ws s with Some _ => 0 | None => 1 end.

(** Neither a request nor a settlement. *)
Definition is_quiet (e : Effect) : bool :=
  match e with Send _ _ | Settle _ _ => false | _ => true end.

(** Every pending request is registered under an id that was already
    taken, with the callbacks of its own promise. *)
Definition ids_taken (s : State) : Prop :=
  ∀ id cb, pendingRequests s !! id = Some cb → promise cb = id ∧ id < requestId s.

End Trace.

(** ** Two small databases on the test node

    A one-field schema and a record for it, stored through index.js and
    through database.js from an empty local storage. *)
Module Example.
Import Store.
Local Open Scope string_scope.

Definition a_schema : JSON :=
  JObj [("fields", JObj [("name", JObj [("type", JStr "string"); ("required", JBool true)])])].

Definition a_record : JSON := JObj [("name", JStr "x")].


(** index.js: the namespace of [Offline.a_namespace]. *)
Definition index_initialized : @Session (Testnet.platform false) :=
  (@Index.initializeDatabase (Testnet.platform false) Offline.a_namespace
     (Testnet.stringify a_schema) (Testnet.session false ∅)).2.

Definition index_added : @Session (Testnet.platform false) :=
  (@Index.addDatabaseRecord (Testnet.platform false) (Testnet.stringify a_record)
     index_initialized).2.

(** database.js: the namespace createValidNamespace of common.js makes
    of the text ab. *)
Definition database_namespace : string := Common.base64 (Common.createValidNamespace "ab").

Definition database_initialized : @Session (Testnet.platform true) :=
  (@Database.initializeDatabase (Testnet.platform true) database_namespace a_schema
     (Testnet.session true ∅)).2.

Definition database_added : @Session (Testnet.platform true) :=
  (@Database.addDatabaseRecord (Testnet.platform true) a_record database_initialized).2.

(** The time of the test node, the tokens the two stores mint from its
    random source, and the nonce of the second encryption. *)
Definition a_timestamp : string := "2025-01-01T00:00:00.000Z".

Definition index_token : string := "AAECAwQFBgcICQoLDA0ODxAREhMUFRYXGBkaGxwdHh8=".

Definition database_token : string :=
  "000102030405060708090a0b0c0d0e0f101112131415161718191a1b1c1d1e1f".

Definition second_iv : bytes := map (λ i, chr (N.of_nat i)) (seq 44 12).

(** The blob at height 2 of each chain. *)
Definition index_record_blob : JSON :=
  default JNull (Testnet.chain (world index_added) !! 1%nat).

Definition database_record_blob : JSON :=
  default JNull (Testnet.chain (world database_added) !! 1%nat).


End Example.

(** ** utils/theme.js

    The page as the theme functions see it: the data-theme attribute of
    the root element, localStorage, the display of the two icons and
    whether the Bootstrap controls carry the dark style (class and
    colours are set and removed together). *)
Module Theme.
Local Open Scope string_scope.

Record Dom := { has_icons : bool; has_themeToggle : bool }.

Record Page := {
  data_theme : option string;
  storage : Storage;
  lightIcon_display : string;
  darkIcon_display : string;
  dark_controls : bool }.

(** getPreferredTheme(); [prefers_dark] is what the media query
    (prefers-color-scheme: dark) matches. *)
Definition getPreferredTheme (prefers_dark : bool) (p : Page) : string :=
  let savedTheme := getItem (storage p) "theme" in
  if truthy savedTheme then default "" savedTheme
  else if prefers_dark then "dark" else "light".

Definition updateBootstrapForDarkMode (isDark : bool) (p : Page) : Page :=
  {| data_theme := data_theme p; storage := storage p;
     lightIcon_display := lightIcon_display p; darkIcon_display := darkIcon_display p;
     dark_controls := isDark |}.

Definition applyTheme (dom : Dom) (theme : string) (p : Page) : Page :=
  let p := {| data_theme := Some theme; storage := setItem (storage p) "theme" theme;
              lightIcon_display := lightIcon_display p;
              darkIcon_display := darkIcon_display p;
              dark_controls := dark_controls p |} in
  let p :=
    if has_icons dom then
      {| data_theme := data_theme p; storage := storage p;
         lightIcon_display := if String.eqb theme "light" then "none" else "inline-block";
         darkIcon_display := if String.eqb theme "dark" then "none" else "inline-block";
         dark_controls := dark_controls p |}
    else p in
  updateBootstrapForDarkMode (String.eqb theme "dark") p.

(** The part of initTheme that runs at once. *)
Definition initTheme (dom : Dom) (prefers_dark : bool) (p : Page) : Page :=
  applyTheme dom (getPreferredTheme prefers_dark p) p.

(** The listeners initTheme installs. *)
Inductive Event :=
  | Click                              (* click on themeToggle *)
  | Mutation (attributeName : string)  (* a record delivered to the observer *)
  | OsChange (matches : bool).         (* change of prefers-color-scheme *)

Definition is_theme (name : string) (v : option string) : bool :=
  match v with Some s => String.eqb s name | None => false end.

Definition step (dom : Dom) (ev : Event) (p : Page) : Page :=
  match ev with
  | Click =>
      if has_themeToggle dom then
        let currentTheme := data_theme p in
        let newTheme := if is_theme "light" currentTheme then "dark" else "light" in
        applyTheme dom newTheme p
      else p
  | Mutation attributeName =>
      if String.eqb attributeName "data-theme"
      then updateBootstrapForDarkMode (is_theme "dark" (data_theme p)) p
      else p
  | OsChange matches =>
      if negb (truthy (getItem (storage p) "theme"))
      then applyTheme dom (if matches then "dark" else "light") p
      else p
  end.

Definition run (dom : Dom) (evs : list Event) (p : Page) : Page :=
  foldl (λ p ev, step dom ev p) p evs.

Definition is_os_change (ev : Event) : bool :=
  match ev with OsChange _ => true | _ => false end.

Definition is_click (ev : Event) : bool :=
  match ev with Click => true | _ => false end.

(** The theme is set, stored under the same name, and the controls are
    styled for it. *)
Definition themed (p : Page) : Prop :=
  ∃ theme, theme ≠ ""
    ∧ data_theme p = Some theme
    ∧ getItem (storage p) "theme" = Some theme
    ∧ dark_controls p = String.eqb theme "dark".

End Theme.

(** ** Tables the statements range over *)
Module Tables.

(** The 256 code units. *)
Definition all_ascii : list ascii := map ascii_of_nat (seq 0 256).

(** One of the characters [0-9A-Fa-f]. *)
Definition is_hex_digit (c : ascii) : bool :=
  bool_decide (is_Some (digits_prefix 16 None [c])).

(** The identifiers of the reserved namespaces that isReservedNamespace of
    index.js can recognise: those of the entries written with digits
    only. *)
Definition matched_ids : list bytes :=
  [ replicate 9 zero ++ [chr 1]; replicate 9 zero ++ [chr 2]; replicate 9 zero ++ [chr 4] ]%N.

End Tables.

(** * Properties *)

(** ** Sanity checks of the platform model *)
Example common_create : Common.base64 (Common.createValidNamespace "ab") = "AGFiAAAAAAAAAAAAAAAAAAAAAAAAAAAAAAAAAAA="%string.
Proof. reflexivity. Qed.
Example common_validate : Common.validateNamespace "AGFiAAAAAAAAAAAAAAAAAAAAAAAAAAAAAAAAAAA=" = Common.Build_Validation true None.
Proof. vm_compute. reflexivity. Qed.
Example common_rt : Common.hexToBase64 (Common.base64ToHex "AGFiAAAAAAAAAAAAAAAAAAAAAAAAAAAAAAAAAAA=") = "AGFiAAAAAAAAAAAAAAAAAAAAAAAAAAAAAAAAAAA="%string.
Proof. vm_compute. reflexivity. Qed.
Example common_res : Common.validateNamespace "AAAAAAAAAAAAAAAAAAAAAAAAAAAAAAAAAAAAAP8=" = Common.Build_Validation false (Some Common.ReservedNamespace).
Proof. vm_compute. reflexivity. Qed.
Example idx_b64 : Index.Buffer_from_base64 "TW Fu=zz" = list_ascii_of_string "Man".
Proof. reflexivity. Qed.
Example idx_hex : Index.Buffer_from_hex "00fFzz12" = [chr 0; chr 255].
Proof. reflexivity. Qed.
Example idx_val : Index.validateNamespace "AAAAAAAAAAAAAAAAAAAAAAAAAAAAAAAAAAAAAP8=" = Index.Build_Validation true None.
Proof. vm_compute. reflexivity. Qed.
Example idx_val2 : Index.validateNamespace "AAAAAAAAAAAAAAAAAAAAAAAAAAAAAAAAAAAAAAE=" = Index.Build_Validation false (Some Index.ReservedNamespace).
Proof. vm_compute. reflexivity. Qed.
Example idx_rt : Index.hexToBase64 (Index.base64ToHex "AAAAAAAAAAAAAAAAAAAAAAAAAGFiY2RlZmdoaWo=") = "YWJjZGVmZ2hpag=="%string.
Proof. vm_compute. reflexivity. Qed.

(** ** Bytes, base64 and hexadecimal *)
Module Codec.

Ltac Zify.zify_post_hook ::= Z.to_euclidean_division_equations.

Lemma code_lt (c : ascii) : code c < 256.
Proof. apply N_ascii_bounded. Qed.

Lemma chr_code (c : ascii) : chr (code c) = c.
Proof. apply ascii_N_embedding. Qed.

Lemma code_chr (n : N) : n < 256 → code (chr n) = n.
Proof. apply N_ascii_embedding. Qed.

Lemma list_ind3 {A} (P : list A → Prop) :
  P [] → (∀ a, P [a]) → (∀ a b, P [a; b]) →
  (∀ a b c r, P r → P (a :: b :: c :: r)) → ∀ l, P l.
Proof.
  intros H0 H1 H2 H3.
  fix IH 1. intros [|a [|b [|c r]]]; [exact H0 | apply H1 | apply H2 | apply H3, IH].
Qed.

Lemma list_ind2 {A} (P : list A → Prop) :
  P [] → (∀ a, P [a]) → (∀ a b r, P r → P (a :: b :: r)) → ∀ l, P l.
Proof.
  intros H0 H1 H2.
  fix IH 1. intros [|a [|b r]]; [exact H0 | apply H1 | apply H2, IH].
Qed.

(** *** Six-bit groups *)

Lemma sextets_lt (l : bytes) : Forall (λ n, n < 64) (sextets l).
Proof.
  induction l as [|a|a b|a b c r IH] using list_ind3; simpl.
  - constructor.
  - pose proof (code_lt a). repeat constructor; lia.
  - pose proof (code_lt a). pose proof (code_lt b). repeat constructor; lia.
  - pose proof (code_lt a). pose proof (code_lt b). pose proof (code_lt c).
    repeat (constructor; [lia|]). exact IH.
Qed.

Lemma chr_eq (n : N) (c : ascii) : n = code c → chr n = c.
Proof. intros ->. apply chr_code. Qed.

Lemma unsextets_sextets (l : bytes) : unsextets (sextets l) = l.
Proof.
  induction l as [|a|a b|a b c r IH] using list_ind3; simpl.
  - done.
  - pose proof (code_lt a). f_equal. apply chr_eq. lia.
  - pose proof (code_lt a). pose proof (code_lt b).
    f_equal; [|f_equal]; apply chr_eq; lia.
  - pose proof (code_lt a). pose proof (code_lt b). pose proof (code_lt c).
    rewrite IH. f_equal; [|f_equal; [|f_equal]]; apply chr_eq; lia.
Qed.

(** *** The alphabet *)

Lemma forall_lt64 (P : N → bool) :
  forallb P (map N.of_nat (seq 0 64)) = true → ∀ n, n < 64 → P n = true.
Proof.
  intros H n Hn. rewrite forallb_forall in H. apply H.
  apply in_map_iff. exists (N.to_nat n). split; [lia|]. apply in_seq. lia.
Qed.

Lemma char_sextet_sextet_char (n : N) : n < 64 → char_sextet (sextet_char n) = Some n.
Proof.
  intros Hn.
  pose proof (forall_lt64 (λ n, bool_decide (char_sextet (sextet_char n) = Some n))) as H.
  specialize (H ltac:(vm_compute; reflexivity) n Hn).
  by apply bool_decide_eq_true_1 in H.
Qed.

Lemma sextet_char_plain (n : N) :
  n < 64 →
  is_ascii_whitespace (sextet_char n) = false ∧ Ascii.eqb (sextet_char n) pad_char = false.
Proof.
  intros Hn.
  pose proof (forall_lt64
    (λ n, negb (is_ascii_whitespace (sextet_char n)) && negb (Ascii.eqb (sextet_char n) pad_char))) as H.
  specialize (H ltac:(vm_compute; reflexivity) n Hn). simpl in H.
  apply andb_true_iff in H as [H1 H2].
  by rewrite negb_true_iff in H1, H2.
Qed.

Lemma mapM_char_sextet (sx : list N) :
  Forall (λ n, n < 64) sx → mapM char_sextet (map sextet_char sx) = Some sx.
Proof.
  induction 1 as [|n sx Hn _ IH]; [done|].
  simpl. rewrite char_sextet_sextet_char by done. simpl. by rewrite IH.
Qed.

Lemma b64chars_plain (l : bytes) :
  Forall (λ c, is_ascii_whitespace c = false ∧ Ascii.eqb c pad_char = false) (b64chars l).
Proof.
  unfold b64chars. apply Forall_map.
  eapply Forall_impl; [apply sextets_lt|]. intros n Hn. by apply sextet_char_plain.
Qed.

Lemma filter_all {A} (p : A → bool) (l : list A) :
  Forall (λ x, p x = true) l → List.filter p l = l.
Proof. induction 1 as [|x l Hx _ IH]; simpl; [done|]. by rewrite Hx, IH. Qed.

Lemma filter_none {A} (p : A → bool) (l : list A) :
  Forall (λ x, p x = false) l → List.filter p l = [].
Proof. induction 1 as [|x l Hx _ IH]; simpl; [done|]. by rewrite Hx. Qed.

Lemma length_sextets (l : bytes) :
  length (sextets l) =
  (4 * (length l / 3) + length l mod 3 + (if (length l mod 3 =? 0)%nat then 0 else 1))%nat.
Proof.
  induction l as [|a|a b|a b c r IH] using list_ind3; [done..|].
  cbn [sextets length]. rewrite IH.
  replace (S (S (S (length r)))) with (length r + 1 * 3)%nat by lia.
  rewrite Nat.div_add, Nat.Div0.mod_add by lia. lia.
Qed.

Lemma length_padding (n : nat) :
  length (padding n) = ((3 - n mod 3) mod 3)%nat.
Proof.
  unfold padding. pose proof (Nat.mod_upper_bound n 3 ltac:(lia)).
  destruct (n mod 3)%nat as [|[|[|?]]]; simpl; lia.
Qed.

Lemma strip_padding_plain (l : list ascii) :
  Forall (λ c, Ascii.eqb c pad_char = false) l → strip_padding l = l.
Proof.
  intros H. unfold strip_padding.
  destruct (rev l) as [|p [|q r]] eqn:E; [done| |].
  - assert (l = [p]) as -> by (by rewrite <- (rev_involutive l), E).
    by rewrite (Forall_inv H).
  - assert (l = rev r ++ [q; p]) as ->.
    { rewrite <- (rev_involutive l), E. simpl. by rewrite <- app_assoc. }
    apply Forall_app in H as [_ H]. apply Forall_inv_tail, Forall_inv in H.
    by rewrite H.
Qed.

Lemma strip_padding_one (l : list ascii) :
  l ≠ [] → Forall (λ c, Ascii.eqb c pad_char = false) l →
  strip_padding (l ++ [pad_char]) = l.
Proof.
  intros Hne H. unfold strip_padding. rewrite rev_app_distr.
  change (rev [pad_char]) with [pad_char]. cbn [app].
  destruct (rev l) as [|q r] eqn:E.
  { destruct l; [done|]. simpl in E. by destruct (rev l). }
  assert (In q l) as Hq by (apply in_rev; rewrite E; by left).
  rewrite List.Forall_forall in H. rewrite Ascii.eqb_refl, (H _ Hq).
  rewrite <- E. apply rev_involutive.
Qed.

Lemma strip_padding_two (l : list ascii) :
  strip_padding (l ++ [pad_char; pad_char]) = l.
Proof.
  unfold strip_padding. rewrite rev_app_distr. simpl. apply rev_involutive.
Qed.

Lemma strip_padding_encode (l : bytes) :
  strip_padding (b64chars l ++ padding (length l)) = b64chars l.
Proof.
  pose proof (b64chars_plain l) as Hp.
  assert (Forall (λ c, Ascii.eqb c pad_char = false) (b64chars l)) as Hp'.
  { eapply Forall_impl; [exact Hp|]. by intros c [_ ?]. }
  unfold padding.
  destruct (length l mod 3)%nat as [|[|[|?]]] eqn:E.
  - rewrite app_nil_r. by apply strip_padding_plain.
  - apply strip_padding_two.
  - apply strip_padding_one; [|done].
    destruct l as [|a [|b r]]; [done..|]. by destruct r.
  - rewrite app_nil_r. by apply strip_padding_plain.
Qed.

Lemma atob_b64chars (data : list ascii) (l : bytes) :
  data = b64chars l →
  (if (length data mod 4 =? 1)%nat then None else unsextets <$> mapM char_sextet data) = Some l.
Proof.
  intros ->.
  assert ((length (b64chars l) mod 4 =? 1)%nat = false) as ->.
  { unfold b64chars. rewrite length_map, length_sextets. apply Nat.eqb_neq.
    pose proof (Nat.mod_upper_bound (length l) 3 ltac:(lia)).
    destruct (length l mod 3)%nat as [|[|[|?]]]; cbn [Nat.eqb]; lia. }
  unfold b64chars. rewrite mapM_char_sextet by apply sextets_lt.
  simpl. by rewrite unsextets_sextets.
Qed.

(** Decoding inverts encoding, with or without the padding. *)
Lemma atob_base64_encode (l : bytes) : atob (base64_encode l) = Some l.
Proof.
  unfold atob, base64_encode. rewrite list_ascii_of_string_of_list_ascii.
  rewrite filter_all.
  2:{ apply Forall_app. split.
      - eapply Forall_impl; [apply b64chars_plain|]. by intros c [-> _].
      - unfold padding. destruct (length l mod 3)%nat as [|[|[|?]]]; by repeat constructor. }
  fold (b64chars l).
  assert ((length (b64chars l ++ padding (length l)) mod 4 =? 0)%nat = true) as ->.
  { rewrite length_app. unfold b64chars. rewrite length_map, length_sextets.
    unfold padding. apply Nat.eqb_eq.
    pose proof (Nat.mod_upper_bound (length l) 3 ltac:(lia)).
    destruct (length l mod 3)%nat as [|[|[|?]]]; cbn [Nat.eqb length]; lia. }
  rewrite strip_padding_encode. by apply atob_b64chars.
Qed.

Lemma atob_unpadded (l : bytes) : atob (string_of_list_ascii (b64chars l)) = Some l.
Proof.
  unfold atob. rewrite list_ascii_of_string_of_list_ascii.
  rewrite filter_all.
  2:{ eapply Forall_impl; [apply b64chars_plain|]. by intros c [-> _]. }
  rewrite (strip_padding_plain (b64chars l)).
  2:{ eapply Forall_impl; [apply b64chars_plain|]. by intros c [_ ?]. }
  destruct (length (b64chars l) mod 4 =? 0)%nat; by apply atob_b64chars.
Qed.

(** *** Hexadecimal *)

Lemma parseInt16_hex_byte (upper : bool) (b : ascii) :
  parseInt16 (hex_byte upper b) = Some (Z.of_N (code b)).
Proof. destruct upper; destruct b as [[] [] [] [] [] [] [] []]; vm_compute; reflexivity. Qed.

Lemma upper_hex_byte (b : ascii) : map upper_char (hex_byte false b) = hex_byte true b.
Proof. destruct b as [[] [] [] [] [] [] [] []]; vm_compute; reflexivity. Qed.

Lemma hex_byte_not_0x (upper : bool) (b : ascii) (r : list ascii) :
  Common.strip_0x (hex_byte upper b ++ r) = hex_byte upper b ++ r.
Proof. destruct upper; destruct b as [[] [] [] [] [] [] [] []]; reflexivity. Qed.

Lemma pairs_hex (upper : bool) (l : bytes) :
  pairs (concat (map (hex_byte upper) l)) = map (hex_byte upper) l.
Proof. induction l as [|b l IH]; [done|]. simpl. by rewrite IH. Qed.

Lemma length_hex (upper : bool) (l : bytes) :
  length (concat (map (hex_byte upper) l)) = (2 * length l)%nat.
Proof. induction l as [|b l IH]; [done|]. simpl. lia. Qed.

Lemma toUpperCase_hex (l : bytes) :
  toUpperCase (hex_of_bytes false l) = hex_of_bytes true l.
Proof.
  unfold toUpperCase, hex_of_bytes. rewrite list_ascii_of_string_of_list_ascii. f_equal.
  induction l as [|b l IH]; [done|].
  cbn [map concat]. rewrite map_app, IH. by rewrite upper_hex_byte.
Qed.

Lemma string_length_hex (upper : bool) (l : bytes) :
  String.length (hex_of_bytes upper l) = (2 * length l)%nat.
Proof.
  unfold hex_of_bytes. rewrite <- (length_hex upper l).
  generalize (concat (map (hex_byte upper) l)).
  induction l0 as [|c r IH]; simpl; [done|]. by rewrite IH.
Qed.

Lemma map_chr_code (l : bytes) : map chr (map code l) = l.
Proof. rewrite map_map. induction l as [|b l IH]; simpl; [done|]. by rewrite chr_code, IH. Qed.

Lemma btoa_units_codes (l : bytes) : btoa_units (map code l) = Some (base64_encode l).
Proof.
  unfold btoa_units.
  assert (forallb (λ u, u <? 256) (map code l) = true) as ->.
  { apply forallb_forall. intros u [b [<- _]]%in_map_iff. apply N.ltb_lt, code_lt. }
  by rewrite map_chr_code.
Qed.

(** Reading back the hex text of a byte sequence, in either case. *)
Lemma hexWrite_hex (upper : bool) (l : bytes) : Index.hexWrite (map (hex_byte upper) l) = l.
Proof.
  induction l as [|b l IH]; [done|].
  cbn [map Index.hexWrite]. rewrite parseInt16_hex_byte, IH. f_equal.
  apply chr_eq. pose proof (code_lt b). lia.
Qed.

Lemma Buffer_from_hex_hex (upper : bool) (l : bytes) :
  Index.Buffer_from_hex (hex_of_bytes upper l) = l.
Proof.
  unfold Index.Buffer_from_hex, hex_of_bytes.
  rewrite list_ascii_of_string_of_list_ascii, pairs_hex, length_hex.
  replace (2 * length l / 2)%nat with (length l) by lia.
  rewrite <- (length_map (hex_byte upper) l), firstn_all. apply hexWrite_hex.
Qed.

Lemma Common_hexToBase64_hex (l : bytes) :
  Common.hexToBase64 (hex_of_bytes true l) = base64_encode l.
Proof.
  unfold Common.hexToBase64, hex_of_bytes. rewrite list_ascii_of_string_of_list_ascii.
  assert (Common.strip_0x (concat (map (hex_byte true) l)) = concat (map (hex_byte true) l)) as ->.
  { destruct l as [|b l]; [done|]. cbn [map concat]. apply hex_byte_not_0x. }
  rewrite pairs_hex, map_map.
  rewrite (map_ext _ code).
  2:{ intros b. rewrite parseInt16_hex_byte. simpl. pose proof (code_lt b). lia. }
  by rewrite btoa_units_codes.
Qed.

(** *** The lenient decoder of the buffer package *)

Lemma url_char_sextet_sextet_char (n : N) :
  n < 64 → Index.url_char_sextet (sextet_char n) = Some n.
Proof.
  intros Hn.
  pose proof (forall_lt64 (λ n, bool_decide (Index.url_char_sextet (sextet_char n) = Some n))) as H.
  specialize (H ltac:(vm_compute; reflexivity) n Hn).
  by apply bool_decide_eq_true_1 in H.
Qed.

Lemma before_pad_plain (l r : list ascii) :
  Forall (λ c, Ascii.eqb c pad_char = false) l →
  (r = [] ∨ ∃ r', r = pad_char :: r') →
  Index.before_pad (l ++ r) = l.
Proof.
  intros Hl Hr. induction Hl as [|c l Hc _ IH]; simpl.
  - by destruct Hr as [->|[r' ->]].
  - by rewrite Hc, IH.
Qed.

Lemma omap_cons {A B} (f : A → option B) (x : A) (l : list A) :
  omap f (x :: l) = match f x with Some y => y :: omap f l | None => omap f l end.
Proof. reflexivity. Qed.

Lemma omap_url_sextets (sx : list N) :
  Forall (λ n, n < 64) sx → omap Index.url_char_sextet (map sextet_char sx) = sx.
Proof.
  induction 1 as [|n sx Hn _ IH]; [done|].
  cbn [map]. rewrite omap_cons, url_char_sextet_sextet_char by done. by rewrite IH.
Qed.

Lemma Buffer_from_base64_encode (l : bytes) :
  Index.Buffer_from_base64 (base64_encode l) = l.
Proof.
  unfold Index.Buffer_from_base64, base64_encode, Index.base64clean.
  rewrite list_ascii_of_string_of_list_ascii. fold (b64chars l).
  rewrite before_pad_plain.
  2:{ eapply Forall_impl; [apply b64chars_plain|]. by intros c [_ ?]. }
  2:{ unfold padding. destruct (length l mod 3)%nat as [|[|[|?]]]; eauto. }
  rewrite filter_all.
  2:{ unfold b64chars. apply Forall_map. eapply Forall_impl; [apply sextets_lt|].
      intros n Hn. simpl. rewrite url_char_sextet_sextet_char by done.
      by apply bool_decide_eq_true_2. }
  destruct l as [|a l]; [done|].
  assert ((length (b64chars (a :: l)) <? 2)%nat = false) as ->.
  { apply Nat.ltb_ge. unfold b64chars. rewrite length_map. destruct l as [|b [|c r]]; simpl; lia. }
  unfold b64chars. rewrite omap_url_sextets by apply sextets_lt. apply unsextets_sextets.
Qed.

End Codec.

(** ** Namespace codec *)
Module NamespaceFacts.
Import Codec.

(** *** utils/common.js *)

Lemma cleanBase64_encode (l : bytes) :
  Common.cleanBase64 (base64_encode l) = string_of_list_ascii (b64chars l).
Proof.
  unfold Common.cleanBase64, base64_encode.
  rewrite list_ascii_of_string_of_list_ascii, List.filter_app. fold (b64chars l).
  rewrite filter_all, filter_none, app_nil_r; [done| |].
  - unfold padding. destruct (length l mod 3)%nat as [|[|[|?]]]; by repeat constructor.
  - eapply Forall_impl; [apply b64chars_plain|]. by intros c [_ ->].
Qed.

Lemma Common_base64ToHex_encode (l : bytes) :
  Common.base64ToHex (base64_encode l) = hex_of_bytes true l.
Proof.
  unfold Common.base64ToHex.
  by rewrite cleanBase64_encode, atob_unpadded, toUpperCase_hex.
Qed.

Lemma isValidBase64_canonical (str : string) :
  Common.isValidBase64 str = true → ∃ l, atob str = Some l ∧ str = base64_encode l.
Proof.
  unfold Common.isValidBase64. destruct (atob str) as [l|]; [|done].
  intros H%String.eqb_eq. by exists l.
Qed.

Lemma Common_round_trip (n : string) :
  Common.isValidBase64 n = true → Common.hexToBase64 (Common.base64ToHex n) = n.
Proof.
  intros (l & _ & ->)%isValidBase64_canonical.
  by rewrite Common_base64ToHex_encode, Common_hexToBase64_hex.
Qed.

Lemma Common_valid_is_base64 (n : string) :
  Common.isValid (Common.validateNamespace n) = true → Common.isValidBase64 n = true.
Proof.
  unfold Common.validateNamespace. by destruct (Common.isValidBase64 n).
Qed.

(** *** index.js *)

Lemma Index_base64ToHex_29 (n : string) :
  length (Index.Buffer_from_base64 n) = 29%nat →
  Index.base64ToHex n = hex_of_bytes false (drop 19 (Index.Buffer_from_base64 n)).
Proof. intros H. unfold Index.base64ToHex. by rewrite H. Qed.

Lemma Index_round_trip_29 (n : string) :
  length (Index.Buffer_from_base64 n) = 29%nat →
  Index.hexToBase64 (Index.base64ToHex n) = base64_encode (drop 19 (Index.Buffer_from_base64 n)).
Proof.
  intros H. rewrite Index_base64ToHex_29 by done.
  unfold Index.hexToBase64. by rewrite Buffer_from_hex_hex.
Qed.

Lemma Index_round_trip_other (n : string) :
  length (Index.Buffer_from_base64 n) ≠ 29%nat →
  Index.hexToBase64 (Index.base64ToHex n) = base64_encode (Index.Buffer_from_base64 n).
Proof.
  intros H. unfold Index.base64ToHex, Index.hexToBase64.
  apply Nat.eqb_neq in H. rewrite H. unfold Index.Buffer_toString_hex.
  by rewrite Buffer_from_hex_hex.
Qed.

End NamespaceFacts.

(** ** RPC transport *)
Module WebsocketFacts.
Import Websocket.
Local Open Scope nat_scope.

Lemma delays_app (e1 e2 : list Effect) : delays (e1 ++ e2) = delays e1 ++ delays e2.
Proof. apply omap_app. Qed.

Lemma reports_app (e1 e2 : list Effect) :
  List.filter is_report (e1 ++ e2) = List.filter is_report e1 ++ List.filter is_report e2.
Proof. apply List.filter_app. Qed.

Lemma when_delays (b : bool) (e : Effect) :
  (∀ d, e ≠ SetTimeout_connect d) → delays (when b e) = [].
Proof. intros H. destruct b; [|done]. destruct e; try done. by destruct (H delay). Qed.

(** *** The close handler *)

Lemma onclose_retry (dom : Dom) (s : State) :
  reconnectAttempts s < maxReconnectAttempts →
  onclose dom s =
    ({| ws := None; requestId := requestId s; pendingRequests := pendingRequests s;
        isConnected := false; reconnectAttempts := S (reconnectAttempts s) |},
     [SetTimeout_connect (backoff (S (reconnectAttempts s)))]).
Proof.
  intros H. unfold onclose. cbn [reconnectAttempts].
  apply Nat.ltb_lt in H. by rewrite H.
Qed.

Lemma onclose_terminal (dom : Dom) (s : State) :
  maxReconnectAttempts ≤ reconnectAttempts s →
  onclose dom s =
    ({| ws := None; requestId := requestId s; pendingRequests := pendingRequests s;
        isConnected := false; reconnectAttempts := reconnectAttempts s |},
     when (has_connectionStatus dom) StatusDisconnected
     ++ when (has_nodeConnectionAlert dom) AlertShown ++ [UpdateAllNodeInfo]).
Proof.
  intros H. unfold onclose. cbn [reconnectAttempts].
  apply Nat.ltb_ge in H. by rewrite H.
Qed.



Lemma onclose_disconnected (dom : Dom) (s : State) :
  isConnected (onclose dom s).1 = false ∧ ws (onclose dom s).1 = None.
Proof. unfold onclose. by destruct (_ <? _). Qed.

(** *** Steps other than open and close leave the back-off alone *)

Lemma step_other (dom : Dom) (ev : Event) (s : State) :
  is_open ev = false → is_close ev = false →
  reconnectAttempts (step dom ev s).1 = reconnectAttempts s
  ∧ delays (step dom ev s).2 = []
  ∧ List.filter is_report (step dom ev s).2 = [].
Proof.
  intros Ho Hc. destruct ev as [|m| | |c|m t]; try done; simpl.
  - unfold onmessage. destruct m as [r|]; [|done].
    destruct (resp_id r) as [[|i]|]; [done| |done].
    by destruct (pendingRequests s !! S i).
  - unfold connectWebSocket. destruct (ws s); [done|]. by destruct c.
  - unfold sendRpcRequest, dispatch.
    destruct (negb (isConnected s) && t); [done|]. cbn [isConnected ws].
    destruct (negb (isConnected s)); [done|]. by destruct (ws s).
Qed.

(** *** The reconnect loop between two successful opens *)

Lemma run_reconnect (dom : Dom) (evs : list Event) (s : State) :
  forallb (λ ev, negb (is_open ev)) evs = true →
  let a := reconnectAttempts s in
  let k := closes evs `min` (maxReconnectAttempts - a) in
  delays (run dom evs s).2 = map backoff (seq (S a) k)
  ∧ reconnectAttempts (run dom evs s).1 = a + k
  ∧ length (List.filter is_report (run dom evs s).2) = closes evs - k.
Proof.
  revert s. induction evs as [|ev evs IH]; intros s Hopen.
  { simpl. unfold closes. simpl. repeat split; lia. }
  cbn [forallb] in Hopen. apply andb_true_iff in Hopen as [Hev Hopen].
  apply negb_true_iff in Hev.
  cbn [run]. destruct (step dom ev s) as [s1 e1] eqn:Hstep.
  specialize (IH s1 Hopen). destruct (run dom evs s1) as [s2 e2]. cbn [fst snd] in *.
  rewrite delays_app, reports_app, length_app.
  destruct IH as (IHd & IHa & IHr). rewrite IHd, IHa, IHr.
  destruct (is_close ev) eqn:Hclose.
  - destruct ev; try done. cbn [step] in Hstep. unfold closes. cbn [List.filter is_close length].
    fold (closes evs). unfold maxReconnectAttempts in *.
    destruct (decide (reconnectAttempts s < 5)) as [Hlt|Hge].
    + rewrite onclose_retry in Hstep by done. injection Hstep as <- <-.
      cbn [reconnectAttempts delays omap list_omap List.filter is_report length].
      replace (S (closes evs) `min` (5 - reconnectAttempts s))
        with (S (closes evs `min` (5 - S (reconnectAttempts s)))) by lia.
      cbn [seq map]. split; [reflexivity|split; simpl; lia].
    + rewrite onclose_terminal in Hstep by (unfold maxReconnectAttempts; lia).
      injection Hstep as <- <-. cbn [reconnectAttempts].
      rewrite !delays_app, !when_delays by done.
      replace (S (closes evs) `min` (5 - reconnectAttempts s)) with 0 by lia.
      replace (closes evs `min` (5 - reconnectAttempts s)) with 0 by lia.
      rewrite !reports_app.
      destruct (has_connectionStatus dom), (has_nodeConnectionAlert dom);
        simpl; repeat split; lia.
  - pose proof (step_other dom ev s Hev Hclose) as (Ha & Hd & Hr).
    rewrite Hstep in Ha, Hd, Hr. cbn [fst snd] in *. rewrite Ha, Hd, Hr.
    unfold closes. cbn [List.filter]. rewrite Hclose. fold (closes evs).
    simpl. repeat split; lia.
Qed.

Lemma backoff_mono (i j : nat) : i ≤ j → backoff i ≤ backoff j.
Proof. unfold backoff. lia. Qed.

Lemma backoff_capped (i : nat) : backoff i ≤ 5000.
Proof. unfold backoff. lia. Qed.

Lemma backoff_sorted (m k : nat) : StronglySorted le (map backoff (seq m k)).
Proof.
  revert m. induction k as [|k IH]; intros m; simpl; constructor; [apply IH|].
  apply Forall_map, Forall_forall. intros i Hi%elem_of_seq. simpl. apply backoff_mono. lia.
Qed.

End WebsocketFacts.

(** ** Record store: what an operation does to localStorage *)
Module StoreFacts.
Import Store.
Local Open Scope store_scope.

Section preservation.
Context `{Platform}.

Variable P : Storage → Prop.

Lemma preserves_ret {A} (a : A) : preserves P (ret a).
Proof. by intros s. Qed.

Lemma preserves_throw {A} (e : string) : preserves P (throw (A:=A) e).
Proof. by intros s. Qed.

Lemma preserves_bind {A B} (m : M A) (k : A → M B) :
  preserves P m → (∀ a, preserves P (k a)) → preserves P (bind m k).
Proof.
  intros Hm Hk s Hs. unfold bind. specialize (Hm s Hs).
  destruct (m s) as [[a|e] s1]; [by apply Hk|done].
Qed.

Lemma preserves_try_catch {A} (m : M A) (h : string → M A) :
  preserves P m → (∀ e, preserves P (h e)) → preserves P (try_catch m h).
Proof.
  intros Hm Hh s Hs. unfold try_catch. specialize (Hm s Hs).
  destruct (m s) as [[a|e] s1]; [done|by apply Hh].
Qed.

Lemma preserves_getItem (k : string) : preserves P (localStorage_getItem k).
Proof. by intros s. Qed.

Lemma preserves_ask {A} (f : World → A * World) : preserves P (ask f).
Proof. intros s Hs. unfold ask. by destruct (f (world s)). Qed.

Lemma preserves_call {A} (f : World → result A * World) : preserves P (call f).
Proof. intros s Hs. unfold call. by destruct (f (world s)). Qed.

Lemma preserves_or_throw {A} (e : string) (o : option A) : preserves P (or_throw e o).
Proof. destruct o; [apply preserves_ret|apply preserves_throw]. Qed.

End preservation.

Section keys.
Context `{Platform}.

Lemma holds_setItem_other (k v k' v' : string) :
  k ≠ k' → preserves (holds k v) (localStorage_setItem k' v').
Proof.
  intros Hne s Hs. unfold holds, getItem in *.
  cbn [localStorage_setItem storage snd]. unfold setItem.
  by rewrite lookup_insert_ne.
Qed.

Lemma holds_removeItem_other (k v k' : string) :
  k ≠ k' → preserves (holds k v) (localStorage_removeItem k').
Proof.
  intros Hne s Hs. unfold holds, getItem in *.
  cbn [localStorage_removeItem storage snd]. unfold removeItem.
  by rewrite lookup_delete_ne.
Qed.

End keys.

(** Applies the rule that fits the head of the operation. *)
Ltac preserve :=
  repeat first
    [ apply preserves_ret | apply preserves_throw | apply preserves_getItem
    | apply preserves_ask | apply preserves_call | apply preserves_or_throw
    | apply holds_setItem_other; [by compute]
    | apply preserves_bind; [|intros ?]
    | apply preserves_try_catch; [|intros ?]
    | assumption
    | match goal with
      | |- preserves _ (if ?b then _ else _) => destruct b
      | |- preserves _ (match ?x with _ => _ end) => destruct x
      end ].

(** *** The secret token *)
Section token.
Context `{Platform}.

Lemma length_getRandomValues (n : nat) (w : World) : length (getRandomValues n w).1 = n.
Proof.
  revert w. induction n as [|n IH]; intros w; simpl; [done|].
  destruct (random_byte w) as [b w1]. specialize (IH w1).
  destruct (getRandomValues n w1) as [r w2]. simpl in *. by rewrite IH.
Qed.

Lemma base64_encode_nonempty (l : bytes) : l ≠ [] → base64_encode l ≠ ""%string.
Proof. destruct l as [|a [|b [|c r]]]; done. Qed.

Lemma hex_of_bytes_nonempty (l : bytes) : l ≠ [] → hex_of_bytes false l ≠ ""%string.
Proof. destruct l as [|a r]; done. Qed.

Lemma random32_nonempty (w : World) : (getRandomValues 32 w).1 ≠ [].
Proof.
  pose proof (length_getRandomValues 32 w) as Hl.
  by destruct (getRandomValues 32 w).1.
Qed.

(** index.js *)

Lemma Index_token_existing (s : Session) (t : string) :
  getItem (storage s) Index.DB_AUTH_TOKEN_KEY = Some t → t ≠ ""%string →
  Index.getOrCreateAuthToken s = (Ok t, s).
Proof.
  intros Ht Hne. unfold Index.getOrCreateAuthToken, bind, localStorage_getItem.
  rewrite Ht. apply String.eqb_neq in Hne. by rewrite Hne.
Qed.

Lemma Index_token_minted (s : Session) :
  truthy (getItem (storage s) Index.DB_AUTH_TOKEN_KEY) = false →
  let fresh := getRandomValues 32 (world s) in
  Index.getOrCreateAuthToken s =
    (Ok (btoa fresh.1),
     {| storage := setItem (storage s) Index.DB_AUTH_TOKEN_KEY (btoa fresh.1);
        world := fresh.2 |}).
Proof.
  intros Ht. unfold Index.getOrCreateAuthToken, Index.generateAuthToken.
  unfold bind at 1. unfold localStorage_getItem.
  unfold truthy in Ht.
  destruct (getItem (storage s) Index.DB_AUTH_TOKEN_KEY) as [t|].
  - apply negb_false_iff in Ht. rewrite Ht. cbn [negb].
    unfold bind, ask, ret, localStorage_setItem.
    by destruct (getRandomValues 32 (world s)).
  - unfold bind, ask, ret, localStorage_setItem.
    by destruct (getRandomValues 32 (world s)).
Qed.

Lemma Index_token_twice (s : Session) :
  ∃ t, t ≠ ""%string
       ∧ (Index.getOrCreateAuthToken s).1 = Ok t
       ∧ Index.getOrCreateAuthToken (Index.getOrCreateAuthToken s).2
         = (Ok t, (Index.getOrCreateAuthToken s).2).
Proof.
  destruct (truthy (getItem (storage s) Index.DB_AUTH_TOKEN_KEY)) eqn:Ht.
  - unfold truthy in Ht.
    destruct (getItem (storage s) Index.DB_AUTH_TOKEN_KEY) as [t|] eqn:E; [|done].
    apply negb_true_iff, String.eqb_neq in Ht.
    exists t. rewrite (Index_token_existing s t E Ht). simpl.
    by rewrite (Index_token_existing s t E Ht).
  - rewrite (Index_token_minted s Ht). cbn [fst snd].
    eexists. split; [|split; [reflexivity|]].
    + apply base64_encode_nonempty, random32_nonempty.
    + apply Index_token_existing.
      * unfold getItem, setItem. cbn [storage]. apply lookup_insert_eq.
      * apply base64_encode_nonempty, random32_nonempty.
Qed.

Lemma Index_token_preserved (t : string) :
  t ≠ ""%string → preserves (holds Index.DB_AUTH_TOKEN_KEY t) Index.getOrCreateAuthToken.
Proof. intros Hne s Hs. by rewrite (Index_token_existing s t Hs Hne). Qed.

(** database.js *)

Lemma Database_token_existing (s : Session) (t : string) :
  getItem (storage s) Database.DB_TOKEN_KEY = Some t → t ≠ ""%string →
  Database.getOrCreateAuthToken s = (Ok t, s).
Proof.
  intros Ht Hne. unfold Database.getOrCreateAuthToken, bind, localStorage_getItem.
  rewrite Ht. apply String.eqb_neq in Hne. by rewrite Hne.
Qed.

Lemma Database_token_minted (s : Session) :
  truthy (getItem (storage s) Database.DB_TOKEN_KEY) = false →
  let fresh := getRandomValues 32 (world s) in
  Database.getOrCreateAuthToken s =
    (Ok (hex_of_bytes false fresh.1),
     {| storage := setItem (storage s) Database.DB_TOKEN_KEY (hex_of_bytes false fresh.1);
        world := fresh.2 |}).
Proof.
  intros Ht. unfold Database.getOrCreateAuthToken, Database.generateAuthToken.
  unfold bind at 1. unfold localStorage_getItem.
  unfold truthy in Ht.
  destruct (getItem (storage s) Database.DB_TOKEN_KEY) as [t|].
  - apply negb_false_iff in Ht. rewrite Ht. cbn [negb].
    unfold bind, ask, ret, localStorage_setItem.
    by destruct (getRandomValues 32 (world s)).
  - unfold bind, ask, ret, localStorage_setItem.
    by destruct (getRandomValues 32 (world s)).
Qed.

Lemma Database_token_twice (s : Session) :
  ∃ t, t ≠ ""%string
       ∧ (Database.getOrCreateAuthToken s).1 = Ok t
       ∧ Database.getOrCreateAuthToken (Database.getOrCreateAuthToken s).2
         = (Ok t, (Database.getOrCreateAuthToken s).2).
Proof.
  destruct (truthy (getItem (storage s) Database.DB_TOKEN_KEY)) eqn:Ht.
  - unfold truthy in Ht.
    destruct (getItem (storage s) Database.DB_TOKEN_KEY) as [t|] eqn:E; [|done].
    apply negb_true_iff, String.eqb_neq in Ht.
    exists t. rewrite (Database_token_existing s t E Ht). simpl.
    by rewrite (Database_token_existing s t E Ht).
  - rewrite (Database_token_minted s Ht). cbn [fst snd].
    eexists. split; [|split; [reflexivity|]].
    + apply hex_of_bytes_nonempty, random32_nonempty.
    + apply Database_token_existing.
      * unfold getItem, setItem. cbn [storage]. apply lookup_insert_eq.
      * apply hex_of_bytes_nonempty, random32_nonempty.
Qed.

Lemma Database_token_preserved (t : string) :
  t ≠ ""%string → preserves (holds Database.DB_TOKEN_KEY t) Database.getOrCreateAuthToken.
Proof. intros Hne s Hs. by rewrite (Database_token_existing s t Hs Hne). Qed.

End token.

(** *** No operation of the record store writes over a token *)
Section operations.
Context `{Platform}.
Variable t : string.
Hypothesis Ht : t ≠ ""%string.

(** index.js *)
Let PI := holds Index.DB_AUTH_TOKEN_KEY t.

Lemma Index_encryptData_keeps (data token : string) :
  preserves PI (Index.encryptData data token).
Proof. unfold Index.encryptData. preserve. Qed.

Lemma Index_decryptData_keeps (encryptedBase64 token : string) :
  preserves PI (Index.decryptData encryptedBase64 token).
Proof. unfold Index.decryptData. preserve. Qed.

Lemma Index_submitBlob_keeps (namespace data : string) :
  preserves PI (Index.submitBlob namespace data).
Proof. unfold Index.submitBlob. preserve. Qed.

Lemma Index_retrieveBlob_keeps (height : option JSON) (namespaceHex : string) :
  preserves PI (Index.retrieveBlob height namespaceHex).
Proof. unfold Index.retrieveBlob. preserve. Qed.

Lemma Index_retrieveRecord_keeps (namespaceHex token : string) (recordInfo : JSON) :
  preserves PI (Index.retrieveRecord namespaceHex token recordInfo).
Proof.
  unfold Index.retrieveRecord.
  apply preserves_try_catch; [|intros; apply preserves_ret].
  assert (preserves PI
    (let* recordBlob := Index.retrieveBlob (field "height" recordInfo) namespaceHex in
     if negb (truthy_json recordBlob) || negb (truthy_json (recordBlob ≫= field "data"))
     then ret None
     else
       try_catch
         (let* recordJson :=
            Index.decryptData
              (Index.decodeFromBase64 (JS_String_opt (recordBlob ≫= field "data"))) token in
          let* record := or_throw "SyntaxError" (JSON_parse recordJson) in
          ret (Some {| Index.record := record; Index.height := field "height" recordInfo |}))
         (λ _, ret None))) as Hbody.
  { apply preserves_bind; [apply Index_retrieveBlob_keeps|]. intros recordBlob.
    destruct (_ || _); [apply preserves_ret|].
    apply preserves_try_catch; [|intros; apply preserves_ret].
    apply preserves_bind; [apply Index_decryptData_keeps|]. intros. preserve. }
  destruct recordInfo; first [apply preserves_throw | exact Hbody].
Qed.

Lemma Index_retrieveRecords_keeps (namespaceHex token : string) (l : list JSON) :
  preserves PI (Index.retrieveRecords namespaceHex token l).
Proof.
  induction l as [|x l IH]; simpl; [apply preserves_ret|].
  apply preserves_bind; [apply Index_retrieveRecord_keeps|]. intros r.
  apply preserves_bind; [apply IH|]. intros. apply preserves_ret.
Qed.

Lemma Index_initializeDatabase_keeps (namespace schema : string) :
  preserves PI (Index.initializeDatabase namespace schema).
Proof.
  unfold Index.initializeDatabase.
  destruct (String.eqb namespace ""); [apply preserves_throw|].
  destruct (String.eqb schema ""); [apply preserves_throw|].
  apply preserves_bind; [apply preserves_or_throw|]. intros schemaObj.
  apply preserves_bind; [apply preserves_ask|]. intros createdAt.
  apply preserves_bind; [by apply Index_token_preserved|]. intros token.
  apply preserves_bind; [apply Index_encryptData_keeps|]. intros encryptedSchema.
  apply preserves_bind; [apply Index_submitBlob_keeps|]. intros result.
  preserve.
Qed.

Lemma Index_addDatabaseRecord_keeps (data : string) :
  preserves PI (Index.addDatabaseRecord data).
Proof.
  unfold Index.addDatabaseRecord.
  apply preserves_bind; [apply preserves_getItem|]. intros namespace.
  apply preserves_bind; [apply preserves_getItem|]. intros schemaHeight.
  destruct (_ || _); [apply preserves_throw|].
  apply preserves_bind; [apply preserves_or_throw|]. intros dataObj.
  apply preserves_bind; [apply preserves_ask|]. intros createdAt.
  apply preserves_bind; [by apply Index_token_preserved|]. intros token.
  apply preserves_bind; [apply Index_encryptData_keeps|]. intros encryptedRecord.
  apply preserves_bind; [apply Index_submitBlob_keeps|]. intros result.
  preserve.
Qed.

Lemma Index_retrieveDatabaseSchema_keeps :
  preserves PI Index.retrieveDatabaseSchema.
Proof.
  unfold Index.retrieveDatabaseSchema.
  apply preserves_bind; [apply preserves_getItem|]. intros namespace.
  apply preserves_bind; [apply preserves_getItem|]. intros schemaHeight.
  destruct (_ || _); [apply preserves_throw|].
  apply preserves_bind; [by apply Index_token_preserved|]. intros token.
  apply preserves_bind; [apply Index_retrieveBlob_keeps|]. intros schemaBlob.
  destruct (_ || _); [apply preserves_throw|].
  apply preserves_try_catch; [|intros; apply preserves_throw].
  apply preserves_bind; [apply Index_decryptData_keeps|]. intros. preserve.
Qed.

Lemma Index_retrieveDatabaseRecords_keeps :
  preserves PI Index.retrieveDatabaseRecords.
Proof.
  unfold Index.retrieveDatabaseRecords.
  apply preserves_bind; [apply preserves_getItem|]. intros namespace.
  apply preserves_bind; [apply preserves_getItem|]. intros stored.
  apply preserves_bind; [apply preserves_or_throw|]. intros recordsList.
  destruct (negb _); [apply preserves_throw|].
  destruct (Index.index_shape recordsList) as [[|e l]| |].
  - apply preserves_ret.
  - apply preserves_bind; [by apply Index_token_preserved|]. intros token.
    apply Index_retrieveRecords_keeps.
  - apply preserves_throw.
  - apply preserves_bind; [by apply Index_token_preserved|]. intros. apply preserves_throw.
Qed.

(** database.js *)
Let PD := holds Database.DB_TOKEN_KEY t.

Lemma Database_encryptData_keeps (data : JSON) (token : string) :
  preserves PD (Database.encryptData data token).
Proof. unfold Database.encryptData. preserve. Qed.

Lemma Database_decryptData_keeps (encryptedBase64 token : string) :
  preserves PD (Database.decryptData encryptedBase64 token).
Proof. unfold Database.decryptData. preserve. Qed.

Lemma Database_submit_keeps (namespace : string) (wrapped : JSON) (after : M unit) :
  preserves PD after → preserves PD (Database.submit namespace wrapped after).
Proof. intros Hafter. unfold Database.submit. preserve. Qed.

Lemma Database_initializeDatabase_keeps (namespace : string) (schema : JSON) :
  preserves PD (Database.initializeDatabase namespace schema).
Proof.
  unfold Database.initializeDatabase.
  apply preserves_bind; [by apply Database_token_preserved|]. intros token.
  apply preserves_bind; [apply Database_encryptData_keeps|]. intros encryptedSchema.
  apply preserves_bind; [apply preserves_ask|]. intros created.
  apply Database_submit_keeps. preserve.
Qed.

Lemma Database_addDatabaseRecord_keeps (data : JSON) :
  preserves PD (Database.addDatabaseRecord data).
Proof.
  unfold Database.addDatabaseRecord.
  apply preserves_bind; [apply preserves_getItem|]. intros namespace.
  apply preserves_bind; [by apply Database_token_preserved|]. intros token.
  destruct (negb _); [apply preserves_throw|].
  apply preserves_bind; [apply Database_encryptData_keeps|]. intros encryptedData.
  apply preserves_bind; [apply preserves_ask|]. intros created.
  apply Database_submit_keeps. apply preserves_ret.
Qed.

Lemma Database_retrieveDatabaseSchema_keeps :
  preserves PD Database.retrieveDatabaseSchema.
Proof.
  unfold Database.retrieveDatabaseSchema.
  apply preserves_bind; [apply preserves_getItem|]. intros cachedSchema.
  destruct (truthy cachedSchema); [apply preserves_or_throw|].
  apply preserves_bind; [apply preserves_getItem|]. intros namespace.
  destruct (negb _); [apply preserves_throw|].
  apply preserves_bind; [apply preserves_call|]. intros response.
  destruct (is_null response); [apply preserves_throw|].
  destruct (_ || _); [apply preserves_throw|].
  destruct (_ ≫= iterate) as [blobs|]; [|apply preserves_throw].
  destruct (Database.find_metadata blobs) as [metadata|]; [|apply preserves_throw].
  apply preserves_bind; [by apply Database_token_preserved|]. intros token.
  apply preserves_bind; [apply Database_decryptData_keeps|]. intros schema.
  preserve.
Qed.

Lemma Database_processBlob_keeps (token : string) (blob : JSON) :
  preserves PD (Database.processBlob token blob).
Proof.
  unfold Database.processBlob.
  apply preserves_try_catch; [|intros; apply preserves_ret].
  destruct (is_null blob); [apply preserves_throw|].
  apply preserves_bind; [apply preserves_or_throw|]. intros b.
  apply preserves_bind; [apply preserves_or_throw|]. intros blobData.
  destruct (is_null blobData); [apply preserves_throw|].
  destruct (is_str "celestia-db" _); [apply preserves_ret|].
  destruct (is_str "celestia-db-record" _); [|apply preserves_ret].
  apply preserves_bind; [apply Database_decryptData_keeps|]. intros. apply preserves_ret.
Qed.

Lemma Database_processBlobs_keeps (token : string) (l : list JSON) :
  preserves PD (Database.processBlobs token l).
Proof.
  induction l as [|x l IH]; simpl; [apply preserves_ret|].
  apply preserves_bind; [apply Database_processBlob_keeps|]. intros r.
  apply preserves_bind; [apply IH|]. intros. apply preserves_ret.
Qed.

Lemma Database_retrieveDatabaseRecords_keeps :
  preserves PD Database.retrieveDatabaseRecords.
Proof.
  unfold Database.retrieveDatabaseRecords.
  apply preserves_bind; [apply preserves_getItem|]. intros namespace.
  destruct (negb _); [apply preserves_throw|].
  apply preserves_bind; [by apply Database_token_preserved|]. intros token.
  apply preserves_bind; [apply preserves_call|]. intros response.
  destruct (is_null response); [apply preserves_throw|].
  destruct (_ || _); [apply preserves_throw|].
  destruct (_ ≫= iterate) as [blobs|]; [|apply preserves_throw].
  apply preserves_bind; [apply Database_processBlobs_keeps|]. intros. apply preserves_ret.
Qed.

End operations.

End StoreFacts.

(** ** Listing *)
Module ListingFacts.
Import Store StoreFacts.
Local Open Scope store_scope.

Section listing.
Context `{Platform}.



(** An entry whose blob cannot be fetched is skipped. *)
Lemma retrieveRecord_no_blob (namespaceHex token : string) (recordInfo : JSON) (s s1 : Session) :
  is_null recordInfo = false →
  Index.retrieveBlob (field "height" recordInfo) namespaceHex s = (Ok None, s1) →
  Index.retrieveRecord namespaceHex token recordInfo s = (Ok None, s1).
Proof.
  intros Hnn Hb. unfold Index.retrieveRecord.
  assert (∀ m : M (option Index.ListedRecord),
            (match recordInfo with JNull => throw "TypeError" | _ => m end) = m) as ->.
  { intros m. by destruct recordInfo. }
  unfold try_catch, bind. by rewrite Hb.
Qed.

(** An entry whose blob does not decrypt is skipped. *)
Lemma retrieveRecord_not_decrypted
    (namespaceHex token : string) (recordInfo blob : JSON) (e : string) (s s1 s2 : Session) :
  is_null recordInfo = false →
  Index.retrieveBlob (field "height" recordInfo) namespaceHex s = (Ok (Some blob), s1) →
  Index.decryptData (Index.decodeFromBase64 (JS_String_opt (field "data" blob))) token s1
    = (Throw e, s2) →
  ∃ s3, Index.retrieveRecord namespaceHex token recordInfo s = (Ok None, s3).
Proof.
  intros Hnn Hb Hd. unfold Index.retrieveRecord.
  assert (∀ m : M (option Index.ListedRecord),
            (match recordInfo with JNull => throw "TypeError" | _ => m end) = m) as ->.
  { intros m. by destruct recordInfo. }
  unfold try_catch at 1. unfold bind at 1. rewrite Hb. cbn [mbind option_bind].
  destruct (negb (truthy_json (Some blob)) || negb (truthy_json (field "data" blob))); simpl.
  - eauto.
  - unfold try_catch, bind. rewrite Hd. simpl. eauto.
Qed.





End listing.
End ListingFacts.

(** * The claims *)

(** ** Transport *)
Module TransportClaims.
Import Websocket WebsocketFacts.
Local Open Scope nat_scope.

Lemma run_stays_disconnected (dom : Dom) (evs : list Event) (s : State) :
  forallb (λ ev, negb (is_open ev)) evs = true →
  isConnected s = false → isConnected (run dom evs s).1 = false.
Proof.
  revert s. induction evs as [|ev evs IH]; intros s Hopen Hs; [done|].
  cbn [forallb] in Hopen. apply andb_true_iff in Hopen as [Hev Hopen].
  cbn [run]. destruct (step dom ev s) as [s1 e1] eqn:Hstep.
  specialize (IH s1 Hopen). destruct (run dom evs s1) as [s2 e2]. cbn [fst] in *.
  apply IH. clear IH.
  destruct ev as [|m| | |c|m t]; try done; cbn [step] in Hstep.
  - unfold onmessage in Hstep. destruct m as [r|]; [|by injection Hstep as <- _].
    destruct (resp_id r) as [[|i]|]; try by injection Hstep as <- _.
    destruct (pendingRequests s !! S i); by injection Hstep as <- _.
  - by injection Hstep as <- _.
  - pose proof (onclose_disconnected dom s) as [Hd _]. by rewrite Hstep in Hd.
  - unfold connectWebSocket in Hstep. destruct (ws s); [by injection Hstep as <- _|].
    destruct c; by injection Hstep as <- _.
  - unfold sendRpcRequest, dispatch in Hstep. rewrite Hs in Hstep. cbn in Hstep.
    destruct t; by injection Hstep as <- _.
Qed.

Lemma run_closed_is_disconnected (dom : Dom) (evs : list Event) (s : State) :
  forallb (λ ev, negb (is_open ev)) evs = true →
  0 < closes evs → isConnected (run dom evs s).1 = false.
Proof.
  revert s. induction evs as [|ev evs IH]; intros s Hopen Hc; [unfold closes in Hc; simpl in Hc; lia|].
  cbn [forallb] in Hopen. apply andb_true_iff in Hopen as [Hev Hopen].
  destruct (is_close ev) eqn:Hclose.
  - destruct ev; try done.
    pose proof (run_stays_disconnected dom evs (onclose dom s).1 Hopen
                  (proj1 (onclose_disconnected dom s))) as Hrun.
    cbn [run step]. destruct (onclose dom s) as [s1 e1]. cbn [fst] in Hrun.
    by destruct (run dom evs s1).
  - assert (0 < closes evs) as Hc'.
    { unfold closes in *. cbn [List.filter] in Hc. by rewrite Hclose in Hc. }
    specialize (IH (step dom ev s).1 Hopen Hc').
    cbn [run]. destruct (step dom ev s) as [s1 e1]. cbn [fst] in IH.
    by destruct (run dom evs s1).
Qed.

(** C8.  Between two successful opens, whatever else happens to the
    transport (closes, errors, messages, connection attempts, calls): at
    most [maxReconnectAttempts] = 5 reconnect timers are set, their delays
    never decrease and never exceed 5000 ms, and once more than five closes
    have happened the transport is disconnected, the page has been told so,
    and a further close sets no timer but reports the disconnection
    again. *)
Theorem reconnect_attempts_bounded (dom : Dom) (evs : list Event) (s : State) :
  forallb (λ ev, negb (is_open ev)) evs = true →
  let final := (run dom evs s).1 in
  let effects := (run dom evs s).2 in
  length (delays effects) ≤ maxReconnectAttempts
  ∧ StronglySorted le (delays effects)
  ∧ Forall (λ d, d ≤ 5000) (delays effects)
  ∧ (maxReconnectAttempts < closes evs →
       isConnected final = false
       ∧ In UpdateAllNodeInfo effects
       ∧ (onclose dom final).2 =
           when (has_connectionStatus dom) StatusDisconnected
           ++ when (has_nodeConnectionAlert dom) AlertShown ++ [UpdateAllNodeInfo]).
Proof.
  intros Hopen final effects.
  destruct (run_reconnect dom evs s Hopen) as (Hd & Ha & Hr).
  fold final in Ha. fold effects in Hd, Hr. rewrite Hd.
  split; [|split; [|split]].
  - rewrite length_map, length_seq. unfold maxReconnectAttempts. lia.
  - apply backoff_sorted.
  - apply Forall_map, Forall_forall. intros i _. apply backoff_capped.
  - intros Hc. split; [|split].
    + apply run_closed_is_disconnected; [done|]. unfold maxReconnectAttempts in Hc. lia.
    + assert (0 < length (List.filter is_report effects)) as Hlen.
      { rewrite Hr. unfold maxReconnectAttempts in *. lia. }
      destruct (List.filter is_report effects) as [|e l] eqn:E; [simpl in Hlen; lia|].
      assert (In e (List.filter is_report effects)) as Hin by (rewrite E; by left).
      apply filter_In in Hin as [Hin He]. by destruct e.
    + rewrite onclose_terminal; [done|]. rewrite Ha. unfold maxReconnectAttempts in *. lia.
Qed.

(** Seven failed reconnect cycles from the initial state. *)
Lemma reconnect_attempts_bounded_witness :
  let dom := {| has_connectionStatus := true; has_nodeConnectionAlert := true |} in
  let evs := concat (replicate 7 [Connect true; Close]) in
  delays (run dom evs initial).2 = [1000; 2000; 3000; 4000; 5000]
  ∧ length (delays (run dom evs initial).2) ≤ maxReconnectAttempts
  ∧ StronglySorted le (delays (run dom evs initial).2)
  ∧ Forall (λ d, d ≤ 5000) (delays (run dom evs initial).2)
  ∧ isConnected (run dom evs initial).1 = false
  ∧ In UpdateAllNodeInfo (run dom evs initial).2.
Proof.
  intros dom evs.
  pose proof (reconnect_attempts_bounded dom evs initial eq_refl) as (H1 & H2 & H3 & H4).
  destruct (H4 ltac:(vm_compute; lia)) as (H5 & H6 & _).
  split; [reflexivity|]. split; [exact H1|]. split; [exact H2|].
  split; [exact H3|]. split; [exact H5|exact H6].
Defined.



End TransportClaims.

(** ** Namespace codec *)
Module NamespaceClaims.
Import Codec NamespaceFacts.
Local Open Scope nat_scope.

Lemma Uint8Array_set_fits (dst src : bytes) (offset : nat) :
  offset + length src ≤ length dst →
  Uint8Array_set dst src offset
    = Some (take offset dst ++ src ++ drop (offset + length src) dst).
Proof. intros Hfit. unfold Uint8Array_set. by rewrite decide_True. Qed.

(** *** createValidNamespace of index.js *)

Lemma length_padded (inputBytes : bytes) : length (Index.padded inputBytes) = 29.
Proof. unfold Index.padded. rewrite !length_app, !length_replicate, length_take. lia. Qed.

Lemma Index_createValidNamespace_string `{Platform} (input : string) (w : World) :
  Index.createValidNamespace (Some input) w
    = (Some (Index.Buffer_toString_base64 (Index.padded (TextEncoder_encode input))), w).
Proof.
  unfold Index.createValidNamespace, Index.padded.
  set (inputBytes := TextEncoder_encode input).
  set (hash := replicate (10 - length inputBytes) zero ++ take 10 inputBytes).
  assert (length hash = 10) as Hlen
    by (unfold hash; rewrite length_app, length_replicate, length_take; lia).
  assert (Uint8Array_set (Uint8Array_new 10) (slice inputBytes 0 10)
            (Z.to_nat (Z.max 0 (10 - Z.of_nat (length inputBytes)))) = Some hash) as ->.
  { replace (Z.to_nat (Z.max 0 (10 - Z.of_nat (length inputBytes))))
      with (10 - length inputBytes) by lia.
    change (slice inputBytes 0 10) with (take 10 inputBytes). unfold Uint8Array_new.
    rewrite Uint8Array_set_fits by (rewrite length_take, length_replicate; lia).
    rewrite take_replicate, drop_replicate, length_take.
    replace (10 - (10 - length inputBytes + 10 `min` length inputBytes)) with 0 by lia.
    replace ((10 - length inputBytes) `min` 10) with (10 - length inputBytes) by lia.
    by rewrite app_nil_r. }
  cbn [mbind option_bind].
  assert (Uint8Array_set (Uint8Array_new 28) hash 18 = Some (replicate 18 zero ++ hash)) as ->.
  { unfold Uint8Array_new.
    rewrite Uint8Array_set_fits by (rewrite length_replicate; lia).
    rewrite take_replicate, drop_replicate, Hlen. by rewrite app_nil_r. }
  cbn [mbind option_bind].
  assert (Uint8Array_set (<[0:=chr 0]> (Uint8Array_new 29)) (replicate 18 zero ++ hash) 1
          = Some (replicate 19 zero ++ hash)) as ->; [|done].
  change (<[0:=chr 0]> (Uint8Array_new 29)) with (replicate 29 zero).
  rewrite Uint8Array_set_fits by (rewrite length_app, !length_replicate; lia).
  rewrite take_replicate, drop_replicate, length_app, length_replicate, Hlen.
  by rewrite app_nil_r.
Qed.

(** *** createValidNamespace of common.js *)

Lemma copy_loop (src dst : bytes) (k : nat) :
  k ≤ length src → S k ≤ length dst →
  foldl (λ ns i, <[S i := nth i src zero]> ns) dst (seq 0 k)
    = take 1 dst ++ take k src ++ drop (S k) dst.
Proof.
  induction k as [|k IH]; intros Hs Hd.
  - simpl. destruct dst; [simpl in Hd; lia|done].
  - rewrite seq_S, foldl_app, IH by lia. cbn [foldl].
    assert (∃ d, dst !! S k = Some d) as [d Hdk] by (apply lookup_lt_is_Some; lia).
    assert (∃ x, src !! k = Some x) as [x Hx] by (apply lookup_lt_is_Some; lia).
    rewrite (drop_S dst d (S k)) by done.
    rewrite (take_S_r src k x) by done.
    rewrite (nth_lookup_Some _ _ _ _ Hx).
    change (S (0 + k)) with (S k).
    assert (length (take 1 dst) = 1) as H1 by (rewrite length_take; lia).
    assert (length (take k src) = k) as Hk by (rewrite length_take; lia).
    rewrite insert_app_r_alt by lia. rewrite H1.
    rewrite insert_app_r_alt by lia. rewrite Hk.
    replace (S k - 1 - k) with 0 by lia.
    cbn [list_insert insert]. by rewrite <- !app_assoc.
Qed.

Lemma Common_createValidNamespace_bytes (input : string) :
  let inputBytes := TextEncoder_encode input in
  Common.base64 (Common.createValidNamespace input)
    = btoa (zero :: take 28 inputBytes ++ replicate (28 - length inputBytes) zero).
Proof.
  intros inputBytes. unfold Common.createValidNamespace. fold inputBytes. cbn [Common.base64].
  f_equal. unfold Uint8Array_new.
  rewrite copy_loop by (rewrite ?length_insert, ?length_replicate; lia).
  change (take 1 (<[0:=chr 0]> (replicate 29 zero))) with [zero].
  change (<[0:=chr 0]> (replicate 29 zero)) with (replicate 29 zero).
  rewrite drop_replicate. cbn [app]. f_equal.
  destruct (decide (length inputBytes ≤ 28)) as [Hle|Hgt].
  - replace (length inputBytes `min` 28) with (length inputBytes) by lia.
    rewrite (take_ge inputBytes 28) by lia. rewrite take_ge by lia.
    by replace (29 - S (length inputBytes)) with (28 - length inputBytes) by lia.
  - replace (length inputBytes `min` 28) with 28 by lia.
    by replace (28 - length inputBytes) with 0 by lia.
Qed.

(** C5, as the code has it.  createValidNamespace of index.js never
    fails on a string: it returns, whatever the random source, the base64
    text of a 29-byte namespace whose first 19 bytes (the version 0 and 18
    more) are zero and whose last 10 bytes are the first 10 bytes of the
    input, preceded by zero bytes when the input is shorter; an input of
    at most 10 bytes is carried whole, a longer one is cut to 10 bytes.
    createValidNamespace of common.js copies the first 28 bytes of the
    input right after the version byte and fills the rest with zeros. *)
Theorem createValidNamespace_pads_and_truncates `{Platform} (input : string) (w : World) :
  let inputBytes := TextEncoder_encode input in
  let namespace := Index.padded inputBytes in
  Index.createValidNamespace (Some input) w = (Some (Index.Buffer_toString_base64 namespace), w)
  ∧ Index.Buffer_from_base64 (Index.Buffer_toString_base64 namespace) = namespace
  ∧ length namespace = 29
  ∧ take 19 namespace = replicate 19 zero
  ∧ drop 19 namespace = replicate (10 - length inputBytes) zero ++ take 10 inputBytes
  ∧ (length inputBytes ≤ 10 →
       drop 19 namespace = replicate (10 - length inputBytes) zero ++ inputBytes)
  ∧ Common.base64 (Common.createValidNamespace input)
    = btoa (zero :: take 28 inputBytes ++ replicate (28 - length inputBytes) zero).
Proof.
  intros inputBytes namespace.
  split; [apply Index_createValidNamespace_string|].
  split; [apply Buffer_from_base64_encode|].
  split; [apply length_padded|].
  assert (take 19 namespace = replicate 19 zero) as Htake.
  { unfold namespace, Index.padded. by rewrite take_app_length' by by rewrite length_replicate. }
  assert (drop 19 namespace = replicate (10 - length inputBytes) zero ++ take 10 inputBytes)
    as Hdrop.
  { unfold namespace, Index.padded. by rewrite drop_app_length' by by rewrite length_replicate. }
  split; [done|]. split; [done|]. split.
  - intros Hle. rewrite Hdrop. by rewrite take_ge by lia.
  - apply Common_createValidNamespace_bytes.
Qed.

Lemma createValidNamespace_pads_and_truncates_witness :
  (@Index.createValidNamespace Offline.platform (Some "ab"%string) 0).1
    = Some Offline.a_namespace
  ∧ drop 19 (Index.padded (TextEncoder_encode "ab"))
    = replicate 8 zero ++ TextEncoder_encode "ab".
Proof.
  destruct (@createValidNamespace_pads_and_truncates Offline.platform "ab"%string 0)
    as (H1 & _ & _ & _ & _ & H6 & _).
  split; [by rewrite H1|]. apply H6. vm_compute. lia.
Defined.

(** An 11-byte input yields a namespace: its first 10 bytes, the eleventh
    dropped. *)
Lemma createValidNamespace_truncates_long_input :
  length (TextEncoder_encode "abcdefghijk") = 11
  ∧ (@Index.createValidNamespace Offline.platform (Some "abcdefghijk"%string) 0).1
    = Some "AAAAAAAAAAAAAAAAAAAAAAAAAGFiY2RlZmdoaWo="%string
  ∧ Index.valid (Index.validateNamespace "AAAAAAAAAAAAAAAAAAAAAAAAAGFiY2RlZmdoaWo=") = true
  ∧ drop 19 (Index.Buffer_from_base64 "AAAAAAAAAAAAAAAAAAAAAAAAAGFiY2RlZmdoaWo=")
    = TextEncoder_encode "abcdefghij".
Proof. repeat split; vm_compute; reflexivity. Qed.

(** *** Display form *)

Lemma Common_valid_bytes (n : string) :
  Common.isValid (Common.validateNamespace n) = true →
  ∃ l, n = base64_encode l ∧ length l = 29.
Proof.
  intros Hv. pose proof (Common_valid_is_base64 n Hv) as Hb.
  destruct (isValidBase64_canonical n Hb) as (l & _ & ->). exists l. split; [done|].
  unfold Common.validateNamespace in Hv. rewrite Hb in Hv. cbn [negb] in Hv.
  rewrite Common_base64ToHex_encode, string_length_hex in Hv.
  destruct (2 * length l =? 58) eqn:E; [|done]. apply Nat.eqb_eq in E. lia.
Qed.

Lemma namespace_of_hex_id (l : bytes) :
  length l = 29 →
  Index.namespace_of_hex (hex_of_bytes false (drop 19 l))
    = Some (base64_encode (replicate 19 zero ++ drop 19 l)).
Proof.
  intros Hl. unfold Index.namespace_of_hex. rewrite Buffer_from_hex_hex.
  unfold Uint8Array_new.
  rewrite Uint8Array_set_fits by (rewrite length_insert, length_replicate, length_drop; lia).
  cbn [mbind option_bind]. unfold Index.Buffer_toString_base64. do 2 f_equal.
  change (take 19 (<[0:=chr 0]> (replicate 29 zero))) with (replicate 19 zero).
  rewrite (drop_ge _ (19 + _)) by (rewrite length_insert, length_replicate, length_drop; lia).
  by rewrite app_nil_r.
Qed.

(** C7, as the code has it.  For a namespace that common.js accepts
    (canonical base64 of 29 bytes): hexToBase64(base64ToHex(n)) of
    common.js gives n back.  In index.js base64ToHex keeps only the last
    10 bytes of a 29-byte namespace, so hexToBase64 of it is the base64
    text of those 10 bytes; retrieveBlob rebuilds a namespace from that
    hex text by putting 19 zero bytes in front, which is n when the first
    19 bytes of n are zero. *)
Theorem display_form_round_trip (n : string) :
  Common.isValid (Common.validateNamespace n) = true →
  let bytes := Index.Buffer_from_base64 n in
  Common.hexToBase64 (Common.base64ToHex n) = n
  ∧ length bytes = 29
  ∧ Index.base64ToHex n = Index.Buffer_toString_hex (drop 19 bytes)
  ∧ Index.hexToBase64 (Index.base64ToHex n) = Index.Buffer_toString_base64 (drop 19 bytes)
  ∧ Index.namespace_of_hex (Index.base64ToHex n)
    = Some (Index.Buffer_toString_base64 (replicate 19 zero ++ drop 19 bytes))
  ∧ (take 19 bytes = replicate 19 zero →
       Index.namespace_of_hex (Index.base64ToHex n) = Some n).
Proof.
  intros Hv bytes.
  split; [by apply Common_round_trip, Common_valid_is_base64|].
  destruct (Common_valid_bytes n Hv) as (l & -> & Hl).
  subst bytes. rewrite Buffer_from_base64_encode.
  assert (length (Index.Buffer_from_base64 (base64_encode l)) = 29) as Hl'
    by by rewrite Buffer_from_base64_encode.
  split; [done|].
  split; [by rewrite Index_base64ToHex_29, Buffer_from_base64_encode|].
  split; [by rewrite Index_round_trip_29, Buffer_from_base64_encode|].
  rewrite Index_base64ToHex_29, Buffer_from_base64_encode by done.
  split; [by apply namespace_of_hex_id|].
  intros Hz. rewrite namespace_of_hex_id by done. by rewrite <- Hz, take_drop.
Qed.

Lemma display_form_round_trip_witness :
  Common.hexToBase64 (Common.base64ToHex Offline.a_namespace) = Offline.a_namespace
  ∧ Index.namespace_of_hex (Index.base64ToHex Offline.a_namespace) = Some Offline.a_namespace.
Proof.
  destruct (display_form_round_trip Offline.a_namespace ltac:(vm_compute; reflexivity))
    as (H1 & _ & _ & _ & _ & H6).
  split; [exact H1|]. apply H6. vm_compute. reflexivity.
Defined.

(** In index.js the display form of a valid namespace does not convert
    back to the namespace: 29 bytes come back as 10. *)
Lemma Index_display_form_loses_prefix :
  let n := "AAAAAAAAAAAAAAAAAAAAAAAAAGFiY2RlZmdoaWo="%string in
  Index.valid (Index.validateNamespace n) = true
  ∧ Common.isValid (Common.validateNamespace n) = true
  ∧ Index.base64ToHex n = "6162636465666768696a"%string
  ∧ Index.hexToBase64 (Index.base64ToHex n) = "YWJjZGVmZ2hpag=="%string
  ∧ String.eqb (Index.hexToBase64 (Index.base64ToHex n)) n = false.
Proof. repeat split; vm_compute; reflexivity. Qed.

(** *** validateNamespace of index.js *)

Lemma Index_validateNamespace_rules (n : string) :
  let bytes := Index.Buffer_from_base64 n in
  let version := code (nth 0 bytes zero) in
  let result := Index.validateNamespace n in
  (length bytes ≠ 29 →
     result = {| Index.valid := false;
                 Index.error := Some (Index.MustBeExactly29Bytes (length bytes)) |})
  ∧ (length bytes = 29 → version ≠ 0%N → version ≠ 255%N →
       result = {| Index.valid := false; Index.error := Some Index.UnsupportedVersion |})
  ∧ (length bytes = 29 → version = 0%N →
       (∃ i, 1 ≤ i ≤ 18 ∧ nth i bytes zero ≠ zero) →
       result = {| Index.valid := false; Index.error := Some Index.MissingLeadingZeroBytes |})
  ∧ (length bytes = 29 →
       (version = 0%N ∧ ∀ i, 1 ≤ i ≤ 18 → nth i bytes zero = zero) ∨ version = 255%N →
       result = if Index.isReservedNamespace n
                then {| Index.valid := false; Index.error := Some Index.ReservedNamespace |}
                else {| Index.valid := true; Index.error := None |}).
Proof.
  intros bytes version result. subst result. unfold Index.validateNamespace.
  fold bytes. fold version.
  split; [|split; [|split]].
  - intros Hl. apply Nat.eqb_neq in Hl. by rewrite Hl.
  - intros Hl H0 H255. apply Nat.eqb_eq in Hl. rewrite Hl. cbn [negb].
    apply N.eqb_neq in H0, H255. by rewrite H0, H255.
  - intros Hl H0 (i & Hi & Hnz). apply Nat.eqb_eq in Hl. rewrite Hl. cbn [negb].
    apply N.eqb_eq in H0. rewrite H0.
    destruct (forallb _ _) eqn:E; [|done].
    rewrite forallb_forall in E. specialize (E (i - 1)).
    rewrite in_seq in E. specialize (E ltac:(lia)).
    replace (i - 1 + 1) with i in E by lia. apply N.eqb_eq in E.
    destruct Hnz. rewrite <- (chr_code (nth i bytes zero)), E. reflexivity.
  - intros Hl Hv. apply Nat.eqb_eq in Hl. rewrite Hl. cbn [negb].
    destruct Hv as [[H0 Hz]|H255].
    + apply N.eqb_eq in H0. rewrite H0.
      assert (forallb (λ i, (code (nth (i + 1) bytes zero) =? 0)%N) (seq 0 18) = true) as ->; [|done].
      apply forallb_forall. intros i Hi%in_seq. rewrite Hz by lia. reflexivity.
    + rewrite H255. reflexivity.
Qed.

(** C3, at the input where the code departs from it.  The namespace of
    28 zero bytes followed by 0xFF is PRIMARY_RESERVED_PADDING_NAMESPACE of
    the table; validateNamespace of index.js accepts it, because the table
    is written in upper case and the hex text it is compared with is in
    lower case. *)
Theorem Index_validateNamespace_accepts_reserved :
  let n := "AAAAAAAAAAAAAAAAAAAAAAAAAAAAAAAAAAAAAP8="%string in
  Index.Buffer_from_base64 n = replicate 28 zero ++ [chr 255]
  ∧ Index.RESERVED_NAMESPACES !! 3%nat
    = Some ("PRIMARY_RESERVED_PADDING_NAMESPACE"%string,
            hex_of_bytes true (Index.Buffer_from_base64 n))
  ∧ Index.isReservedNamespace n = false
  ∧ Index.validateNamespace n = {| Index.valid := true; Index.error := None |}
  ∧ Common.validateNamespace n
    = {| Common.isValid := false; Common.error := Some Common.ReservedNamespace |}.
Proof. repeat split; vm_compute; reflexivity. Qed.

(** The rule on bytes 1 to 18 is enforced by index.js only: common.js
    accepts a version 0 namespace whose byte 1 is not zero. *)
Lemma Common_validateNamespace_ignores_padding :
  let n := Common.base64 (Common.createValidNamespace "ab") in
  Index.Buffer_from_base64 n = zero :: TextEncoder_encode "ab" ++ replicate 26 zero
  ∧ Common.validateNamespace n = {| Common.isValid := true; Common.error := None |}
  ∧ Index.validateNamespace n
    = {| Index.valid := false; Index.error := Some Index.MissingLeadingZeroBytes |}.
Proof. repeat split; vm_compute; reflexivity. Qed.

End NamespaceClaims.

(** ** Record store *)
Module StoreClaims.
Import Store StoreFacts ListingFacts.
Local Open Scope store_scope.

(** *** Reset of the local state *)

(** C9, as the code has it.  clearDatabaseCache of index.js returns
    with the four keys (namespace, schema position, index, secret token)
    absent from localStorage; clearDatabaseCache of database.js removes the
    namespace and the cached schema and keeps the token.  Neither touches
    another key, and neither reaches the node: the world is as before. *)
Theorem clearDatabaseCache_clears_local_state `{Platform} (s : Session) :
  let cleared := (Index.clearDatabaseCache s).2 in
  let cleared' := (Database.clearDatabaseCache s).2 in
  (Index.clearDatabaseCache s).1 = Ok ()
  ∧ getItem (storage cleared) Index.DB_NAMESPACE_KEY = None
  ∧ getItem (storage cleared) Index.DB_SCHEMA_HEIGHT_KEY = None
  ∧ getItem (storage cleared) Index.DB_RECORDS_KEY = None
  ∧ getItem (storage cleared) Index.DB_AUTH_TOKEN_KEY = None
  ∧ (∀ k, k ∉ [Index.DB_NAMESPACE_KEY; Index.DB_SCHEMA_HEIGHT_KEY;
               Index.DB_RECORDS_KEY; Index.DB_AUTH_TOKEN_KEY] →
          getItem (storage cleared) k = getItem (storage s) k)
  ∧ world cleared = world s
  ∧ (Database.clearDatabaseCache s).1 = Ok ()
  ∧ getItem (storage cleared') Database.DB_NAMESPACE_KEY = None
  ∧ getItem (storage cleared') Database.DB_SCHEMA_KEY = None
  ∧ getItem (storage cleared') Database.DB_TOKEN_KEY
    = getItem (storage s) Database.DB_TOKEN_KEY
  ∧ world cleared' = world s.
Proof.
  intros cleared cleared'. subst cleared cleared'.
  unfold Index.clearDatabaseCache, Database.clearDatabaseCache,
    bind, localStorage_removeItem. cbn [fst snd storage world].
  unfold getItem, removeItem.
  repeat split.
  - by rewrite !lookup_delete_ne, lookup_delete_eq by (by compute).
  - by rewrite !lookup_delete_ne, lookup_delete_eq by (by compute).
  - by rewrite !lookup_delete_ne, lookup_delete_eq by (by compute).
  - by rewrite lookup_delete_eq.
  - intros k Hk. rewrite !not_elem_of_cons in Hk. destruct Hk as (?&?&?&?&_).
    by rewrite !lookup_delete_ne.
  - by rewrite !lookup_delete_ne, lookup_delete_eq by (by compute).
  - by rewrite lookup_delete_eq.
  - by rewrite !lookup_delete_ne by (by compute).
Qed.

(** database.js: the token survives clearDatabaseCache. *)
Lemma Database_clearDatabaseCache_keeps_token :
  let st : Storage :=
    {[ Database.DB_NAMESPACE_KEY := Offline.a_namespace;
       Database.DB_SCHEMA_KEY := "{}"%string;
       Database.DB_TOKEN_KEY := "5ec2e7"%string ]} in
  let cleared := (@Database.clearDatabaseCache Offline.platform (Offline.session st)).2 in
  getItem (storage cleared) Database.DB_TOKEN_KEY = Some "5ec2e7"%string
  ∧ getItem (storage cleared) Database.DB_NAMESPACE_KEY = None.
Proof. split; vm_compute; reflexivity. Qed.

(** *** The secret token *)

(** C10, as the code has it.  A stored token that is not the empty
    string is returned as it is, with localStorage and the world unchanged,
    and no operation of the record store (initialize, append, schema
    retrieval, listing) changes it, whether the operation returns or
    raises.  In every state two calls in a row return the same token, and
    the second changes nothing.  When no token is stored, or the stored
    one is the empty string, a token made of 32 random bytes is stored and
    returned: the caller gets no error.  All of this holds for index.js and
    for database.js, each with its own key. *)
Theorem token_is_stable `{Platform} (s : Session) (t : string) :
  t ≠ ""%string →
  (getItem (storage s) Index.DB_AUTH_TOKEN_KEY = Some t →
     Index.getOrCreateAuthToken s = (Ok t, s)
     ∧ (∀ namespace schema,
          holds Index.DB_AUTH_TOKEN_KEY t (storage (Index.initializeDatabase namespace schema s).2))
     ∧ (∀ data, holds Index.DB_AUTH_TOKEN_KEY t (storage (Index.addDatabaseRecord data s).2))
     ∧ holds Index.DB_AUTH_TOKEN_KEY t (storage (Index.retrieveDatabaseSchema s).2)
     ∧ holds Index.DB_AUTH_TOKEN_KEY t (storage (Index.retrieveDatabaseRecords s).2))
  ∧ (getItem (storage s) Database.DB_TOKEN_KEY = Some t →
     Database.getOrCreateAuthToken s = (Ok t, s)
     ∧ (∀ namespace schema,
          holds Database.DB_TOKEN_KEY t (storage (Database.initializeDatabase namespace schema s).2))
     ∧ (∀ data, holds Database.DB_TOKEN_KEY t (storage (Database.addDatabaseRecord data s).2))
     ∧ holds Database.DB_TOKEN_KEY t (storage (Database.retrieveDatabaseSchema s).2)
     ∧ holds Database.DB_TOKEN_KEY t (storage (Database.retrieveDatabaseRecords s).2))
  ∧ (∃ t1, t1 ≠ ""%string
           ∧ (Index.getOrCreateAuthToken s).1 = Ok t1
           ∧ Index.getOrCreateAuthToken (Index.getOrCreateAuthToken s).2
             = (Ok t1, (Index.getOrCreateAuthToken s).2))
  ∧ (∃ t2, t2 ≠ ""%string
           ∧ (Database.getOrCreateAuthToken s).1 = Ok t2
           ∧ Database.getOrCreateAuthToken (Database.getOrCreateAuthToken s).2
             = (Ok t2, (Database.getOrCreateAuthToken s).2))
  ∧ (truthy (getItem (storage s) Index.DB_AUTH_TOKEN_KEY) = false →
     let fresh := getRandomValues 32 (world s) in
     Index.getOrCreateAuthToken s
       = (Ok (btoa fresh.1),
          {| storage := setItem (storage s) Index.DB_AUTH_TOKEN_KEY (btoa fresh.1);
             world := fresh.2 |}))
  ∧ (truthy (getItem (storage s) Database.DB_TOKEN_KEY) = false →
     let fresh := getRandomValues 32 (world s) in
     Database.getOrCreateAuthToken s
       = (Ok (hex_of_bytes false fresh.1),
          {| storage := setItem (storage s) Database.DB_TOKEN_KEY (hex_of_bytes false fresh.1);
             world := fresh.2 |})).
Proof.
  intros Ht.
  split; [|split; [|split; [|split; [|split]]]].
  - intros Hs. split; [by apply Index_token_existing|].
    split; [intros; by apply Index_initializeDatabase_keeps|].
    split; [intros; by apply Index_addDatabaseRecord_keeps|].
    split; [by apply Index_retrieveDatabaseSchema_keeps|].
    by apply Index_retrieveDatabaseRecords_keeps.
  - intros Hs. split; [by apply Database_token_existing|].
    split; [intros; by apply Database_initializeDatabase_keeps|].
    split; [intros; by apply Database_addDatabaseRecord_keeps|].
    split; [by apply Database_retrieveDatabaseSchema_keeps|].
    by apply Database_retrieveDatabaseRecords_keeps.
  - apply Index_token_twice.
  - apply Database_token_twice.
  - apply Index_token_minted.
  - apply Database_token_minted.
Qed.

Lemma token_is_stable_witness :
  let st : Storage :=
    {[ Index.DB_NAMESPACE_KEY := Offline.a_namespace;
       Index.DB_RECORDS_KEY := "[1]"%string;
       Index.DB_AUTH_TOKEN_KEY := "5ec2e7"%string ]} in
  let s := Offline.session st in
  @Index.getOrCreateAuthToken Offline.platform s = (Ok "5ec2e7"%string, s)
  ∧ holds Index.DB_AUTH_TOKEN_KEY "5ec2e7"
      (storage (@Index.retrieveDatabaseRecords Offline.platform s).2).
Proof.
  intros st s.
  destruct (@token_is_stable Offline.platform s "5ec2e7"%string ltac:(discriminate))
    as (HI & _).
  destruct (HI eq_refl) as (H1 & _ & _ & _ & H5). split; [exact H1|exact H5].
Defined.

(** A token stored as the empty string is not returned: a new one takes
    its place. *)
Lemma empty_token_is_replaced :
  let s := Offline.session {[ Index.DB_AUTH_TOKEN_KEY := ""%string ]} in
  let minted := "AAECAwQFBgcICQoLDA0ODxAREhMUFRYXGBkaGxwdHh8="%string in
  getItem (storage s) Index.DB_AUTH_TOKEN_KEY = Some ""%string
  ∧ (@Index.getOrCreateAuthToken Offline.platform s).1 = Ok minted
  ∧ getItem (storage (@Index.getOrCreateAuthToken Offline.platform s).2)
      Index.DB_AUTH_TOKEN_KEY = Some minted.
Proof. repeat split. Qed.

(** *** Listing *)




End StoreClaims.

(** ** Schema validation *)
Module SchemaClaims.
Import Database SchemaSpec.
Local Open Scope string_scope.







(** A declared type outside the five is not checked, and a schema without
    a [fields] property declares nothing. *)
Lemma schema_validation_unknown_type :
  validateDataAgainstSchema (JObj [("age", JStr "x")])
    (JObj [("fields", JObj [("age", JObj [("type", JStr "integer")])])])
  = {| isValid := true; error := None |}
  ∧ validateDataAgainstSchema (JObj [])
      (JObj [("name", JObj [("type", JStr "string"); ("required", JBool true)])])
    = {| isValid := true; error := None |}.
Proof. split; reflexivity. Qed.

End SchemaClaims.

(** ** Encryption *)
Module CryptoClaims.
Import Store StoreFacts Codec.
Local Open Scope store_scope.

Lemma slice_prefix {A} (l1 l2 : list A) : slice (l1 ++ l2) 0 (length l1) = l1.
Proof. unfold slice. by rewrite Nat.sub_0_r, drop_0, take_app_length. Qed.


(** The closed environment keeps the contract. *)
Lemma Offline_unseal_seal (key key' data : bytes) :
  Offline.unseal key' (Offline.seal key ++ data) = if decide (key = key') then Some data else None.
Proof.
  revert key. induction key' as [|b key' IH]; intros [|b1 key]; unfold Offline.seal.
  - done.
  - by rewrite decide_False.
  - cbn. rewrite decide_False by done. by destruct data.
  - cbn [map concat app Offline.unseal]. rewrite Ascii.eqb_refl. cbn [andb].
    fold (Offline.seal key).
    destruct (Ascii.eqb_spec b b1) as [->|Hne].
    + rewrite IH. destruct (decide (key = key')) as [->|Hk].
      * by rewrite decide_True.
      * rewrite decide_False; [done|]. by intros [= ?].
    + rewrite decide_False; [done|]. by intros [= ? ?].
Qed.

Lemma Offline_correct : @Aead.correct Offline.platform.
Proof.
  intros key iv data.
  change (Offline.unseal key (Offline.seal key ++ data) = Some data).
  rewrite Offline_unseal_seal. by rewrite decide_True.
Qed.



End CryptoClaims.

(** * Further properties of the code *)

(** ** Base64 and hexadecimal helpers *)
Module CodecProps.
Import JS Codec NamespaceFacts Tables.

Lemma length_list_ascii_of_string (s : string) :
  length (list_ascii_of_string s) = String.length s.
Proof. induction s as [|c s IH]; simpl; [done|]. by rewrite IH. Qed.

Lemma atob_empty : atob "" = Some [].
Proof. reflexivity. Qed.

(** X1.  isValidBase64 accepts exactly the texts that btoa produces: a string
    passes if and only if it is the base64 text of some sequence of
    bytes.  utils/common.js and index.js hold the same function. *)
Theorem isValidBase64_exact (str : string) :
  (Common.isValidBase64 str = true ↔ ∃ b : bytes, str = btoa b)
  ∧ Index.isValidBase64 str = Common.isValidBase64 str.
Proof.
  split; [|reflexivity].
  split.
  - intros H. destruct (isValidBase64_canonical str H) as (l & _ & ->). by exists l.
  - intros [b ->]. unfold Common.isValidBase64, btoa.
    rewrite atob_base64_encode. apply String.eqb_refl.
Qed.

Lemma decode_encode (text : string) :
  Index.decodeFromBase64 (Index.encodeToBase64 text) = text.
Proof.
  unfold Index.decodeFromBase64, Index.encodeToBase64, btoa.
  by rewrite atob_base64_encode, string_of_list_ascii_of_string.
Qed.

(** X2.  decodeFromBase64 undoes encodeToBase64 (index.js) on every text, an
    encoded text always passes isValidBase64, and encoding undoes decoding
    exactly on the texts that pass isValidBase64.  Texts are sequences of
    8-bit code units, on which btoa does not raise. *)
Theorem base64_text_round_trip (text : string) :
  Index.decodeFromBase64 (Index.encodeToBase64 text) = text
  ∧ Index.isValidBase64 (Index.encodeToBase64 text) = true
  ∧ (Index.encodeToBase64 (Index.decodeFromBase64 text) = text
     ↔ Index.isValidBase64 text = true).
Proof.
  unfold Index.decodeFromBase64, Index.encodeToBase64, Index.isValidBase64, btoa.
  rewrite atob_base64_encode, string_of_list_ascii_of_string, String.eqb_refl.
  split; [done|]. split; [done|].
  destruct (atob text) as [b|] eqn:Hb.
  - rewrite list_ascii_of_string_of_list_ascii. by rewrite String.eqb_eq.
  - split; [|done]. cbn. intros <-. by rewrite atob_empty in Hb.
Qed.

(** *** Hexadecimal text *)

Lemma all_ascii_complete (c : ascii) : In c all_ascii.
Proof.
  unfold all_ascii. rewrite <- (ascii_nat_embedding c).
  apply in_map, in_seq. pose proof (nat_ascii_bounded c). lia.
Qed.

Lemma forall_ascii (P : ascii → bool) :
  forallb P all_ascii = true → ∀ c, P c = true.
Proof.
  intros H c. rewrite forallb_forall in H. apply H, all_ascii_complete.
Qed.

Lemma hex_pair (a b : ascii) :
  is_hex_digit a = true → is_hex_digit b = true →
  let c := chr (fromCharCode (parseInt16 [a; b])) in
  fromCharCode (parseInt16 [a; b]) = code c
  ∧ hex_byte true c = [upper_char a; upper_char b].
Proof.
  intros Ha Hb.
  pose proof (forall_ascii
    (λ a, forallb (λ b, implb (is_hex_digit a && is_hex_digit b)
       (let c := chr (fromCharCode (parseInt16 [a; b])) in
        (fromCharCode (parseInt16 [a; b]) =? code c)
        && bool_decide (hex_byte true c = [upper_char a; upper_char b]))) all_ascii)) as H.
  specialize (H ltac:(vm_compute; reflexivity) a).
  rewrite forallb_forall in H. specialize (H b (all_ascii_complete b)).
  rewrite Ha, Hb in H. cbn [andb implb] in H.
  apply andb_true_iff in H as [H1 H2]. apply N.eqb_eq in H1. apply bool_decide_eq_true_1 in H2.
  done.
Qed.

Lemma hex_text_bytes (l : list ascii) :
  forallb is_hex_digit l = true → Nat.even (length l) = true →
  ∃ bs : bytes,
    map (λ p, fromCharCode (parseInt16 p)) (pairs l) = map code bs
    ∧ concat (map (hex_byte true) bs) = map upper_char l.
Proof.
  induction l as [| a | a b r IH] using list_ind2.
  - by exists [].
  - done.
  - intros Hhex Heven. cbn [forallb] in Hhex.
    apply andb_true_iff in Hhex as [Ha Hhex]. apply andb_true_iff in Hhex as [Hb Hhex].
    destruct (IH Hhex Heven) as (bs & Hcodes & Htext).
    destruct (hex_pair a b Ha Hb) as [Hc Hx].
    exists (chr (fromCharCode (parseInt16 [a; b])) :: bs).
    cbn [pairs map concat]. rewrite <- Hc, Hcodes, Hx, Htext. done.
Qed.

Lemma strip_0x_hex (l : list ascii) :
  forallb is_hex_digit l = true → Common.strip_0x l = l.
Proof.
  destruct l as [|a [|b r]]; [done|by destruct a as [[] [] [] [] [] [] [] []]|].
  intros H. cbn [forallb] in H.
  apply andb_true_iff in H as [_ H]. apply andb_true_iff in H as [Hb _].
  unfold Common.strip_0x.
  destruct (Ascii.eqb a "0") eqn:Ha0; [apply Ascii.eqb_eq in Ha0 as ->|].
  - destruct (Ascii.eqb b "x") eqn:Hbx; [apply Ascii.eqb_eq in Hbx as ->; by vm_compute in Hb|].
    destruct b as [[] [] [] [] [] [] [] []]; first [done | by cbn in Hbx].
  - destruct a as [[] [] [] [] [] [] [] []]; first [done | by cbn in Ha0].
Qed.

(** X3.  For a non-empty text of hexadecimal digits of even length,
    base64ToHex(hexToBase64(hex)) of utils/common.js is hex in upper
    case: the bytes survive, the case of the letters does not. *)
Theorem hex_base64_hex (hex : string) :
  Database.is_hex_text hex = true → Nat.even (String.length hex) = true →
  Common.base64ToHex (Common.hexToBase64 hex) = toUpperCase hex.
Proof.
  unfold Database.is_hex_text. intros Hhex Heven.
  apply andb_true_iff in Hhex as [_ Hhex]. fold is_hex_digit in Hhex.
  change (forallb is_hex_digit (list_ascii_of_string hex) = true) in Hhex.
  rewrite <- length_list_ascii_of_string in Heven.
  destruct (hex_text_bytes _ Hhex Heven) as (bs & Hcodes & Htext).
  unfold Common.hexToBase64. rewrite strip_0x_hex by done.
  rewrite Hcodes, btoa_units_codes. cbn [default from_option].
  unfold id. rewrite Common_base64ToHex_encode. unfold hex_of_bytes, toUpperCase. by rewrite Htext.
Qed.

Lemma hex_base64_hex_witness :
  Common.base64ToHex (Common.hexToBase64 "00aBff") = "00ABFF"%string.
Proof. apply (hex_base64_hex "00aBff"); reflexivity. Defined.

End CodecProps.

(** ** Namespaces *)
Module NamespaceProps.
Import JS Codec NamespaceFacts Tables CodecProps.
Local Open Scope nat_scope.

(** *** createValidNamespace of common.js *)

Lemma Common_createValidNamespace_closed (input : string) :
  let inputBytes := TextEncoder_encode input in
  let namespaceBytes := zero :: take 28 inputBytes ++ replicate (28 - length inputBytes) zero in
  Common.createValidNamespace input
    = {| Common.base64 := btoa namespaceBytes;
         Common.hex := hex_of_bytes true namespaceBytes;
         Common.plaintext := input |}.
Proof.
  intros inputBytes namespaceBytes. unfold Common.createValidNamespace. fold inputBytes.
  rewrite toUpperCase_hex.
  assert (foldl (λ ns i, <[S i := nth i inputBytes zero]> ns)
            (<[0:=chr 0]> (Uint8Array_new 29)) (seq 0 (length inputBytes `min` 28))
          = namespaceBytes) as ->; [|done].
  unfold Uint8Array_new, namespaceBytes.
  rewrite NamespaceClaims.copy_loop by (rewrite ?length_insert, ?length_replicate; lia).
  change (take 1 (<[0:=chr 0]> (replicate 29 zero))) with [zero].
  change (<[0:=chr 0]> (replicate 29 zero)) with (replicate 29 zero).
  rewrite drop_replicate. cbn [app]. f_equal.
  destruct (decide (length inputBytes ≤ 28)) as [Hle|Hgt].
  - replace (length inputBytes `min` 28) with (length inputBytes) by lia.
    rewrite (take_ge inputBytes 28) by lia. rewrite take_ge by lia.
    by replace (29 - S (length inputBytes)) with (28 - length inputBytes) by lia.
  - replace (length inputBytes `min` 28) with 28 by lia.
    by replace (28 - length inputBytes) with 0 by lia.
Qed.

Lemma hex_byte_zero (c : ascii) : hex_byte true c = ["0"; "0"]%char → c = zero.
Proof.
  intros H.
  pose proof (forall_ascii
    (λ c, implb (bool_decide (hex_byte true c = ["0"; "0"]%char)) (Ascii.eqb c zero))) as Hc.
  specialize (Hc ltac:(vm_compute; reflexivity) c). cbn beta in Hc.
  rewrite bool_decide_eq_true_2 in Hc by done. by apply Ascii.eqb_eq.
Qed.

Lemma Common_not_reserved (c : ascii) (rest : bytes) :
  c ≠ zero →
  existsb (λ reservedNamespace, String.eqb (hex_of_bytes true (zero :: c :: rest)) reservedNamespace)
          (Common.RESERVED_NAMESPACES.*2) = false.
Proof.
  intros Hc. unfold hex_of_bytes. cbn [map concat].
  change (hex_byte true zero) with ["0"; "0"]%char.
  destruct (hex_byte true c) as [|h1 [|h2 [|]]] eqn:Hx; try discriminate Hx.
  cbn [app string_of_list_ascii].
  assert (h1 ≠ "0"%char ∨ h2 ≠ "0"%char) as Hne.
  { destruct (decide (h1 = "0"%char)) as [->|]; [|by left].
    destruct (decide (h2 = "0"%char)) as [->|]; [|by right].
    by apply hex_byte_zero in Hx. }
  cbn [Common.RESERVED_NAMESPACES fmap list_fmap snd existsb String.eqb Ascii.eqb Bool.eqb].
  repeat match goal with
  | |- context [Ascii.eqb ?a ?b] => 
      let E := fresh in destruct (Ascii.eqb a b) eqn:E;
      [apply Ascii.eqb_eq in E; subst|]
  end; try done; destruct Hne; done.
Qed.

Lemma Common_validate_encoded (l : bytes) :
  length l = 29 → nth 0 l zero = zero →
  Common.validateNamespace (btoa l)
    = if Common.isReservedNamespace (btoa l)
      then {| Common.isValid := false; Common.error := Some Common.ReservedNamespace |}
      else {| Common.isValid := true; Common.error := None |}.
Proof.
  intros Hl H0. unfold Common.validateNamespace, Common.isValidBase64, btoa.
  rewrite atob_base64_encode, String.eqb_refl. cbn [negb].
  rewrite Common_base64ToHex_encode, string_length_hex, Hl. cbn [Nat.mul Nat.add Nat.eqb negb].
  destruct l as [|v l]; [done|]. cbn [nth] in H0. subst v.
  change (hex_of_bytes true (zero :: l))
    with (String "0" (String "0" (hex_of_bytes true l))).
  cbn [substring]. replace (substring 0 0 (hex_of_bytes true l)) with ""%string
    by by destruct (hex_of_bytes true l).
  change (parseInt16 (list_ascii_of_string "00")) with (Some 0%Z).
  by rewrite bool_decide_eq_true_2 by done.
Qed.

(** X4.  What createValidNamespace of utils/common.js makes of a text that
    does not begin with the NUL character is accepted by validateNamespace
    of the same file; its hex field is base64ToHex of its base64 field and
    has 58 digits. *)
Theorem Common_created_namespace_is_valid (input : string) :
  (∀ rest, input ≠ String zero rest) →
  let namespace := Common.createValidNamespace input in
  Common.validateNamespace (Common.base64 namespace)
    = {| Common.isValid := true; Common.error := None |}
  ∧ Common.hex namespace = Common.base64ToHex (Common.base64 namespace)
  ∧ String.length (Common.hex namespace) = 58.
Proof.
  intros Hnul namespace. subst namespace.
  rewrite Common_createValidNamespace_closed. cbn [Common.base64 Common.hex].
  set (l := zero :: _).
  assert (length l = 29) as Hl.
  { unfold l. cbn [length]. rewrite length_app, length_take, length_replicate. lia. }
  unfold btoa at 2. rewrite Common_base64ToHex_encode, string_length_hex, Hl.
  split; [|done].
  rewrite Common_validate_encoded by done.
  unfold Common.isReservedNamespace, btoa. rewrite Common_base64ToHex_encode.
  destruct input as [|c rest].
  - subst l. vm_compute. reflexivity.
  - subst l. cbn [TextEncoder_encode list_ascii_of_string take app].
    rewrite Common_not_reserved; [done|]. intros ->. by apply (Hnul rest).
Qed.

Lemma Common_created_namespace_is_valid_witness :
  Common.validateNamespace (Common.base64 (Common.createValidNamespace "db-x1"))
    = {| Common.isValid := true; Common.error := None |}.
Proof. apply (Common_created_namespace_is_valid "db-x1"). intros rest. discriminate. Defined.

(** *** Which inputs share a namespace *)

Lemma base64_encode_inj (l1 l2 : bytes) : base64_encode l1 = base64_encode l2 → l1 = l2.
Proof.
  intros H. pose proof (atob_base64_encode l1) as H1. rewrite H, atob_base64_encode in H1.
  congruence.
Qed.

Lemma right_padding_inj (a b : bytes) (n m : nat) :
  Forall (λ c, c ≠ zero) a → Forall (λ c, c ≠ zero) b →
  a ++ replicate n zero = b ++ replicate m zero → a = b.
Proof.
  intros Ha. revert b. induction Ha as [|x a Hx Ha IH]; intros b Hb H.
  - destruct Hb as [|y b Hy Hb]; [done|]. destruct n; simplify_eq/=.
  - destruct Hb as [|y b Hy Hb].
    + destruct m; simplify_eq/=.
    + simplify_eq/=. f_equal. by apply IH.
Qed.

Lemma left_padding_inj (a b : bytes) (n m : nat) :
  Forall (λ c, c ≠ zero) a → Forall (λ c, c ≠ zero) b →
  replicate n zero ++ a = replicate m zero ++ b → a = b.
Proof.
  intros Ha Hb. revert m. induction n as [|n IH]; intros m H.
  - destruct m as [|m]; [done|]. destruct Ha; simplify_eq/=.
  - destruct m as [|m].
    + destruct Hb; simplify_eq/=.
    + simplify_eq/=. by apply (IH m).
Qed.

Lemma Forall_take_nonzero (l : bytes) (n : nat) :
  Forall (λ c, c ≠ zero) l → Forall (λ c, c ≠ zero) (take n l).
Proof. apply Forall_take. Qed.

(** X5.  Two texts without NUL bytes get the same namespace from
    createValidNamespace of utils/common.js exactly when their first 28
    bytes agree: longer texts are cut without notice, and different texts
    of at most 28 bytes never share a namespace. *)
Theorem Common_namespace_collisions (a b : string) :
  let bytes_a := TextEncoder_encode a in
  let bytes_b := TextEncoder_encode b in
  Forall (λ c, c ≠ zero) bytes_a → Forall (λ c, c ≠ zero) bytes_b →
  (Common.base64 (Common.createValidNamespace a) = Common.base64 (Common.createValidNamespace b)
   ↔ take 28 bytes_a = take 28 bytes_b).
Proof.
  intros bytes_a bytes_b Ha Hb.
  rewrite !NamespaceClaims.Common_createValidNamespace_bytes. fold bytes_a bytes_b.
  split.
  - intros H%base64_encode_inj. injection H as H.
    eapply right_padding_inj; [| |exact H]; by apply Forall_take.
  - intros H. unfold btoa. do 2 f_equal. rewrite H. f_equal.
    assert (length (take 28 bytes_a) = length (take 28 bytes_b)) as Hl by by rewrite H.
    rewrite !length_take in Hl. f_equal. lia.
Qed.

Lemma Common_namespace_collisions_witness :
  Common.base64 (Common.createValidNamespace "a-name-of-exactly-28-bytes-X")
  = Common.base64 (Common.createValidNamespace "a-name-of-exactly-28-bytes-X-and-more").
Proof.
  apply (Common_namespace_collisions "a-name-of-exactly-28-bytes-X"
           "a-name-of-exactly-28-bytes-X-and-more").
  - repeat constructor; discriminate.
  - repeat constructor; discriminate.
  - reflexivity.
Defined.

(** X6.  Two texts without NUL bytes get the same namespace from
    createValidNamespace of index.js exactly when their first 10 bytes
    agree. *)
Theorem Index_namespace_collisions `{Platform} (a b : string) (w : World) :
  let bytes_a := TextEncoder_encode a in
  let bytes_b := TextEncoder_encode b in
  Forall (λ c, c ≠ zero) bytes_a → Forall (λ c, c ≠ zero) bytes_b →
  ((Index.createValidNamespace (Some a) w).1 = (Index.createValidNamespace (Some b) w).1
   ↔ take 10 bytes_a = take 10 bytes_b).
Proof.
  intros bytes_a bytes_b Ha Hb.
  rewrite !NamespaceClaims.Index_createValidNamespace_string. fold bytes_a bytes_b.
  cbn [fst]. unfold Index.Buffer_toString_base64, Index.padded. split.
  - intros Heq. apply (inj Some), base64_encode_inj in Heq.
    apply app_inv_head in Heq.
    eapply left_padding_inj; [| |exact Heq]; by apply Forall_take.
  - intros Heq. do 3 f_equal. rewrite Heq. f_equal.
    assert (length (take 10 bytes_a) = length (take 10 bytes_b)) as Hl by by rewrite Heq.
    rewrite !length_take in Hl. f_equal. lia.
Qed.

Lemma Index_namespace_collisions_witness :
  (@Index.createValidNamespace Offline.platform (Some "yellow-mountain-1"%string) 0%nat).1
  = (@Index.createValidNamespace Offline.platform (Some "yellow-mouse-2"%string) 0%nat).1.
Proof.
  apply (@Index_namespace_collisions Offline.platform "yellow-mountain-1" "yellow-mouse-2" 0%nat).
  - repeat constructor; discriminate.
  - repeat constructor; discriminate.
  - reflexivity.
Defined.

(** *** createValidNamespace and validateNamespace of index.js *)

Lemma prefix_length (t s : string) :
  String.prefix t s = true → String.length t ≤ String.length s.
Proof.
  revert t. induction s as [|b s IH]; intros [|a t]; simpl; try done; try lia.
  destruct (ascii_dec a b); [|done]. intros Hp%IH. lia.
Qed.

Lemma prefix_same_length (t s : string) :
  String.prefix t s = true → String.length t = String.length s → t = s.
Proof.
  revert t. induction s as [|b s IH]; intros [|a t]; simpl; try done.
  destruct (ascii_dec a b) as [->|]; [|done]. intros Hp Hl. f_equal. apply IH; [done|lia].
Qed.

Lemma includes_length (s t : string) :
  includes s t = true → String.length t ≤ String.length s.
Proof.
  induction s as [|a s IH]; cbn [includes]; intros [Hp|Hi]%orb_true_iff.
  - by apply prefix_length.
  - done.
  - by apply prefix_length.
  - apply IH in Hi. simpl. lia.
Qed.

Lemma includes_same_length (s t : string) :
  includes s t = true → String.length s = String.length t → s = t.
Proof.
  destruct s as [|a s]; cbn [includes]; intros [Hp|Hi]%orb_true_iff Hl.
  - symmetry. by apply prefix_same_length.
  - done.
  - symmetry. by apply prefix_same_length.
  - apply includes_length in Hi. simpl in Hl. lia.
Qed.

Lemma hex_of_bytes_eq (u1 u2 : bool) (l1 l2 : bytes) :
  hex_of_bytes u1 l1 = hex_of_bytes u2 l2 → l1 = l2.
Proof.
  intros H. rewrite <- (Buffer_from_hex_hex u1 l1), <- (Buffer_from_hex_hex u2 l2). by rewrite H.
Qed.

Lemma Index_isReservedNamespace_id (id : bytes) :
  length id = 10 →
  Index.isReservedNamespace (base64_encode (replicate 19 zero ++ id))
    = bool_decide (id ∈ matched_ids).
Proof.
  intros Hid. unfold Index.isReservedNamespace. rewrite Buffer_from_base64_encode.
  unfold Index.Buffer_toString_hex.
  set (l := replicate 19 zero ++ id).
  assert (String.length (hex_of_bytes false l) = 58) as Hlen.
  { rewrite string_length_hex. unfold l. rewrite length_app, length_replicate. lia. }
  destruct (bool_decide (id ∈ matched_ids)) eqn:Hin.
  - apply bool_decide_eq_true_1 in Hin. unfold matched_ids in Hin.
    rewrite !elem_of_cons, elem_of_nil in Hin.
    destruct Hin as [->|[->|[->|[]]]]; vm_compute; reflexivity.
  - apply bool_decide_eq_false_1 in Hin.
    apply not_true_is_false. intros (r & Hr & Hinc)%existsb_exists. apply Hin. clear Hin.
    cbn [Index.RESERVED_NAMESPACES fmap list_fmap snd In] in Hr.
    destruct Hr as [<-|[<-|[<-|[<-|[<-|[<-|[]]]]]]].
    + apply includes_same_length in Hinc; [|by rewrite Hlen].
      change (hex_of_bytes false l
              = hex_of_bytes false (replicate 19 zero ++ replicate 9 zero ++ [chr 1]%N)) in Hinc.
      apply hex_of_bytes_eq, app_inv_head in Hinc. subst id. set_solver.
    + apply includes_same_length in Hinc; [|by rewrite Hlen].
      change (hex_of_bytes false l
              = hex_of_bytes false (replicate 19 zero ++ replicate 9 zero ++ [chr 2]%N)) in Hinc.
      apply hex_of_bytes_eq, app_inv_head in Hinc. subst id. set_solver.
    + apply includes_same_length in Hinc; [|by rewrite Hlen].
      change (hex_of_bytes false l
              = hex_of_bytes false (replicate 19 zero ++ replicate 9 zero ++ [chr 4]%N)) in Hinc.
      apply hex_of_bytes_eq, app_inv_head in Hinc. subst id. set_solver.
    + apply includes_same_length in Hinc; [|by rewrite Hlen].
      pose proof Hinc as Hl.
      change (hex_of_bytes false l
              = hex_of_bytes true (replicate 19 zero ++ replicate 9 zero ++ [chr 255]%N)) in Hl.
      apply hex_of_bytes_eq in Hl. rewrite Hl in Hinc. vm_compute in Hinc. discriminate.
    + apply includes_length in Hinc. rewrite Hlen in Hinc. vm_compute in Hinc. lia.
    + apply includes_length in Hinc. rewrite Hlen in Hinc. vm_compute in Hinc. lia.
Qed.

Lemma Index_validate_id (id : bytes) :
  length id = 10 →
  Index.validateNamespace (base64_encode (replicate 19 zero ++ id))
    = if bool_decide (id ∈ matched_ids)
      then {| Index.valid := false; Index.error := Some Index.ReservedNamespace |}
      else {| Index.valid := true; Index.error := None |}.
Proof.
  intros Hid.
  destruct (NamespaceClaims.Index_validateNamespace_rules
              (base64_encode (replicate 19 zero ++ id))) as (_ & _ & _ & Hrule).
  rewrite Buffer_from_base64_encode in Hrule.
  rewrite Hrule, Index_isReservedNamespace_id; [done..| |].
  - rewrite length_app, length_replicate. lia.
  - left. split; [done|]. intros i Hi.
    rewrite app_nth1 by (rewrite length_replicate; lia).
    rewrite nth_lookup.
    destruct (replicate 19 zero !! i) as [c|] eqn:E; [|done].
    by apply lookup_replicate in E as [-> _].
Qed.

(** X7.  createValidNamespace of index.js always returns the base64 text of
    19 zero bytes followed by a 10-byte id: the first 10 bytes of the text
    with zero bytes in front when it is shorter, or 10 random bytes when
    no text is given.  validateNamespace of index.js accepts the result
    unless the id is nine zero bytes followed by 1, 2 or 4, which it
    rejects as reserved. *)
Theorem Index_created_namespace_is_valid `{Platform} (input : option string) (w : World) :
  ∃ id : bytes,
    length id = 10
    ∧ (Index.createValidNamespace input w).1
      = Some (Index.Buffer_toString_base64 (replicate 19 zero ++ id))
    ∧ id = match input with
           | Some text =>
               let inputBytes := TextEncoder_encode text in
               replicate (10 - length inputBytes) zero ++ take 10 inputBytes
           | None => (getRandomValues 10 w).1
           end
    ∧ Index.validateNamespace (Index.Buffer_toString_base64 (replicate 19 zero ++ id))
      = if bool_decide (id ∈ matched_ids)
        then {| Index.valid := false; Index.error := Some Index.ReservedNamespace |}
        else {| Index.valid := true; Index.error := None |}.
Proof.
  destruct input as [text|].
  - eexists. split; [|split; [|split; [reflexivity|]]].
    + rewrite length_app, length_replicate, length_take. lia.
    + by rewrite NamespaceClaims.Index_createValidNamespace_string.
    + apply Index_validate_id. rewrite length_app, length_replicate, length_take. lia.
  - exists (getRandomValues 10 w).1.
    pose proof (StoreFacts.length_getRandomValues 10 w) as Hlen.
    split; [done|]. split; [|split; [done|by apply Index_validate_id]].
    unfold Index.createValidNamespace.
    destruct (getRandomValues 10 w) as [randomPart w']. cbn [fst] in *.
    unfold Uint8Array_new.
    rewrite NamespaceClaims.Uint8Array_set_fits by (rewrite length_replicate; lia).
    cbn [mbind option_bind].
    rewrite take_replicate, drop_replicate, Hlen.
    change (replicate (28 - (18 + 10)) zero) with (@nil ascii). rewrite app_nil_r.
    change (<[0:=chr 0]> (replicate 29 zero)) with (replicate 29 zero).
    rewrite NamespaceClaims.Uint8Array_set_fits
      by (rewrite length_app, !length_replicate; lia).
    cbn [mbind option_bind]. do 2 f_equal.
    rewrite take_replicate, drop_replicate, length_app, length_replicate, Hlen.
    change (replicate (29 - (1 + (18 `min` 28 + 10))) zero) with (@nil ascii).
    rewrite app_nil_r.
    change (1 `min` 29) with 1. change (18 `min` 28) with 18.
    by rewrite app_assoc, <- replicate_add.
Qed.

(** *** generateRandomNamespace *)

Lemma forallb_draws (P : nat → nat → bool) (i j : nat) :
  forallb (λ i, forallb (P i) (seq 0 30)) (seq 0 30) = true →
  i < 30 → j < 30 → P i j = true.
Proof.
  intros Hall Hi Hj. rewrite forallb_forall in Hall.
  specialize (Hall i ltac:(apply in_seq; lia)). rewrite forallb_forall in Hall.
  apply Hall, in_seq. lia.
Qed.

Lemma in_table {A} (f : nat → nat → A) (i j : nat) :
  i < 30 → j < 30 →
  In (i, j, f i j) (flat_map (λ i, map (λ j, (i, j, f i j)) (seq 0 30)) (seq 0 30)).
Proof.
  intros Hi Hj. apply in_flat_map. exists i. split; [apply in_seq; lia|].
  apply (in_map (λ j, (i, j, f i j))), in_seq. lia.
Qed.

Lemma Common_generateRandomNamespace_distinct (i j i' j' : nat) :
  i < 30 → j < 30 → i' < 30 → j' < 30 →
  Common.base64 (Words.Common_generateRandomNamespace i' j')
    = Common.base64 (Words.Common_generateRandomNamespace i j) →
  i' = i ∧ j' = j.
Proof.
  intros Hi Hj Hi' Hj' Heq.
  set (f := λ i j, Common.base64 (Words.Common_generateRandomNamespace i j)).
  assert (let table := flat_map (λ i, map (λ j, (i, j, f i j)) (seq 0 30)) (seq 0 30) in
          forallb (λ '(i, j, b), forallb (λ '(i', j', b'),
            implb (String.eqb b' b) ((i' =? i) && (j' =? j))) table) table = true) as Hall
    by (vm_compute; reflexivity).
  cbn zeta in Hall. rewrite forallb_forall in Hall.
  specialize (Hall _ (in_table f i j Hi Hj)). cbn beta iota in Hall.
  rewrite forallb_forall in Hall.
  specialize (Hall _ (in_table f i' j' Hi' Hj')). cbn beta iota in Hall.
  unfold f in Hall. rewrite Heq, String.eqb_refl in Hall. cbn [implb] in Hall.
  apply andb_true_iff in Hall as [->%Nat.eqb_eq ->%Nat.eqb_eq]. done.
Qed.

(** X8.  Every draw of generateRandomNamespace of utils/common.js (one of 30
    adjectives, one of 30 nouns) gives a namespace that validateNamespace
    accepts; the name has at most 15 characters and is carried whole,
    after the version byte, and two different draws never give the same
    namespace. *)
Theorem Common_generateRandomNamespace_sound (i j : nat) :
  i < 30 → j < 30 →
  let namespace := Words.Common_generateRandomNamespace i j in
  let text := Common.plaintext namespace in
  Common.validateNamespace (Common.base64 namespace)
    = {| Common.isValid := true; Common.error := None |}
  ∧ String.length text ≤ 15
  ∧ atob (Common.base64 namespace)
    = Some (zero :: TextEncoder_encode text ++ replicate (28 - String.length text) zero)
  ∧ (∀ i' j', i' < 30 → j' < 30 →
       Common.base64 (Words.Common_generateRandomNamespace i' j') = Common.base64 namespace →
       i' = i ∧ j' = j).
Proof.
  intros Hi Hj namespace text. subst text namespace.
  pose proof (forallb_draws
    (λ i j,
       let ns := Words.Common_generateRandomNamespace i j in
       match Common.validateNamespace (Common.base64 ns) with
       | {| Common.isValid := true; Common.error := None |} => true
       | _ => false
       end
       && (String.length (Common.plaintext ns) <=? 15)
       && bool_decide (atob (Common.base64 ns)
            = Some (zero :: TextEncoder_encode (Common.plaintext ns)
                      ++ replicate (28 - String.length (Common.plaintext ns)) zero))) i j) as Hall.
  specialize (Hall ltac:(vm_compute; reflexivity) Hi Hj). cbn beta zeta in Hall.
  apply andb_true_iff in Hall as [Hall Hatob].
  apply andb_true_iff in Hall as [Hvalid Hlen].
  split; [|split; [|split]].
  - destruct (Common.validateNamespace _) as [[] [e|]]; done.
  - by apply Nat.leb_le.
  - by apply bool_decide_eq_true_1 in Hatob.
  - intros i' j' Hi' Hj'. by apply Common_generateRandomNamespace_distinct.
Qed.

Lemma Common_generateRandomNamespace_sound_witness :
  Common.plaintext (Words.Common_generateRandomNamespace 3 13) = "yellow-mountain"%string
  ∧ Common.validateNamespace (Common.base64 (Words.Common_generateRandomNamespace 3 13))
    = {| Common.isValid := true; Common.error := None |}.
Proof.
  split; [reflexivity|].
  apply (Common_generateRandomNamespace_sound 3 13); lia.
Defined.

Lemma list_ascii_of_string_app (a b : string) :
  list_ascii_of_string (a +:+ b) = list_ascii_of_string a ++ list_ascii_of_string b.
Proof. induction a as [|c a IH]; simpl; [done|]. by rewrite IH. Qed.

Lemma Index_generateRandomNamespace_returns `{Platform} (i j n : nat) (w : World) :
  let plaintext := Words.word Words.adjectives i +:+ "-" +:+ Words.word Words.nouns j
                   +:+ "-" +:+ pretty n in
  let base64 := Index.Buffer_toString_base64 (Index.padded (TextEncoder_encode plaintext)) in
  Words.Index_generateRandomNamespace i j n w
  = Some {| Words.plaintext := plaintext; Words.base64 := base64;
            Words.hex := Index.base64ToHex base64 |}.
Proof.
  unfold Words.Index_generateRandomNamespace.
  by rewrite NamespaceClaims.Index_createValidNamespace_string.
Qed.

(** X9.  generateRandomNamespace of index.js names the namespace
    adjective-noun-number, of which createValidNamespace keeps 10 bytes:
    when the two words have 8 letters or more together the namespace
    (base64 and hex) does not depend on the number.  That is so for 786
    of the 900 pairs of words. *)
Theorem Index_generateRandomNamespace_drops_number `{Platform} (i j n n' : nat) (w : World) :
  8 ≤ String.length (Words.word Words.adjectives i) + String.length (Words.word Words.nouns j) →
  (∃ g g', Words.Index_generateRandomNamespace i j n w = Some g
           ∧ Words.Index_generateRandomNamespace i j n' w = Some g'
           ∧ Words.base64 g = Words.base64 g' ∧ Words.hex g = Words.hex g')
  ∧ length (List.filter (λ '(i, j), 8 <=? String.length (Words.word Words.adjectives i)
                                         + String.length (Words.word Words.nouns j))
              (i ← seq 0 30; j ← seq 0 30; [(i, j)])) = 786.
Proof.
  intros Hlong. split; [|vm_compute; reflexivity].
  rewrite !Index_generateRandomNamespace_returns. do 2 eexists.
  split; [done|]. split; [done|]. cbn [Words.base64 Words.hex].
  assert (Index.padded (TextEncoder_encode
            (Words.word Words.adjectives i +:+ "-" +:+ Words.word Words.nouns j
             +:+ "-" +:+ pretty n))
          = Index.padded (TextEncoder_encode
              (Words.word Words.adjectives i +:+ "-" +:+ Words.word Words.nouns j
               +:+ "-" +:+ pretty n'))) as Heq; [|by rewrite Heq].
  unfold Index.padded, TextEncoder_encode.
  set (a := Words.word Words.adjectives i) in *. set (b := Words.word Words.nouns j) in *.
  rewrite !list_ascii_of_string_app.
  rewrite <- !length_list_ascii_of_string in Hlong.
  rewrite !(app_assoc (list_ascii_of_string a)).
  rewrite !(app_assoc (list_ascii_of_string a ++ list_ascii_of_string "-")).
  rewrite !(app_assoc _ (list_ascii_of_string "-") (list_ascii_of_string (pretty _))).
  set (prefix := ((list_ascii_of_string a ++ _) ++ _) ++ _).
  assert (10 ≤ length prefix) as Hp.
  { unfold prefix. rewrite !length_app. simpl. lia. }
  rewrite !length_app, !take_app_le by done.
  assert (∀ k, 10 - (length prefix + k) = 0) as E by (intros; lia).
  by rewrite !E.
Qed.

(** The draw yellow, mountain: the numbers 7 and 512 give one
    namespace. *)
Lemma Index_generateRandomNamespace_drops_number_witness :
  ∃ g g', @Words.Index_generateRandomNamespace Offline.platform 3 13 7 0%nat = Some g
          ∧ @Words.Index_generateRandomNamespace Offline.platform 3 13 512 0%nat = Some g'
          ∧ Words.plaintext g = "yellow-mountain-7"%string
          ∧ Words.plaintext g' = "yellow-mountain-512"%string
          ∧ Words.base64 g = Words.base64 g'.
Proof.
  destruct (@Index_generateRandomNamespace_drops_number Offline.platform 3 13 7 512 0%nat
              ltac:(vm_compute; lia)) as [(g & g' & Hg & Hg' & Hbase64 & _) _].
  exists g, g'. split; [exact Hg|]. split; [exact Hg'|].
  rewrite Index_generateRandomNamespace_returns in Hg, Hg'.
  injection Hg as <-. injection Hg' as <-. split; [reflexivity|]. split; [reflexivity|].
  exact Hbase64.
Defined.

(** *** The namespace argument of the record store (database.js) *)

Lemma valid_namespace_hex (n : string) :
  Common.isValid (Common.validateNamespace n) = true →
  Database.is_hex_text n = false
  ∧ Database.namespaceHex_of n = Common.base64ToHex n
  ∧ String.length (Database.namespaceHex_of n) = 58.
Proof.
  intros Hv. destruct (NamespaceClaims.Common_valid_bytes n Hv) as (l & -> & Hl).
  assert (Database.is_hex_text (base64_encode l) = false) as Hhex.
  { unfold Database.is_hex_text. apply andb_false_iff. right.
    unfold base64_encode. rewrite list_ascii_of_string_of_list_ascii, forallb_app.
    apply andb_false_iff. right. unfold padding. rewrite Hl. reflexivity. }
  unfold Database.namespaceHex_of. rewrite Hhex.
  by rewrite Common_base64ToHex_encode, string_length_hex, Hl.
Qed.

Lemma is_hex_text_hex (l : bytes) : l ≠ [] → Database.is_hex_text (hex_of_bytes true l) = true.
Proof.
  intros Hl. unfold Database.is_hex_text, hex_of_bytes.
  rewrite list_ascii_of_string_of_list_ascii. apply andb_true_iff. split.
  - by destruct l.
  - clear. induction l as [|b l IH]; [done|].
    cbn [map concat]. rewrite forallb_app, IH, andb_true_r.
    pose proof (forall_ascii
      (λ b, forallb (λ c, bool_decide (is_Some (digits_prefix 16 None [c])))
              (hex_byte true b))) as Hb.
    apply Hb. vm_compute. reflexivity.
Qed.

Lemma toUpperCase_upper_hex (l : bytes) : toUpperCase (hex_of_bytes true l) = hex_of_bytes true l.
Proof.
  unfold toUpperCase, hex_of_bytes. rewrite list_ascii_of_string_of_list_ascii. f_equal.
  induction l as [|b l IH]; [done|]. cbn [map concat]. rewrite map_app, IH. f_equal.
  pose proof (forall_ascii
    (λ b, bool_decide (map upper_char (hex_byte true b) = hex_byte true b))) as Hb.
  specialize (Hb ltac:(vm_compute; reflexivity) b). by apply bool_decide_eq_true_1 in Hb.
Qed.

(** X10.  database.js tells a hex namespace from a base64 one by the test
    /^[0-9A-Fa-f]+$/.  A namespace that validateNamespace of
    utils/common.js accepts never passes that test, so its hex form is
    base64ToHex of it: 58 digits, from which hexToBase64 gives the
    namespace back, and which the same conversion leaves as it is. *)
Theorem namespaceHex_of_valid_namespace (n : string) :
  Common.isValid (Common.validateNamespace n) = true →
  Database.is_hex_text n = false
  ∧ Database.namespaceHex_of n = Common.base64ToHex n
  ∧ String.length (Database.namespaceHex_of n) = 58
  ∧ Common.hexToBase64 (Database.namespaceHex_of n) = n
  ∧ Database.namespaceHex_of (Database.namespaceHex_of n) = Database.namespaceHex_of n.
Proof.
  intros Hv. destruct (valid_namespace_hex n Hv) as (Hhex & Heq & Hlen).
  split; [done|]. split; [done|]. split; [done|].
  destruct (NamespaceClaims.Common_valid_bytes n Hv) as (l & -> & Hl).
  rewrite Heq, Common_base64ToHex_encode, Common_hexToBase64_hex. split; [done|].
  unfold Database.namespaceHex_of. rewrite is_hex_text_hex by by destruct l.
  apply toUpperCase_upper_hex.
Qed.

Lemma namespaceHex_of_valid_namespace_witness :
  Database.namespaceHex_of Offline.a_namespace
    = "0000000000000000000000000000000000000000000000000000006162"%string.
Proof.
  destruct (namespaceHex_of_valid_namespace Offline.a_namespace ltac:(vm_compute; reflexivity))
    as (_ & -> & _). vm_compute. reflexivity.
Defined.

End NamespaceProps.

(** ** Record store *)
Module StoreProps.
Import JS Store StoreFacts ListingFacts Codec NamespaceFacts CodecProps.
Local Open Scope store_scope.

Section index.
Context `{Platform}.


(** *** encryptData and decryptData of index.js *)


(** *** submitBlob and retrieveBlob of index.js *)



(** *** What a write leaves in localStorage *)

(** An operation that only reads localStorage. *)
Lemma reads_only {A} (m : M A) (s : Session) :
  (∀ P, preserves P m) → storage (m s).2 = storage s.
Proof. intros Hm. by apply (Hm (λ st, st = storage s)). Qed.

Lemma Index_encryptData_reads_only (data token : string) (s : Session) :
  storage (Index.encryptData data token s).2 = storage s.
Proof. apply reads_only. intros P. unfold Index.encryptData. preserve. Qed.

Lemma Index_submitBlob_reads_only (namespace data : string) (s : Session) :
  storage (Index.submitBlob namespace data s).2 = storage s.
Proof. apply reads_only. intros P. unfold Index.submitBlob. preserve. Qed.

Lemma Index_token_other_key (k : string) (s : Session) :
  k ≠ Index.DB_AUTH_TOKEN_KEY →
  getItem (storage (Index.getOrCreateAuthToken s).2) k = getItem (storage s) k.
Proof.
  intros Hk. destruct (truthy (getItem (storage s) Index.DB_AUTH_TOKEN_KEY)) eqn:Ht.
  - destruct (getItem (storage s) Index.DB_AUTH_TOKEN_KEY) as [t|] eqn:Hs; [|done].
    rewrite (Index_token_existing s t Hs); [done|].
    intros ->. done.
  - rewrite (Index_token_minted s Ht). cbn [snd storage]. unfold getItem, setItem.
    by rewrite lookup_insert_ne.
Qed.

Lemma Index_token_present (s : Session) :
  truthy (getItem (storage (Index.getOrCreateAuthToken s).2) Index.DB_AUTH_TOKEN_KEY) = true.
Proof.
  destruct (truthy (getItem (storage s) Index.DB_AUTH_TOKEN_KEY)) eqn:Ht.
  - destruct (getItem (storage s) Index.DB_AUTH_TOKEN_KEY) as [t|] eqn:Hs; [|done].
    rewrite (Index_token_existing s t Hs); [by cbn [snd]; rewrite Hs|]. by intros ->.
  - rewrite (Index_token_minted s Ht). cbn [snd storage]. unfold getItem, setItem.
    rewrite lookup_insert. cbn [truthy]. apply negb_true_iff, String.eqb_neq.
    apply base64_encode_nonempty, random32_nonempty.
Qed.

(** The two ways initializeDatabase of index.js can end: it raises, with
    nothing but perhaps a new token written; or the node has taken the
    blob and the three keys are written over what was there. *)
Lemma Index_initializeDatabase_cases (namespace schema : string) (s : Session) :
  ∃ s2 : Session,
    (∀ k, k ≠ Index.DB_AUTH_TOKEN_KEY → getItem (storage s2) k = getItem (storage s) k)
    ∧ ((∃ e, Index.initializeDatabase namespace schema s = (Throw e, s2))
       ∨ (∃ height,
            namespace ≠ ""%string
            ∧ truthy (getItem (storage s2) Index.DB_AUTH_TOKEN_KEY) = true
            ∧ Index.initializeDatabase namespace schema s
              = (Ok (namespace, height),
                 {| storage :=
                      setItem (setItem (setItem (storage s2) Index.DB_NAMESPACE_KEY namespace)
                                 Index.DB_SCHEMA_HEIGHT_KEY (JS_String_opt height))
                        Index.DB_RECORDS_KEY (JSON_stringify (JArr []));
                    world := world s2 |}))).
Proof.
  remember (Index.initializeDatabase namespace schema s) as out eqn:Hout.
  unfold Index.initializeDatabase in Hout.
  destruct (String.eqb namespace "") eqn:Hns;
    [exists s; split; [done|left; eexists; by rewrite Hout]|].
  apply String.eqb_neq in Hns.
  destruct (String.eqb schema ""); [exists s; split; [done|left; eexists; by rewrite Hout]|].
  unfold bind at 1 in Hout.
  destruct (JSON_parse schema) as [schemaObj|]; cbn [or_throw ret throw] in Hout;
    [|exists s; split; [done|left; eexists; by rewrite Hout]].
  unfold bind at 1, ask at 1 in Hout. destruct (now_iso (world s)) as [createdAt w1].
  set (s1 := {| storage := storage s; world := w1 |}) in Hout.
  unfold bind at 1 in Hout.
  pose proof (Index_token_other_key) as Hother. pose proof (Index_token_present s1) as Hpresent.
  destruct (Index_token_twice s1) as (token & _ & Htoken & _).
  destruct (Index.getOrCreateAuthToken s1) as [r s2] eqn:Hrun. cbn [fst snd] in *. subst r.
  unfold bind at 1 in Hout.
  pose proof (Index_encryptData_reads_only
    (JSON_stringify (JObj [("schema", schemaObj); ("createdAt", JStr createdAt);
                           ("version", JStr "1.0")])) token s2) as Henc.
  destruct (Index.encryptData _ token s2) as [[encryptedSchema|e] s3]; cbn [snd] in Henc.
  2:{ exists s3. split; [|left; eexists; by rewrite Hout].
      intros k Hk. rewrite Henc. specialize (Hother k s1 Hk). by rewrite Hrun in Hother. }
  unfold bind at 1 in Hout.
  pose proof (Index_submitBlob_reads_only namespace (Index.encodeToBase64 encryptedSchema) s3)
    as Hsub.
  destruct (Index.submitBlob namespace _ s3) as [[result|e] s4]; cbn [snd] in Hsub.
  - exists s4. split.
    { intros k Hk. rewrite Hsub, Henc. specialize (Hother k s1 Hk). by rewrite Hrun in Hother. }
    right. exists (Index.result_height result). split; [done|]. split.
    { by rewrite Hsub, Henc. }
    by rewrite Hout.
  - exists s4. split; [|left; eexists; by rewrite Hout].
    intros k Hk. rewrite Hsub, Henc. specialize (Hother k s1 Hk). by rewrite Hrun in Hother.
Qed.

(** The two ways addDatabaseRecord of index.js can end: it raises, with
    nothing but perhaps a new token written; or the node has taken the
    blob and one entry is added at the end of the index. *)
Lemma Index_addDatabaseRecord_cases (data : string) (s : Session) :
  ∃ s2 : Session,
    (∀ k, k ≠ Index.DB_AUTH_TOKEN_KEY → getItem (storage s2) k = getItem (storage s) k)
    ∧ ((∃ e, Index.addDatabaseRecord data s = (Throw e, s2))
       ∨ (∃ height timestamp returned old w,
            truthy (getItem (storage s) Index.DB_NAMESPACE_KEY) = true
            ∧ truthy (getItem (storage s) Index.DB_SCHEMA_HEIGHT_KEY) = true
            ∧ JSON_parse (Index.records_text (getItem (storage s) Index.DB_RECORDS_KEY))
              = Some (JArr old)
            ∧ Index.addDatabaseRecord data s
              = (Ok (height, returned),
                 {| storage :=
                      setItem (storage s2) Index.DB_RECORDS_KEY
                        (JSON_stringify (JArr (old ++ [Index.record_info height timestamp])));
                    world := w |}))).
Proof.
  remember (Index.addDatabaseRecord data s) as out eqn:Hout.
  unfold Index.addDatabaseRecord in Hout.
  unfold bind at 1, localStorage_getItem at 1 in Hout.
  unfold bind at 1, localStorage_getItem at 1 in Hout.
  destruct (truthy (getItem (storage s) Index.DB_NAMESPACE_KEY)) eqn:Hns; cbn [negb orb] in Hout;
    [|exists s; split; [done|left; eexists; by rewrite Hout]].
  destruct (truthy (getItem (storage s) Index.DB_SCHEMA_HEIGHT_KEY)) eqn:Hh; cbn [negb] in Hout;
    [|exists s; split; [done|left; eexists; by rewrite Hout]].
  unfold bind at 1 in Hout.
  destruct (JSON_parse data) as [dataObj|]; cbn [or_throw ret throw] in Hout;
    [|exists s; split; [done|left; eexists; by rewrite Hout]].
  unfold bind at 1, ask at 1 in Hout. destruct (now_iso (world s)) as [createdAt w1].
  set (s1 := {| storage := storage s; world := w1 |}) in Hout.
  unfold bind at 1 in Hout.
  pose proof (Index_token_other_key) as Hother.
  destruct (Index_token_twice s1) as (token & _ & Htoken & _).
  destruct (Index.getOrCreateAuthToken s1) as [r s2] eqn:Hrun. cbn [fst snd] in *. subst r.
  assert (∀ k, k ≠ Index.DB_AUTH_TOKEN_KEY → getItem (storage s2) k = getItem (storage s) k)
    as Hframe.
  { intros k Hk. specialize (Hother k s1 Hk). by rewrite Hrun in Hother. }
  unfold bind at 1 in Hout.
  pose proof (Index_encryptData_reads_only
    (JSON_stringify (JObj [("data", dataObj); ("createdAt", JStr createdAt)])) token s2) as Henc.
  destruct (Index.encryptData _ token s2) as [[encryptedRecord|e] s3]; cbn [snd] in Henc.
  2:{ exists s3. split; [|left; eexists; by rewrite Hout]. intros k Hk. rewrite Henc. by apply Hframe. }
  unfold bind at 1 in Hout.
  pose proof (Index_submitBlob_reads_only
    (default ""%string (getItem (storage s) Index.DB_NAMESPACE_KEY))
    (Index.encodeToBase64 encryptedRecord) s3) as Hsub.
  destruct (Index.submitBlob _ _ s3) as [[result|e] s4]; cbn [snd] in Hsub.
  2:{ exists s4. split; [|left; eexists; by rewrite Hout].
      intros k Hk. rewrite Hsub, Henc. by apply Hframe. }
  assert (∀ k, k ≠ Index.DB_AUTH_TOKEN_KEY → getItem (storage s4) k = getItem (storage s) k)
    as Hframe4.
  { intros k Hk. rewrite Hsub, Henc. by apply Hframe. }
  unfold bind at 1, localStorage_getItem at 1 in Hout.
  rewrite (Hframe4 Index.DB_RECORDS_KEY) in Hout by done.
  unfold bind at 1 in Hout.
  destruct (JSON_parse (Index.records_text _)) as [recordsList|] eqn:Hparse;
    cbn [or_throw ret throw] in Hout;
    [|exists s4; split; [done|left; eexists; by rewrite Hout]].
  destruct recordsList as [| | | |old|];
    try (exists s4; split; [done|left; eexists; by rewrite Hout]).
  unfold bind at 1, ask at 1 in Hout. destruct (now_iso (world s4)) as [timestamp w5].
  unfold bind at 1, localStorage_setItem at 1 in Hout. cbn [storage world] in Hout.
  unfold bind at 1, ask at 1 in Hout. cbn [storage world] in Hout.
  destruct (now_iso w5) as [returned w6]. cbn [ret] in Hout.
  exists s4. split; [done|]. right.
  exists (Index.result_height result), timestamp, returned, old, w6.
  by rewrite Hout.
Qed.

(** *** Writes of index.js are all or nothing *)

(** X14.  A failed initializeDatabase or addDatabaseRecord of index.js leaves
    every key of local storage other than the token as it was, and
    addDatabaseRecord, failed or not, writes no key other than the token
    and the record index. *)
Theorem Index_writes_all_or_nothing (s : Session) (k : string) :
  k ≠ Index.DB_AUTH_TOKEN_KEY →
  (∀ namespace schema e,
     (Index.initializeDatabase namespace schema s).1 = Throw e →
     getItem (storage (Index.initializeDatabase namespace schema s).2) k = getItem (storage s) k)
  ∧ (∀ data e,
       (Index.addDatabaseRecord data s).1 = Throw e →
       getItem (storage (Index.addDatabaseRecord data s).2) k = getItem (storage s) k)
  ∧ (∀ data,
       k ≠ Index.DB_RECORDS_KEY →
       getItem (storage (Index.addDatabaseRecord data s).2) k = getItem (storage s) k).
Proof.
  intros Hk. split; [|split].
  - intros namespace schema e Hthrow.
    destruct (Index_initializeDatabase_cases namespace schema s)
      as (s2 & Hframe & [[e' Hrun]|(height & _ & _ & Hrun)]); rewrite Hrun in *.
    + by apply Hframe.
    + done.
  - intros data e Hthrow.
    destruct (Index_addDatabaseRecord_cases data s)
      as (s2 & Hframe & [[e' Hrun]|(height & ts & ret' & old & w & _ & _ & _ & Hrun)]);
      rewrite Hrun in *.
    + by apply Hframe.
    + done.
  - intros data Hrecords.
    destruct (Index_addDatabaseRecord_cases data s)
      as (s2 & Hframe & [[e' Hrun]|(height & ts & ret' & old & w & _ & _ & _ & Hrun)]);
      rewrite Hrun; cbn [snd storage].
    + by apply Hframe.
    + unfold getItem at 1, setItem. rewrite lookup_insert_ne by done. by apply Hframe.
Qed.

(** *** A successful write of index.js *)

(** X15.  When initializeDatabase of index.js succeeds, the namespace is not
    empty and is the one returned and stored, the stored schema position
    is the height the node answered, the record index is the empty list
    and a token is stored; retrieveDatabaseRecords then returns no
    record and makes no request. *)
Theorem Index_initializeDatabase_starts_empty (namespace schema : string) (s : Session)
    (created : string * option JSON) :
  (Index.initializeDatabase namespace schema s).1 = Ok created →
  JSON_stringify (JArr []) = "[]"%string → JSON_parse "[]" = Some (JArr []) →
  let s' := (Index.initializeDatabase namespace schema s).2 in
  created.1 = namespace ∧ namespace ≠ ""%string
  ∧ getItem (storage s') Index.DB_NAMESPACE_KEY = Some namespace
  ∧ getItem (storage s') Index.DB_SCHEMA_HEIGHT_KEY = Some (JS_String_opt created.2)
  ∧ getItem (storage s') Index.DB_RECORDS_KEY = Some "[]"%string
  ∧ truthy (getItem (storage s') Index.DB_AUTH_TOKEN_KEY) = true
  ∧ Index.retrieveDatabaseRecords s' = (Ok [], s').
Proof.
  intros Hok Hstringify Hparse s'. subst s'.
  destruct (Index_initializeDatabase_cases namespace schema s)
    as (s2 & Hframe & [[e' Hrun]|(height & Hns & Htoken & Hrun)]); rewrite Hrun in *; [done|].
  cbn [fst snd storage] in *. injection Hok as <-. cbn [fst snd].
  rewrite Hstringify. unfold getItem, setItem in *.
  split; [done|]. split; [done|].
  split; [by simplify_map_eq|]. split; [by simplify_map_eq|]. split; [by simplify_map_eq|].
  split; [by rewrite !lookup_insert_ne by by intros [=]|].
  unfold Index.retrieveDatabaseRecords, bind, localStorage_getItem. cbn [storage].
  unfold getItem. rewrite lookup_insert_eq.
  rewrite !lookup_insert_ne, lookup_insert_eq by by intros [=].
  unfold Index.records_text. cbn [truthy String.eqb negb default from_option id].
  rewrite Hparse. cbn [or_throw ret]. rewrite negb_involutive.
  assert (String.eqb namespace "" = false) as -> by by apply String.eqb_neq.
  reflexivity.
Qed.

(** X16.  When addDatabaseRecord of index.js succeeds, the stored index was
    an array and the new index is that array with one entry added at the
    end, holding the height the node answered and a timestamp; the
    namespace and the schema position are as before. *)
Theorem Index_addDatabaseRecord_appends (data : string) (s : Session)
    (added : option JSON * string) :
  (Index.addDatabaseRecord data s).1 = Ok added →
  let s' := (Index.addDatabaseRecord data s).2 in
  ∃ old timestamp,
    JSON_parse (Index.records_text (getItem (storage s) Index.DB_RECORDS_KEY)) = Some (JArr old)
    ∧ getItem (storage s') Index.DB_RECORDS_KEY
      = Some (JSON_stringify (JArr (old ++ [Index.record_info added.1 timestamp])))
    ∧ getItem (storage s') Index.DB_NAMESPACE_KEY = getItem (storage s) Index.DB_NAMESPACE_KEY
    ∧ getItem (storage s') Index.DB_SCHEMA_HEIGHT_KEY
      = getItem (storage s) Index.DB_SCHEMA_HEIGHT_KEY.
Proof.
  intros Hok s'. subst s'.
  destruct (Index_addDatabaseRecord_cases data s)
    as (s2 & Hframe & [[e' Hrun]|(height & ts & ret' & old & w & _ & _ & Hparse & Hrun)]);
    rewrite Hrun in *; [done|].
  cbn [fst snd storage] in *. injection Hok as <-. cbn [fst].
  exists old, ts. split; [done|].
  rewrite <- !(Hframe _) by by intros [=]. unfold getItem, setItem.
  split; [by rewrite lookup_insert_eq|].
  by rewrite !lookup_insert_ne by by intros [=].
Qed.

(** *** After clearDatabaseCache *)

(** X17.  After clearDatabaseCache, of index.js or of database.js, adding a
    record and reading the schema or the records fail with the message
    that the database is not initialized; in index.js and for the two
    reads of database.js nothing is changed by the failed call. *)
Theorem cleared_store_is_uninitialized (s : Session) :
  JSON_parse "[]" = Some (JArr []) →
  let i := (Index.clearDatabaseCache s).2 in
  let d := (Database.clearDatabaseCache s).2 in
  (∀ data, Index.addDatabaseRecord data i
           = (Throw "Database not initialized. Please initialize the database first.", i))
  ∧ Index.retrieveDatabaseSchema i = (Throw "Database not initialized", i)
  ∧ Index.retrieveDatabaseRecords i = (Throw "Database not initialized", i)
  ∧ (∀ data, (Database.addDatabaseRecord data d).1 = Throw "Database not initialized")
  ∧ Database.retrieveDatabaseSchema d = (Throw "Database not initialized", d)
  ∧ Database.retrieveDatabaseRecords d = (Throw "Database not initialized", d).
Proof.
  intros Hparse i d.
  assert (getItem (storage i) Index.DB_NAMESPACE_KEY = None) as Hi.
  { subst i. cbn. unfold getItem, removeItem. by simplify_map_eq. }
  assert (getItem (storage i) Index.DB_RECORDS_KEY = None) as Hr.
  { subst i. cbn. unfold getItem, removeItem. by simplify_map_eq. }
  assert (getItem (storage d) Database.DB_NAMESPACE_KEY = None) as Hd.
  { subst d. cbn. unfold getItem, removeItem. by simplify_map_eq. }
  assert (getItem (storage d) Database.DB_SCHEMA_KEY = None) as Hc.
  { subst d. cbn. unfold getItem, removeItem. by simplify_map_eq. }
  clearbody i d.
  split; [|split; [|split; [|split; [|split]]]].
  - intros data. unfold Index.addDatabaseRecord, bind, localStorage_getItem. by rewrite Hi.
  - unfold Index.retrieveDatabaseSchema, bind, localStorage_getItem. by rewrite Hi.
  - unfold Index.retrieveDatabaseRecords, bind, localStorage_getItem. rewrite Hi, Hr.
    unfold Index.records_text. cbn [truthy]. by rewrite Hparse.
  - intros data. unfold Database.addDatabaseRecord, bind, localStorage_getItem. rewrite Hd.
    destruct (Database_token_twice d) as (token & _ & Htoken & _).
    destruct (Database.getOrCreateAuthToken d) as [r d']. cbn [fst] in Htoken. by subst r.
  - unfold Database.retrieveDatabaseSchema, bind, localStorage_getItem. rewrite Hc.
    cbn [truthy]. by rewrite Hd.
  - unfold Database.retrieveDatabaseRecords, bind, localStorage_getItem. by rewrite Hd.
Qed.

(** *** Writes of database.js *)

Lemma Database_encryptData_reads_only (data : JSON) (token : string) (s : Session) :
  storage (Database.encryptData data token s).2 = storage s.
Proof. apply reads_only. intros P. unfold Database.encryptData. preserve. Qed.

Lemma Database_token_other_key (k : string) (s : Session) :
  k ≠ Database.DB_TOKEN_KEY →
  getItem (storage (Database.getOrCreateAuthToken s).2) k = getItem (storage s) k.
Proof.
  intros Hk. destruct (truthy (getItem (storage s) Database.DB_TOKEN_KEY)) eqn:Ht.
  - destruct (getItem (storage s) Database.DB_TOKEN_KEY) as [t|] eqn:Hs; [|done].
    rewrite (Database_token_existing s t Hs); [done|].
    intros ->. done.
  - rewrite (Database_token_minted s Ht). cbn [snd storage]. unfold getItem, setItem.
    by rewrite lookup_insert_ne.
Qed.

(** The two ways submit can end. *)
Lemma Database_submit_cases (namespace : string) (wrapped : JSON) (after : M unit)
    (s : Session) :
  ∃ s1 : Session,
    storage s1 = storage s
    ∧ ((∃ e, Database.submit namespace wrapped after s = (Throw e, s1))
       ∨ (∃ height hash,
            Database.submit namespace wrapped after s
            = bind after (λ _, ret {| Database.sub_height := height;
                                      Database.sub_hash := hash;
                                      Database.sub_namespace := namespace;
                                      Database.sub_namespaceHex :=
                                        Database.namespaceHex_of namespace |}) s1)).
Proof.
  unfold Database.submit. unfold bind at 1 3, call.
  destruct (rpc _ _ (world s)) as [[response|e] w].
  - exists {| storage := storage s; world := w |}. split; [done|].
    destruct (is_null response); [left; by eexists|].
    destruct (truthy_json (field "result" response)); [|left; by eexists].
    right. by eexists _, _.
  - exists {| storage := storage s; world := w |}. split; [done|]. left. by eexists.
Qed.

Lemma Database_initializeDatabase_cases (namespace : string) (schema : JSON) (s : Session) :
  ∃ s2 : Session,
    (∀ k, k ≠ Database.DB_TOKEN_KEY → getItem (storage s2) k = getItem (storage s) k)
    ∧ ((∃ e, Database.initializeDatabase namespace schema s = (Throw e, s2))
       ∨ (∃ height hash,
            Database.initializeDatabase namespace schema s
            = (Ok {| Database.sub_height := height;
                     Database.sub_hash := hash;
                     Database.sub_namespace := namespace;
                     Database.sub_namespaceHex := Database.namespaceHex_of namespace |},
               {| storage :=
                    setItem (setItem (storage s2) Database.DB_NAMESPACE_KEY namespace)
                      Database.DB_SCHEMA_KEY (JSON_stringify schema);
                  world := world s2 |}))).
Proof.
  remember (Database.initializeDatabase namespace schema s) as out eqn:Hout.
  unfold Database.initializeDatabase in Hout.
  unfold bind at 1 in Hout.
  pose proof (Database_token_other_key) as Hother.
  destruct (Database_token_twice s) as (token & _ & Htoken & _).
  destruct (Database.getOrCreateAuthToken s) as [r s1] eqn:Hrun. cbn [fst snd] in *. subst r.
  assert (∀ k, k ≠ Database.DB_TOKEN_KEY → getItem (storage s1) k = getItem (storage s) k)
    as Hframe.
  { intros k Hk. specialize (Hother k s Hk). by rewrite Hrun in Hother. }
  unfold bind at 1 in Hout.
  pose proof (Database_encryptData_reads_only schema token s1) as Henc.
  destruct (Database.encryptData schema token s1) as [[encryptedSchema|e] s2]; cbn [snd] in Henc.
  2:{ exists s2. split; [|left; eexists; by rewrite Hout]. intros k Hk. rewrite Henc. by apply Hframe. }
  unfold bind at 1, ask at 1 in Hout. destruct (now_iso (world s2)) as [created w3].
  set (s3 := {| storage := storage s2; world := w3 |}) in Hout.
  match type of Hout with
  | _ = Database.submit ?n ?w ?a s3 =>
      destruct (Database_submit_cases n w a s3) as (s4 & Hsub & [[e Hs]|(height & hash & Hs)])
  end; rewrite Hs in Hout; clear Hs.
  - exists s4. split; [|left; eexists; by rewrite Hout].
    intros k Hk. rewrite Hsub. unfold s3. cbn [storage]. rewrite Henc. by apply Hframe.
  - exists s4. split.
    { intros k Hk. rewrite Hsub. unfold s3. cbn [storage]. rewrite Henc. by apply Hframe. }
    right. exists height, hash. by rewrite Hout.
Qed.

(** X18.  When initializeDatabase of database.js succeeds, it returns the
    namespace and its hex form, stores the namespace and the JSON text of
    the schema, and retrieveDatabaseSchema then returns that schema from
    the cache without a request. *)
Theorem Database_initializeDatabase_caches_schema (namespace : string) (schema : JSON)
    (s : Session) (submission : Database.Submission) :
  (Database.initializeDatabase namespace schema s).1 = Ok submission →
  JSON_parse (JSON_stringify schema) = Some schema → JSON_stringify schema ≠ ""%string →
  let s' := (Database.initializeDatabase namespace schema s).2 in
  Database.sub_namespace submission = namespace
  ∧ Database.sub_namespaceHex submission = Database.namespaceHex_of namespace
  ∧ getItem (storage s') Database.DB_NAMESPACE_KEY = Some namespace
  ∧ getItem (storage s') Database.DB_SCHEMA_KEY = Some (JSON_stringify schema)
  ∧ Database.retrieveDatabaseSchema s' = (Ok schema, s').
Proof.
  intros Hok Hparse Hne s'. subst s'.
  destruct (Database_initializeDatabase_cases namespace schema s)
    as (s2 & Hframe & [[e' Hrun]|(height & hash & Hrun)]); rewrite Hrun in *; [done|].
  cbn [fst snd storage] in *. injection Hok as <-. cbn [Database.sub_namespace
    Database.sub_namespaceHex].
  unfold getItem, setItem in *.
  split; [done|]. split; [done|]. split; [by simplify_map_eq|]. split; [by simplify_map_eq|].
  unfold Database.retrieveDatabaseSchema, bind, localStorage_getItem. cbn [storage].
  unfold getItem. rewrite lookup_insert_eq. cbn [truthy default from_option id].
  assert (String.eqb (JSON_stringify schema) "" = false) as -> by by apply String.eqb_neq.
  cbn [negb]. by rewrite Hparse.
Qed.

(** X19.  A failed initializeDatabase of database.js leaves every key of
    local storage other than the token as it was, and addDatabaseRecord
    of database.js never writes a key other than the token. *)
Theorem Database_writes_all_or_nothing (s : Session) (k : string) :
  k ≠ Database.DB_TOKEN_KEY →
  (∀ namespace schema e,
     (Database.initializeDatabase namespace schema s).1 = Throw e →
     getItem (storage (Database.initializeDatabase namespace schema s).2) k
       = getItem (storage s) k)
  ∧ (∀ data,
       getItem (storage (Database.addDatabaseRecord data s).2) k = getItem (storage s) k).
Proof.
  intros Hk. split.
  - intros namespace schema e Hthrow.
    destruct (Database_initializeDatabase_cases namespace schema s)
      as (s2 & Hframe & [[e' Hrun]|(height & hash & Hrun)]); rewrite Hrun in *.
    + by apply Hframe.
    + done.
  - intros data. unfold Database.addDatabaseRecord.
    unfold bind at 1, localStorage_getItem at 1. unfold bind at 1.
    pose proof (Database_token_other_key k s Hk) as Hother.
    destruct (Database_token_twice s) as (token & _ & Htoken & _).
    destruct (Database.getOrCreateAuthToken s) as [r s1] eqn:Hrun. cbn [fst snd] in *. subst r.
    destruct (negb (truthy (getItem (storage s) Database.DB_NAMESPACE_KEY))); [done|].
    unfold bind at 1.
    pose proof (Database_encryptData_reads_only data token s1) as Henc.
    destruct (Database.encryptData data token s1) as [[encryptedData|e] s2]; cbn [snd] in Henc;
      [|by cbn [snd]; rewrite Henc].
    unfold bind at 1, ask at 1. destruct (now_iso (world s2)) as [created w3].
    match goal with
    | |- getItem (storage (Database.submit ?n ?w ?a ?s3).2) _ = _ =>
        destruct (Database_submit_cases n w a s3) as (s4 & Hsub & [[e Hs]|(height & hash & Hs)])
    end; rewrite Hs; cbn [snd bind ret storage]; by rewrite Hsub, <- Hother, <- Henc.
Qed.

(** *** Reading back what was written *)

Lemma slice_drop_iv (iv ciphertext : bytes) :
  length iv = 12%nat →
  slice (iv ++ ciphertext) 0 12 = iv ∧ drop 12 (iv ++ ciphertext) = ciphertext.
Proof.
  intros Hiv. split.
  - rewrite <- Hiv. apply CryptoClaims.slice_prefix.
  - rewrite <- Hiv. apply drop_app_length.
Qed.

Lemma truthy_encoded (l : bytes) : l ≠ [] → String.eqb (base64_encode l) "" = false.
Proof. intros Hl. by apply String.eqb_neq, base64_encode_nonempty. Qed.

(** X20.  One turn of the loop of retrieveDatabaseRecords of index.js: when
    the blob at the height of an index entry carries what
    addDatabaseRecord wrote for a record (the encrypted JSON text, base64
    encoded twice), the turn yields that record with the height of the
    entry. *)
Theorem Index_record_read_back (namespaceHex token : string) (recordInfo blob record : JSON)
    (iv : bytes) (s s1 : Session) :
  Aead.correct → length iv = 12%nat →
  JSON_parse (JSON_stringify record) = Some record →
  is_null recordInfo = false →
  Index.retrieveBlob (field "height" recordInfo) namespaceHex s = (Ok (Some blob), s1) →
  field "data" blob
    = Some (JStr (Index.encodeToBase64
                    (btoa (iv ++ aes_gcm_encrypt (sha256_key (TextEncoder_encode token)) iv
                                   (TextEncoder_encode (JSON_stringify record)))))) →
  Index.retrieveRecord namespaceHex token recordInfo s
    = (Ok (Some {| Index.record := record; Index.height := field "height" recordInfo |}), s1).
Proof.
  intros Hcorrect Hiv Hjson Hnull Hblob Hdata.
  destruct (slice_drop_iv iv
    (aes_gcm_encrypt (sha256_key (TextEncoder_encode token)) iv
       (TextEncoder_encode (JSON_stringify record))) Hiv) as [Hslice Hdrop].
  unfold Index.retrieveRecord.
  assert (∀ m : M (option Index.ListedRecord),
            (match recordInfo with JNull => throw "TypeError" | _ => m end) = m) as ->.
  { intros m. by destruct recordInfo. }
  unfold try_catch at 1. unfold bind at 1. rewrite Hblob.
  assert (truthy_json (Some blob) = true) as -> by by destruct blob.
  cbn [mbind option_bind]. rewrite Hdata.
  cbn [negb orb truthy_json JS_String_opt JS_String]. unfold Index.encodeToBase64 at 1, btoa at 1.
  rewrite truthy_encoded.
  2:{ intros Heq.
      apply (base64_encode_nonempty
               (iv ++ aes_gcm_encrypt (sha256_key (TextEncoder_encode token)) iv
                        (TextEncoder_encode (JSON_stringify record)))); [by destruct iv|].
      unfold btoa in Heq. by destruct (base64_encode _). }
  cbn [negb].
  rewrite decode_encode.
  unfold try_catch, bind, Index.decryptData, try_catch, bind, or_throw, btoa.
  rewrite atob_base64_encode. cbn [ret]. rewrite Hslice, Hdrop, Hcorrect. cbn [ret].
  unfold TextDecoder_decode, TextEncoder_encode.
  by rewrite string_of_list_ascii_of_string, Hjson.
Qed.

Lemma Database_decrypt_encrypted (data : JSON) (token : string) (iv : bytes) (s : Session) :
  Aead.correct → length iv = 12%nat →
  JSON_parse (JSON_stringify data) = Some data →
  Database.decryptData
    (btoa (iv ++ aes_gcm_encrypt (Database.deriveKey token) iv
                   (TextEncoder_encode (JSON_stringify data)))) token s
  = (Ok data, s).
Proof.
  intros Hcorrect Hiv Hjson.
  destruct (slice_drop_iv iv
    (aes_gcm_encrypt (Database.deriveKey token) iv (TextEncoder_encode (JSON_stringify data)))
    Hiv) as [Hslice Hdrop].
  unfold Database.decryptData, bind, or_throw, btoa.
  rewrite atob_base64_encode. cbn [ret]. rewrite Hslice, Hdrop, Hcorrect. cbn [ret].
  unfold TextDecoder_decode, TextEncoder_encode.
  by rewrite string_of_list_ascii_of_string, Hjson.
Qed.

(** X21.  What database.js writes it reads back: a blob holding the record
    wrapper addDatabaseRecord builds is processed by
    retrieveDatabaseRecords into the record with its creation time and
    the height of the blob; a blob holding the metadata wrapper of
    initializeDatabase is passed over as a record, found as the metadata,
    and its schema decrypts to the schema that was stored. *)
Theorem Database_read_back (token created : string) (data schema blob : JSON) (iv : bytes)
    (rest : list JSON) (s : Session) :
  Aead.correct → length iv = 12%nat →
  let encrypted (v : JSON) :=
    btoa (iv ++ aes_gcm_encrypt (Database.deriveKey token) iv
                  (TextEncoder_encode (JSON_stringify v))) in
  let record := JObj [("type", JStr "celestia-db-record"); ("version", JStr "1.0.0");
                      ("created", JStr created); ("data", JStr (encrypted data))] in
  let metadata := JObj [("type", JStr "celestia-db"); ("version", JStr "1.0.0");
                        ("created", JStr created); ("schema", JStr (encrypted schema))] in
  let written (wrapped : JSON) := JStr (btoa (list_ascii_of_string (JSON_stringify wrapped))) in
  JSON_parse (JSON_stringify data) = Some data →
  JSON_parse (JSON_stringify schema) = Some schema →
  JSON_parse (JSON_stringify record) = Some record →
  JSON_parse (JSON_stringify metadata) = Some metadata →
  (field "data" blob = Some (written record) →
     Database.processBlob token blob s
     = (Ok (Some (JObj ([("data", data); ("created", JStr created)]
                        ++ from_option (λ h, [("height", h)]) [] (field "height" blob)))), s))
  ∧ (field "data" blob = Some (written metadata) →
       Database.processBlob token blob s = (Ok None, s)
       ∧ Database.find_metadata (blob :: rest) = Some metadata
       ∧ Database.decryptData (JS_String_opt (field "schema" metadata)) token s
         = (Ok schema, s)).
Proof.
  intros Hcorrect Hiv encrypted record metadata written Hdata Hschema Hrecord Hmetadata.
  assert (field "type" record = Some (JStr "celestia-db-record")) as Htr
    by (vm_compute; reflexivity).
  assert (field "data" record = Some (JStr (encrypted data))) as Hdr
    by (vm_compute; reflexivity).
  assert (field "created" record = Some (JStr created)) as Hcr
    by (vm_compute; reflexivity).
  assert (field "type" metadata = Some (JStr "celestia-db")) as Htm
    by (vm_compute; reflexivity).
  assert (field "schema" metadata = Some (JStr (encrypted schema))) as Hsm
    by (vm_compute; reflexivity).
  split.
  - intros Hblob. unfold Database.processBlob, try_catch, bind.
    assert (is_null blob = false) as -> by by destruct blob.
    rewrite Hblob. unfold written. cbn [JS_String_opt JS_String]. unfold btoa at 1.
    rewrite atob_base64_encode. cbn [or_throw ret].
    rewrite string_of_list_ascii_of_string, Hrecord. cbn [or_throw ret].
    change (is_null record) with false. cbv iota. rewrite Htr, Hdr, Hcr.
    cbn [is_str String.eqb Ascii.eqb Bool.eqb JS_String_opt JS_String from_option].
    unfold encrypted. by rewrite Database_decrypt_encrypted.
  - intros Hblob. split; [|split].
    + unfold Database.processBlob, try_catch, bind.
      assert (is_null blob = false) as -> by by destruct blob.
      rewrite Hblob. unfold written. cbn [JS_String_opt JS_String]. unfold btoa at 1.
      rewrite atob_base64_encode. cbn [or_throw ret].
      rewrite string_of_list_ascii_of_string, Hmetadata. cbn [or_throw ret].
      change (is_null metadata) with false. cbv iota. rewrite Htm. reflexivity.
    + cbn [Database.find_metadata].
      assert (is_null blob = false) as -> by by destruct blob.
      rewrite Hblob. unfold written. cbn [JS_String_opt JS_String]. unfold btoa at 1.
      rewrite atob_base64_encode. cbn [mbind option_bind].
      rewrite string_of_list_ascii_of_string, Hmetadata. cbn [mbind option_bind].
      change (is_null metadata) with false. cbv iota. rewrite Htm. reflexivity.
    + rewrite Hsm. cbn [JS_String_opt JS_String]. unfold encrypted.
      by apply Database_decrypt_encrypted.
Qed.

End index.

(** *** The properties on the test node *)

Import Example.

Lemma Testnet_correct (modular : bool) : @Aead.correct (Testnet.platform modular).
Proof. exact CryptoClaims.Offline_correct. Qed.


(** In an initialized store of index.js, a record that is no JSON text
    is refused and the namespace stays. *)
Lemma Index_writes_all_or_nothing_witness :
  (@Index.addDatabaseRecord (Testnet.platform false) "{" index_initialized).1
    = Throw "Invalid data format. Please provide valid JSON."
  ∧ getItem (storage (@Index.addDatabaseRecord (Testnet.platform false) "{" index_initialized).2)
      Index.DB_NAMESPACE_KEY
    = Some Offline.a_namespace.
Proof.
  split; [vm_compute; reflexivity|].
  destruct (@Index_writes_all_or_nothing (Testnet.platform false) index_initialized
              Index.DB_NAMESPACE_KEY ltac:(by intros [=])) as (_ & Hkeep & _).
  rewrite (Hkeep "{" _ ltac:(vm_compute; reflexivity)). vm_compute. reflexivity.
Defined.

Lemma Index_initializeDatabase_starts_empty_witness :
  getItem (storage index_initialized) Index.DB_NAMESPACE_KEY = Some Offline.a_namespace
  ∧ getItem (storage index_initialized) Index.DB_SCHEMA_HEIGHT_KEY = Some "1"
  ∧ getItem (storage index_initialized) Index.DB_RECORDS_KEY = Some "[]"
  ∧ @Index.retrieveDatabaseRecords (Testnet.platform false) index_initialized
    = (Ok [], index_initialized).
Proof.
  assert ((@Index.initializeDatabase (Testnet.platform false) Offline.a_namespace
             (Testnet.stringify a_schema) (Testnet.session false ∅)).1
          = Ok (Offline.a_namespace, Some (JNum 1))) as Hok by (vm_compute; reflexivity).
  destruct (@Index_initializeDatabase_starts_empty (Testnet.platform false)
              Offline.a_namespace (Testnet.stringify a_schema) (Testnet.session false ∅)
              (Offline.a_namespace, Some (JNum 1)) Hok eq_refl eq_refl)
    as (_ & _ & Hns & Hheight & Hrecords & _ & Hlist).
  split; [exact Hns|]. split; [exact Hheight|]. split; [exact Hrecords|exact Hlist].
Defined.

Lemma Index_addDatabaseRecord_appends_witness :
  ∃ timestamp,
    getItem (storage index_added) Index.DB_RECORDS_KEY
    = Some (Testnet.stringify (JArr [Index.record_info (Some (JNum 2)) timestamp]))
    ∧ getItem (storage index_added) Index.DB_NAMESPACE_KEY = Some Offline.a_namespace.
Proof.
  assert ((@Index.addDatabaseRecord (Testnet.platform false) (Testnet.stringify a_record)
             index_initialized).1
          = Ok (Some (JNum 2), a_timestamp)) as Hok by (vm_compute; reflexivity).
  destruct (@Index_addDatabaseRecord_appends (Testnet.platform false)
              (Testnet.stringify a_record) index_initialized
              (Some (JNum 2), a_timestamp) Hok)
    as (old & timestamp & Hold & Hnew & Hns & _).
  exists timestamp.
  assert (old = []) as -> by (vm_compute in Hold; congruence).
  split; [exact Hnew|]. etransitivity; [exact Hns|]. vm_compute. reflexivity.
Defined.

Lemma cleared_store_is_uninitialized_witness :
  let i := (@Index.clearDatabaseCache (Testnet.platform false) index_added).2 in
  @Index.retrieveDatabaseRecords (Testnet.platform false) i
  = (Throw "Database not initialized", i).
Proof.
  intros i.
  destruct (@cleared_store_is_uninitialized (Testnet.platform false) index_added eq_refl)
    as (_ & _ & Hlist & _).
  exact Hlist.
Defined.

Lemma Database_initializeDatabase_caches_schema_witness :
  getItem (storage database_initialized) Database.DB_NAMESPACE_KEY = Some database_namespace
  ∧ @Database.retrieveDatabaseSchema (Testnet.platform true) database_initialized
    = (Ok a_schema, database_initialized).
Proof.
  set (submission :=
         {| Database.sub_height := Some (JNum 1); Database.sub_hash := Some (JStr "TX");
            Database.sub_namespace := database_namespace;
            Database.sub_namespaceHex := Common.hex (Common.createValidNamespace "ab") |}).
  assert ((@Database.initializeDatabase (Testnet.platform true) database_namespace a_schema
             (Testnet.session true ∅)).1 = Ok submission) as Hok by (vm_compute; reflexivity).
  assert (Testnet.parse (Testnet.stringify a_schema) = Some a_schema) as Hparse
    by (vm_compute; reflexivity).
  assert (Testnet.stringify a_schema ≠ "") as Hne by (vm_compute; by intros [=]).
  destruct (@Database_initializeDatabase_caches_schema (Testnet.platform true)
              database_namespace a_schema (Testnet.session true ∅) submission Hok Hparse Hne)
    as (_ & _ & Hns & _ & Hschema).
  split; [exact Hns|exact Hschema].
Defined.

(** In an initialized store of database.js, adding a record leaves the
    namespace and the cached schema as they are. *)
Lemma Database_writes_all_or_nothing_witness :
  getItem (storage (@Database.addDatabaseRecord (Testnet.platform true) a_record
                      database_initialized).2) Database.DB_SCHEMA_KEY
  = Some (Testnet.stringify a_schema).
Proof.
  destruct (@Database_writes_all_or_nothing (Testnet.platform true) database_initialized
              Database.DB_SCHEMA_KEY ltac:(by intros [=])) as [_ Hkeep].
  rewrite Hkeep. vm_compute. reflexivity.
Defined.

(** The record added to the store of index.js is read back from the
    node. *)
Lemma Index_record_read_back_witness :
  let stored := JObj [("data", a_record); ("createdAt", JStr a_timestamp)] in
  (@Index.retrieveRecord (Testnet.platform false) (Index.base64ToHex Offline.a_namespace)
     index_token (Index.record_info (Some (JNum 2)) a_timestamp) index_added).1
  = Ok (Some {| Index.record := stored; Index.height := Some (JNum 2) |}).
Proof.
  intros stored.
  assert (Testnet.parse (Testnet.stringify stored) = Some stored) as Hjson
    by (vm_compute; reflexivity).
  set (fetched := @Index.retrieveBlob (Testnet.platform false)
                    (field "height" (Index.record_info (Some (JNum 2)) a_timestamp))
                    (Index.base64ToHex Offline.a_namespace) index_added).
  assert (fetched.1 = Ok (Some index_record_blob)) as Hfetched by (vm_compute; reflexivity).
  assert (fetched = (Ok (Some index_record_blob), fetched.2)) as Hblob
    by (rewrite <- Hfetched; apply surjective_pairing).
  assert (field "data" index_record_blob
          = Some (JStr (Index.encodeToBase64
                          (btoa (second_iv
                                 ++ @aes_gcm_encrypt (Testnet.platform false)
                                      (@sha256_key (Testnet.platform false)
                                         (TextEncoder_encode index_token)) second_iv
                                      (TextEncoder_encode (Testnet.stringify stored)))))))
    as Hdata by (vm_compute; reflexivity).
  rewrite (@Index_record_read_back (Testnet.platform false)
             (Index.base64ToHex Offline.a_namespace) index_token
             (Index.record_info (Some (JNum 2)) a_timestamp) index_record_blob stored
             second_iv index_added fetched.2 (Testnet_correct false) eq_refl Hjson eq_refl
             Hblob Hdata).
  reflexivity.
Defined.

(** The record blob database.js wrote is processed into the record. *)
Lemma Database_read_back_witness :
  @Database.processBlob (Testnet.platform true) database_token database_record_blob
    database_added
  = (Ok (Some (JObj [("data", a_record); ("created", JStr a_timestamp)])), database_added).
Proof.
  set (encrypted (v : JSON) :=
         btoa (second_iv ++ @aes_gcm_encrypt (Testnet.platform true)
                              (@Database.deriveKey (Testnet.platform true) database_token)
                              second_iv (TextEncoder_encode (Testnet.stringify v)))).
  set (record := JObj [("type", JStr "celestia-db-record"); ("version", JStr "1.0.0");
                       ("created", JStr a_timestamp); ("data", JStr (encrypted a_record))]).
  set (metadata := JObj [("type", JStr "celestia-db"); ("version", JStr "1.0.0");
                         ("created", JStr a_timestamp); ("schema", JStr (encrypted a_schema))]).
  assert (Testnet.parse (Testnet.stringify a_record) = Some a_record) as Hdata
    by (vm_compute; reflexivity).
  assert (Testnet.parse (Testnet.stringify a_schema) = Some a_schema) as Hschema
    by (vm_compute; reflexivity).
  assert (Testnet.parse (Testnet.stringify record) = Some record) as Hrecord
    by (vm_compute; reflexivity).
  assert (Testnet.parse (Testnet.stringify metadata) = Some metadata) as Hmetadata
    by (vm_compute; reflexivity).
  assert (field "data" database_record_blob
          = Some (JStr (btoa (list_ascii_of_string (Testnet.stringify record))))) as Hblob
    by (vm_compute; reflexivity).
  destruct (@Database_read_back (Testnet.platform true) database_token a_timestamp a_record
              a_schema database_record_blob second_iv [] database_added
              (Testnet_correct true) eq_refl Hdata Hschema Hrecord Hmetadata) as [Hread _].
  exact (Hread Hblob).
Defined.

End StoreProps.

(** ** The forms of the Database tab *)
Module FormProps.
Import JS Store StoreFacts Codec NamespaceFacts Database SchemaSpec.
Local Open Scope store_scope.

Section forms.
Context `{Platform}.

(** *** The template of the record form *)





Lemma bind_run {A B} (m : M A) (k : A → M B) (s : Session) :
  bind m k s = match m s with
               | (Ok a, s1) => k a s1
               | (Throw e, s1) => (Throw e, s1)
               end.
Proof. reflexivity. Qed.


Lemma displayDatabaseSchema_returns (dom : Forms.Dom) (s : Session) :
  ∃ s1, Forms.displayDatabaseSchema dom s = (Ok (), s1).
Proof.
  unfold Forms.displayDatabaseSchema.
  destruct (negb (Forms.has_schemaContainer dom)); [by eexists|].
  unfold try_catch. destruct (bind _ _ s) as [[[]|e] s1]; by eexists.
Qed.

(** *** The submit handlers *)


(** X24.  The submit handler of the init form: when the schema text is no
    JSON or validateNamespace of utils/common.js rejects the namespace,
    it reports that and changes nothing.  When it reports success, the
    schema text was JSON, the namespace was accepted and is not taken for
    hex, and initializeDatabase succeeded with the 58-digit hex form
    base64ToHex gives. *)
Theorem initDbForm_initializes_valid_namespaces_only
    (dom : Forms.Dom) (namespace schemaText : string) (s : Session) :
  let checked :=
    bool_decide (is_Some (JSON_parse schemaText))
    && Common.isValid (Common.validateNamespace namespace) in
  (checked = false →
     ∃ outcome, Forms.initDbForm_onsubmit dom namespace schemaText s = (Ok outcome, s)
                ∧ outcome ≠ Forms.Initialized)
  ∧ ((Forms.initDbForm_onsubmit dom namespace schemaText s).1 = Ok Forms.Initialized →
       checked = true
       ∧ Database.is_hex_text namespace = false
       ∧ String.length (Database.namespaceHex_of namespace) = 58%nat
       ∧ ∃ schema submission,
           JSON_parse schemaText = Some schema
           ∧ (initializeDatabase namespace schema s).1 = Ok submission
           ∧ Database.sub_namespaceHex submission = Common.base64ToHex namespace).
Proof.
  intros checked. subst checked. unfold Forms.initDbForm_onsubmit.
  destruct (JSON_parse schemaText) as [schema|] eqn:Hparse.
  2:{ cbn [andb]. rewrite bool_decide_eq_false_2 by by intros [? ?].
      split; [by eexists|done]. }
  rewrite bool_decide_eq_true_2 by by eexists. cbn [andb].
  destruct (Common.isValid (Common.validateNamespace namespace)) eqn:Hvalid; cbn [negb].
  2:{ split; [by eexists|done]. }
  split; [done|]. intros Hok. split; [done|].
  destruct (NamespaceProps.valid_namespace_hex namespace Hvalid) as (Hhex & Heq & Hlen).
  split; [done|]. split; [done|].
  exists schema. unfold try_catch in Hok. rewrite bind_run in Hok.
  destruct (StoreProps.Database_initializeDatabase_cases namespace schema s)
    as (s2 & _ & [[e Hrun]|(height & hash & Hrun)]); rewrite Hrun in *; [done|].
  eexists. split; [done|]. split; [done|]. done.
Qed.

End forms.

(** *** The forms on the test node *)

Import Example.



End FormProps.

(** ** Transport *)
Module TransportProps.
Import JS Websocket WebsocketFacts Trace.
Local Open Scope nat_scope.

Lemma run_cons (dom : Dom) (ev : Event) (evs : list Event) (s : State) :
  run dom (ev :: evs) s
  = ((run dom evs (step dom ev s).1).1, (step dom ev s).2 ++ (run dom evs (step dom ev s).1).2).
Proof.
  cbn [run]. destruct (step dom ev s) as [s1 e1]. cbn [fst snd].
  by destruct (run dom evs s1) as [s2 e2].
Qed.

Lemma run_app (dom : Dom) (evs1 evs2 : list Event) (s : State) :
  run dom (evs1 ++ evs2) s
  = ((run dom evs2 (run dom evs1 s).1).1,
     (run dom evs1 s).2 ++ (run dom evs2 (run dom evs1 s).1).2).
Proof.
  revert s. induction evs1 as [|ev evs1 IH]; intros s.
  - cbn [app run fst snd]. by destruct (run dom evs2 s).
  - rewrite <- app_comm_cons, !run_cons, IH. cbn [fst snd]. by rewrite app_assoc.
Qed.

(** *** One socket at a time *)

Lemma sockets_app (e1 e2 : list Effect) : sockets (e1 ++ e2) = sockets e1 + sockets e2.
Proof. unfold sockets. by rewrite List.filter_app, length_app. Qed.

Lemma sockets_when (b : bool) (e : Effect) : is_socket e = false → sockets (when b e) = 0.
Proof. intros He. destruct b; [|done]. unfold sockets. cbn. by rewrite He. Qed.

(** What one event does to the socket variable. *)
Lemma step_socket (dom : Dom) (ev : Event) (s : State) :
  sockets (step dom ev s).2 + free (step dom ev s).1
  ≤ free s + (if is_close ev then 1 else 0).
Proof.
  unfold free. destruct ev as [|m| | |c|m t]; cbn [step is_close].
  - unfold onopen. cbn [fst snd ws]. rewrite sockets_app, !sockets_when by done. lia.
  - unfold onmessage. destruct m as [response|]; [|cbn; lia].
    destruct (resp_id response) as [[|id]|]; try (cbn; lia).
    destruct (pendingRequests s !! S id); cbn; lia.
  - cbn. lia.
  - unfold onclose. cbn [reconnectAttempts ws].
    destruct (reconnectAttempts s <? maxReconnectAttempts); cbn [fst snd ws].
    + cbn. destruct (ws s); lia.
    + rewrite !sockets_app, !sockets_when by done. cbn. destruct (ws s); lia.
  - unfold connectWebSocket. destruct (ws s) eqn:Hws; [cbn; rewrite Hws; lia|].
    destruct c; cbn; rewrite ?Hws; lia.
  - unfold sendRpcRequest. destruct (negb (isConnected s) && t); [cbn; lia|].
    unfold dispatch. cbn [isConnected ws].
    destruct (negb (isConnected s)); [cbn; lia|].
    destruct (ws s) eqn:Hws; cbn; rewrite ?Hws; lia.
Qed.

(** X25.  Over any sequence of transport events from any state, the number
    of sockets constructed is at most the number of closes, plus one when
    no socket was held at the start; a socket is held at the end only if
    that bound is not used up.  connectWebSocket never opens a second
    socket beside a live one. *)
Theorem one_socket_at_a_time (dom : Dom) (evs : list Event) (s : State) :
  sockets (run dom evs s).2 + free (run dom evs s).1 ≤ free s + closes evs.
Proof.
  revert s. induction evs as [|ev evs IH]; intros s.
  - cbn. lia.
  - rewrite run_cons. cbn [fst snd]. rewrite sockets_app.
    pose proof (step_socket dom ev s) as Hstep.
    specialize (IH (step dom ev s).1).
    unfold closes in *. cbn [List.filter]. destruct (is_close ev); cbn [length]; lia.
Qed.

(** *** A request that was sent is settled at most once *)

Lemma settled_app (p : nat) (e1 e2 : list Effect) :
  settled p (e1 ++ e2) = settled p e1 + settled p e2.
Proof. unfold settled. by rewrite List.filter_app, length_app. Qed.

Lemma settled_when (p : nat) (b : bool) (e : Effect) :
  is_settle_of p e = false → settled p (when b e) = 0.
Proof. intros He. destruct b; [|done]. unfold settled. cbn. by rewrite He. Qed.

Lemma sends_app (e1 e2 : list Effect) : sends (e1 ++ e2) = sends e1 ++ sends e2.
Proof. unfold sends. by rewrite omap_app. Qed.

(** What one event does to the pending requests: nothing, or it answers
    one, or it sends one under a new id, or it fails one under a new id,
    or it fails one that takes no id. *)
Lemma step_cases (dom : Dom) (ev : Event) (s : State) :
  ids_taken s →
  let s' := (step dom ev s).1 in
  let effects := (step dom ev s).2 in
  ids_taken s'
  ∧ ((pendingRequests s' = pendingRequests s ∧ requestId s' = requestId s
      ∧ forallb is_quiet effects = true)
     ∨ (∃ id cb outcome,
          pendingRequests s !! id = Some cb
          ∧ pendingRequests s' = delete id (pendingRequests s)
          ∧ requestId s' = requestId s ∧ effects = [Settle id outcome])
     ∨ (∃ method,
          pendingRequests s' = <[requestId s := {| promise := requestId s |}]> (pendingRequests s)
          ∧ requestId s' = S (requestId s) ∧ effects = [Send (requestId s) method])
     ∨ (∃ outcome,
          pendingRequests s' = delete (requestId s) (pendingRequests s)
          ∧ requestId s' = S (requestId s) ∧ effects = [Settle (requestId s) outcome])
     ∨ (∃ outcome, s' = s ∧ effects = [Settle (requestId s) outcome])).
Proof.
  intros Hinv s' effects. subst s' effects.
  assert (∀ s1 : State,
            pendingRequests s1 = pendingRequests s → requestId s1 = requestId s → ids_taken s1)
    as Hsame.
  { intros s1 Hp Hr id cb. rewrite Hp, Hr. apply Hinv. }
  destruct ev as [|m| | |c|m t]; cbn [step].
  - unfold onopen. cbn [fst snd]. split; [by apply Hsame|]. left.
    split; [done|]. split; [done|].
    by destruct (has_connectionStatus dom), (has_nodeConnectionAlert dom).
  - unfold onmessage.
    destruct m as [response|]; [|split; [done|by left]].
    destruct (resp_id response) as [[|n]|]; try (split; [done|by left]).
    destruct (pendingRequests s !! S n) as [cb|] eqn:Hcb; [|split; [done|by left]].
    cbn [fst snd]. split.
    + intros id cb'. cbn [pendingRequests requestId]. intros [_ Hx]%lookup_delete_Some.
      by apply Hinv.
    + right. left. destruct (Hinv _ _ Hcb) as [-> _]. by eexists _, _, _.
  - cbn. split; [by apply Hsame|]. by left.
  - unfold onclose. cbn [reconnectAttempts].
    destruct (reconnectAttempts s <? maxReconnectAttempts); cbn [fst snd].
    + split; [by apply Hsame|]. by left.
    + split; [by apply Hsame|]. left. split; [done|]. split; [done|].
      by destruct (has_connectionStatus dom), (has_nodeConnectionAlert dom).
  - unfold connectWebSocket. destruct (ws s); [|destruct c]; cbn [fst snd].
    all: split; [by apply Hsame|]; by left.
  - unfold sendRpcRequest. destruct (negb (isConnected s) && t).
    { cbn [fst snd]. split; [done|]. do 4 right. by eexists. }
    unfold dispatch. cbn [isConnected ws requestId pendingRequests].
    assert (ids_taken {| ws := ws s; requestId := S (requestId s);
                         pendingRequests := delete (requestId s) (pendingRequests s);
                         isConnected := isConnected s;
                         reconnectAttempts := reconnectAttempts s |}) as Hfailed.
    { intros id cb. cbn [pendingRequests requestId]. intros [_ Hx]%lookup_delete_Some.
      destruct (Hinv _ _ Hx). split; [done|lia]. }
    destruct (negb (isConnected s)).
    { cbn [fst snd]. split; [done|]. do 3 right. left. by eexists. }
    destruct (ws s).
    + cbn [fst snd]. split.
      * intros id cb. cbn [pendingRequests requestId].
        intros [[<- <-]|[_ Hx]]%lookup_insert_Some; [cbn; lia|].
        destruct (Hinv _ _ Hx). split; [done|lia].
      * do 2 right. left. by eexists.
    + cbn [fst snd]. split; [done|]. do 3 right. left. by eexists.
Qed.

Lemma settled_quiet (p : nat) (effects : list Effect) :
  forallb is_quiet effects = true → settled p effects = 0.
Proof.
  unfold settled. induction effects as [|e effects IH]; [done|].
  cbn [forallb List.filter]. intros [He Hq]%andb_true_iff.
  destruct e; try done; cbn [is_settle_of]; by apply IH.
Qed.

(** Where the first request of a trace is, when the trace opens with
    effects that are no request. *)
Lemma send_after (e1 e2 a b : list Effect) (id : nat) (method : string) :
  Forall (λ e, ∀ i m, e ≠ Send i m) e1 →
  e1 ++ e2 = a ++ Send id method :: b →
  ∃ a', a = e1 ++ a' ∧ e2 = a' ++ Send id method :: b.
Proof.
  intros Hq. revert a. induction Hq as [|e e1 He _ IH]; intros a Heq.
  - by exists a.
  - destruct a as [|x a]; cbn in Heq.
    + injection Heq as -> _. by destruct (He id method).
    + injection Heq as -> Heq. destruct (IH a Heq) as (a' & -> & ->). by exists a'.
Qed.

Lemma quiet_no_send (effects : list Effect) :
  forallb is_quiet effects = true → Forall (λ e, ∀ i m, e ≠ Send i m) effects.
Proof.
  intros Hq. apply Forall_forall. intros e He. rewrite forallb_forall in Hq.
  specialize (Hq e ltac:(by apply list_elem_of_In)). by destruct e.
Qed.

Lemma settle_no_send (p : nat) (outcome : Settlement) :
  Forall (λ e, ∀ i m, e ≠ Send i m) [Settle p outcome].
Proof. by repeat constructor. Qed.

Lemma settled_one (p q : nat) (outcome : Settlement) :
  settled p [Settle q outcome] = if decide (q = p) then 1 else 0.
Proof.
  unfold settled. cbn [List.filter is_settle_of].
  destruct (decide (q = p)) as [->|Hne].
  - by rewrite Nat.eqb_refl.
  - apply Nat.eqb_neq in Hne. by rewrite Hne.
Qed.

Lemma sends_bound (n : nat) (effects : list Effect) :
  (∀ a b i m, effects = a ++ Send i m :: b → n ≤ i) →
  Forall (λ i, n ≤ i) (sends effects).
Proof.
  unfold sends. induction effects as [|e effects IH]; intros Hall; [constructor|].
  assert (Forall (λ i, n ≤ i) (omap (λ e, match e with Send id _ => Some id | _ => None end)
                                  effects)) as Htail.
  { apply IH. intros a b i m ->. by apply (Hall (e :: a) b i m). }
  destruct e; cbn [omap]; try done.
  constructor; [|done]. by apply (Hall [] effects id method).
Qed.

Lemma run_requests (dom : Dom) (evs : list Event) (s : State) :
  ids_taken s →
  let effects := (run dom evs s).2 in
  (∀ id, is_Some (pendingRequests s !! id) → settled id effects ≤ 1)
  ∧ (∀ id, id < requestId s → pendingRequests s !! id = None → settled id effects = 0)
  ∧ (∀ a b id method, effects = a ++ Send id method :: b →
       requestId s ≤ id ∧ settled id b ≤ 1 ∧ Forall (λ i, id < i) (sends b))
  ∧ ids_taken (run dom evs s).1.
Proof.
  revert s. induction evs as [|ev evs IH]; intros s Hinv effects; subst effects.
  { cbn. split; [intros; lia|]. split; [done|]. split; [|done]. by intros [|? ?] ? ? ? ?. }
  rewrite run_cons. cbn [fst snd].
  destruct (step_cases dom ev s Hinv) as [Hinv' Hcases].
  destruct (IH (step dom ev s).1 Hinv') as (HA & HB & HC & HI).
  set (s' := (step dom ev s).1) in *. set (e1 := (step dom ev s).2) in *.
  set (e2 := (run dom evs s').2) in *.
  split; [|split; [|split; [|done]]].
  - (* a request pending at the start *)
    intros id [cb Hid]. rewrite settled_app. destruct (Hinv _ _ Hid) as [_ Hlt].
    destruct Hcases as [(Hp & Hr & Hq)|[(id0 & cb0 & o & Hcb & Hp & Hr & He)|
      [(m & Hp & Hr & He)|[(o & Hp & Hr & He)|(o & Hs & He)]]]].
    + rewrite (settled_quiet _ _ Hq). apply HA. rewrite Hp. by eexists.
    + rewrite He, settled_one. destruct (decide (id0 = id)) as [->|Hne].
      * rewrite HB; [lia|lia|]. rewrite Hp. apply lookup_delete_eq.
      * cbn. apply HA. rewrite Hp, lookup_delete_ne by done. by eexists.
    + rewrite He. cbn. apply HA. rewrite Hp, lookup_insert_ne by lia. by eexists.
    + rewrite He, settled_one, decide_False by lia. cbn. apply HA.
      rewrite Hp, lookup_delete_ne by lia. by eexists.
    + rewrite He, settled_one, decide_False by lia. cbn. rewrite Hs in HA. apply HA. by eexists.
  - (* a request answered or failed before *)
    intros id Hlt Hid. rewrite settled_app.
    destruct Hcases as [(Hp & Hr & Hq)|[(id0 & cb0 & o & Hcb & Hp & Hr & He)|
      [(m & Hp & Hr & He)|[(o & Hp & Hr & He)|(o & Hs & He)]]]].
    + rewrite (settled_quiet _ _ Hq). apply HB; [lia|]. by rewrite Hp.
    + rewrite He, settled_one, decide_False by (intros ->; congruence). cbn.
      apply HB; [lia|]. rewrite Hp. apply lookup_delete_None. by right.
    + rewrite He. cbn. apply HB; [lia|]. by rewrite Hp, lookup_insert_ne by lia.
    + rewrite He, settled_one, decide_False by lia. cbn. apply HB; [lia|].
      rewrite Hp. apply lookup_delete_None. by right.
    + rewrite He, settled_one, decide_False by lia. cbn. rewrite Hs in HB. by apply HB.
  - (* a request sent during the run *)
    intros a b id method Heq.
    destruct Hcases as [(Hp & Hr & Hq)|[(id0 & cb0 & o & Hcb & Hp & Hr & He)|
      [(m & Hp & Hr & He)|[(o & Hp & Hr & He)|(o & Hs & He)]]]].
    + destruct (send_after e1 e2 a b id method (quiet_no_send _ Hq) Heq) as (a' & -> & Heq').
      destruct (HC _ _ _ _ Heq') as (? & ? & ?). split; [lia|done].
    + rewrite He in Heq.
      destruct (send_after _ e2 a b id method (settle_no_send _ _) Heq)
        as (a' & -> & Heq').
      destruct (HC _ _ _ _ Heq') as (? & ? & ?). split; [lia|done].
    + rewrite He in Heq. destruct a as [|x a]; cbn in Heq.
      * injection Heq as <- <- <-. split; [done|]. split.
        -- apply HA. rewrite Hp, lookup_insert_eq. by eexists.
        -- apply sends_bound. intros a b i m' Heq. destruct (HC _ _ _ _ Heq) as [Hle _]. lia.
      * injection Heq as <- Heq. destruct (HC _ _ _ _ Heq) as (? & ? & ?). split; [lia|done].
    + rewrite He in Heq.
      destruct (send_after _ e2 a b id method (settle_no_send _ _) Heq)
        as (a' & -> & Heq').
      destruct (HC _ _ _ _ Heq') as (? & ? & ?). split; [lia|done].
    + rewrite He in Heq.
      destruct (send_after _ e2 a b id method (settle_no_send _ _) Heq)
        as (a' & -> & Heq').
      rewrite Hs in HC. destruct (HC _ _ _ _ Heq') as (? & ? & ?). split; [lia|done].
Qed.

Lemma ids_taken_initial : ids_taken initial.
Proof. intros id cb. cbn. by rewrite lookup_empty. Qed.

(** X26.  From the initial state and over any sequence of transport events,
    a request written to the socket has an id of at least 1, its promise
    is resolved or rejected at most once afterwards, and every request
    written later has a larger id. *)
Theorem sent_request_settles_at_most_once
    (dom : Dom) (evs : list Event) (before after : list Effect) (id : nat) (method : string) :
  (run dom evs initial).2 = before ++ Send id method :: after →
  1 ≤ id ∧ settled id after ≤ 1 ∧ Forall (λ later, id < later) (sends after).
Proof.
  intros Htrace.
  destruct (run_requests dom evs initial ids_taken_initial) as (_ & _ & HC & _).
  apply (HC _ _ _ _ Htrace).
Qed.

(** X27.  A successful open restores the whole reconnect budget: whatever
    happened before it, the closes after it (up to the next open) set
    timers with the delays 1000, 2000, ... again, at most five of
    them. *)
Theorem open_restores_backoff (dom : Dom) (pre post : list Event) (s : State) :
  forallb (λ ev, negb (is_open ev)) post = true →
  delays (run dom (pre ++ Open :: post) s).2
  = delays (run dom pre s).2 ++ map backoff (seq 1 (closes post `min` maxReconnectAttempts)).
Proof.
  intros Hpost. rewrite run_app. cbn [snd]. rewrite delays_app. f_equal.
  rewrite run_cons. cbn [snd step]. rewrite delays_app.
  set (s1 := (run dom pre s).1).
  destruct (run_reconnect dom post (onopen dom s1).1 Hpost) as (Hd & _ & _).
  rewrite Hd. cbn [onopen fst snd reconnectAttempts]. rewrite Nat.sub_0_r.
  unfold when. by destruct (has_connectionStatus dom), (has_nodeConnectionAlert dom).
Qed.

(** *** Two runs *)

(** A call over an open connection whose response arrives twice: the
    promise is resolved once. *)
Lemma sent_request_settles_at_most_once_witness :
  let dom := {| has_connectionStatus := true; has_nodeConnectionAlert := true |} in
  let response := {| resp_id := Some 1; resp_error := None; resp_result := JNull |} in
  let evs := [Connect true; Open; Call "header.NetworkHead" false;
              Message (Some response); Message (Some response)] in
  (run dom evs initial).2
  = [NewWebSocket; StatusConnected; AlertHidden; Send 1 "header.NetworkHead";
     Settle 1 (Resolved response)]
  ∧ (settled 1 [Settle 1 (Resolved response)] ≤ 1)%nat.
Proof.
  intros dom response evs. split; [reflexivity|].
  exact (proj1 (proj2 (sent_request_settles_at_most_once dom evs
                         [NewWebSocket; StatusConnected; AlertHidden]
                         [Settle 1 (Resolved response)] 1 "header.NetworkHead" eq_refl))).
Defined.

(** Two closes, a successful open, then three closes: the delays start
    again at one second. *)
Lemma open_restores_backoff_witness :
  let dom := {| has_connectionStatus := true; has_nodeConnectionAlert := true |} in
  delays (run dom ([Close; Close] ++ Open :: [Close; Close; Close])%list initial).2
  = ([1000; 2000] ++ [1000; 2000; 3000])%list.
Proof.
  intros dom. exact (open_restores_backoff dom [Close; Close] [Close; Close; Close] initial eq_refl).
Defined.

End TransportProps.

(** ** The theme *)
Module ThemeProps.
Import JS Theme.
Local Open Scope string_scope.

Lemma applyTheme_themed (dom : Dom) (theme : string) (p : Page) :
  theme ≠ "" → themed (applyTheme dom theme p).
Proof.
  intros Hne. exists theme. unfold applyTheme, updateBootstrapForDarkMode.
  destruct (has_icons dom); cbn; unfold getItem, setItem; by rewrite lookup_insert_eq.
Qed.

Lemma truthy_Some (s : string) : s ≠ "" → truthy (Some s) = true.
Proof. intros Hne. cbn. by destruct s. Qed.

Lemma step_themed (dom : Dom) (ev : Event) (p : Page) :
  themed p →
  themed (step dom ev p)
  ∧ (is_os_change ev = true → step dom ev p = p).
Proof.
  intros (theme & Hne & Hattr & Hstored & Hdark).
  destruct ev as [|attributeName|matches]; cbn [step is_os_change].
  - split; [|done]. destruct (has_themeToggle dom); [|by exists theme].
    apply applyTheme_themed. by destruct (is_theme _ _).
  - split; [|done]. destruct (String.eqb attributeName "data-theme"); [|by exists theme].
    exists theme. cbn. rewrite Hattr. by cbn.
  - rewrite Hstored, truthy_Some by done. cbn. split; [by exists theme|done].
Qed.

Lemma run_snoc (dom : Dom) (evs : list Event) (ev : Event) (p : Page) :
  run dom (evs ++ [ev]) p = step dom ev (run dom evs p).
Proof. unfold run. by rewrite foldl_app. Qed.

Lemma run_themed (dom : Dom) (evs : list Event) (p : Page) :
  themed p →
  themed (run dom evs p)
  ∧ run dom evs p = run dom (List.filter (λ ev, negb (is_os_change ev)) evs) p.
Proof.
  intros Hp. induction evs as [|ev evs IH] using rev_ind; [done|].
  destruct IH as [Hthemed Heq]. rewrite run_snoc, List.filter_app.
  destruct (step_themed dom ev _ Hthemed) as [Hstep Hos]. split; [done|].
  cbn [List.filter]. destruct (is_os_change ev) eqn:Hev; cbn [negb].
  - rewrite Hos by done. by rewrite app_nil_r.
  - by rewrite run_snoc, <- Heq.
Qed.

Lemma initTheme_themed (dom : Dom) (prefers_dark : bool) (p : Page) :
  themed (initTheme dom prefers_dark p).
Proof.
  apply applyTheme_themed. unfold getPreferredTheme.
  destruct (getItem (storage p) "theme") as [saved|]; cbn.
  - destruct (String.eqb saved "") eqn:E; cbn.
    + by destruct prefers_dark.
    + intros ->. by rewrite String.eqb_refl in E.
  - by destruct prefers_dark.
Qed.

(** After a click the theme is light or dark, whatever was stored. *)
Lemma run_clicked (dom : Dom) (evs : list Event) (p : Page) :
  themed p → has_themeToggle dom = true →
  existsb is_click evs = true →
  data_theme (run dom evs p) = Some "light" ∨ data_theme (run dom evs p) = Some "dark".
Proof.
  intros Hp Htoggle. induction evs as [|ev evs IH] using rev_ind; [done|].
  rewrite existsb_app, run_snoc. cbn [existsb]. rewrite orb_false_r.
  destruct (run_themed dom evs p Hp) as [(theme & Hne & Hattr & Hstored & Hdark) _].
  destruct ev as [|attributeName|matches]; cbn [is_click step].
  - intros _. rewrite Htoggle. unfold applyTheme, updateBootstrapForDarkMode.
    destruct (is_theme _ _), (has_icons dom); cbn; auto.
  - rewrite orb_false_r. intros Hc. specialize (IH Hc).
    by destruct (String.eqb attributeName "data-theme").
  - rewrite orb_false_r. intros Hc. specialize (IH Hc).
    by rewrite Hstored, truthy_Some.
Qed.

(** X28.  After initTheme, over any sequence of clicks on the toggle, observer
    records and changes of the preferred colour scheme: the data-theme
    attribute holds a non-empty theme, local storage holds the same theme
    and the controls are styled dark exactly when it is dark; a change of
    the colour scheme of the system changes nothing, since initTheme
    itself stores a theme; a saved theme is applied as it is; and after a
    click on the toggle the theme is light or dark. *)
Theorem os_theme_is_followed_only_at_start
    (dom : Dom) (prefers_dark : bool) (evs : list Event) (p : Page) :
  let final := run dom evs (initTheme dom prefers_dark p) in
  (∃ theme, theme ≠ ""
     ∧ data_theme final = Some theme
     ∧ getItem (storage final) "theme" = Some theme
     ∧ dark_controls final = String.eqb theme "dark")
  ∧ final = run dom (List.filter (λ ev, negb (is_os_change ev)) evs)
              (initTheme dom prefers_dark p)
  ∧ (∀ matches, step dom (OsChange matches) final = final)
  ∧ (truthy (getItem (storage p) "theme") = true →
       data_theme (initTheme dom prefers_dark p) = getItem (storage p) "theme")
  ∧ (has_themeToggle dom = true → existsb is_click evs = true →
       data_theme final = Some "light" ∨ data_theme final = Some "dark").
Proof.
  intros final.
  destruct (run_themed dom evs _ (initTheme_themed dom prefers_dark p)) as [Hthemed Heq].
  split; [exact Hthemed|]. split; [exact Heq|]. split; [|split].
  - intros matches. by apply (step_themed dom (OsChange matches) final Hthemed).
  - intros Hsaved. unfold initTheme, getPreferredTheme. rewrite Hsaved.
    unfold applyTheme, updateBootstrapForDarkMode.
    destruct (getItem (storage p) "theme"); [|done]. by destruct (has_icons dom).
  - intros Htoggle Hclick. by apply run_clicked; [apply initTheme_themed|..].
Qed.

End ThemeProps.
